(** * A shallow embedding of the NATS Go client (nats.go, version 0.68)

    The development follows the source file function by function: the
    connection object [Conn], its buffered writer, the subscription registry,
    the PONG-waiter queue used by [FlushTimeout], message dispatch
    ([processMsg], [deliverMsgs], [NextMsg]) and the reconnect logic
    ([processReconnect], [doReconnect], [resendSubscriptions], [Close]).

    Conventions.
    - Go's [uint64] counters are integers in [Z] with the wrap-around modulo
      2^64 written out ([U64.add]).
    - Byte slices and what travels through the buffered writer are
      [list byte]; Go strings are [string].
    - A Go pointer to a [Subscription] is a key of the store [objs];
      [subscribe] allocates one object per identifier and uses the identifier
      as the key, so the registry [nc.subs] is the set of keys it holds.
    - Callbacks and channel sends are recorded, in order, in the [trace] of
      the connection.
    - A run-time panic of Go (nil dereference, index out of range) is the
      [Panic] result. *)

From Stdlib Require Import ZArith String Ascii List Lia Bool DecimalString.
From Stdlib.Strings Require Import Byte.
From stdpp Require Import gmap strings list.

Open Scope Z_scope.

(** ** Machine integers *)

Module U64.
Definition modulus : Z := 2 ^ 64.
Definition wrap (z : Z) : Z := z mod modulus.
Definition add (a b : Z) : Z := wrap (a + b).
(** The conversion [int(x)] of a [uint64] on a 64-bit platform. *)
Definition to_int (z : Z) : Z := if z <? 2 ^ 63 then z else z - modulus.
Definition in_range (z : Z) : Prop := 0 <= z < modulus.
End U64.

Definition bytes := list Byte.byte.

Definition len (p : bytes) : Z := Z.of_nat (length p).

(** ** Results of operations that may panic *)

Inductive result (A : Type) : Type :=
| Ok (a : A)
| Panic (why : string).
Arguments Ok {A} a.
Arguments Panic {A} why.

Definition rbind {A B : Type} (c : result A) (k : A -> result B) : result B :=
  match c with
  | Ok a => k a
  | Panic why => Panic why
  end.

Notation "'let*' ( x , y ) ':=' c 'in' k" :=
  (rbind c (fun xy => let '(x, y) := xy in k))
  (at level 10, x name, y name, c at level 100, k at level 200).
Notation "'let*' x ':=' c 'in' k" := (rbind c (fun x => k))
  (at level 10, x name, c at level 100, k at level 200).

(** ** Constants of the source *)

Definition _CRLF_ : string := String (ascii_of_nat 13) (String (ascii_of_nat 10) EmptyString).
Definition _EMPTY_ : string := "".
Definition _SPC_ : string := " ".

Definition maxChanLen : Z := 8192.
Definition defaultBufSize : Z := 32768.
Definition defaultPendingSize : Z := 1024 * 1024.
Definition DefaultMaxReconnect : Z := 10.

(** [strconv.Itoa] and the [%d] verb of [fmt]. *)
Definition Itoa (z : Z) : string := NilZero.string_of_int (Z.to_int z).

Definition pingProto : string := "PING" +:+ _CRLF_.
Definition pongProto : string := "PONG" +:+ _CRLF_.
Definition pubProto (subj reply : string) (n : Z) : string :=
  "PUB " +:+ subj +:+ " " +:+ reply +:+ " " +:+ Itoa n +:+ _CRLF_.
Definition subProto (subj queue : string) (sid : Z) : string :=
  "SUB " +:+ subj +:+ " " +:+ queue +:+ " " +:+ Itoa sid +:+ _CRLF_.
Definition unsubProto (sid : Z) (maxStr : string) : string :=
  "UNSUB " +:+ Itoa sid +:+ " " +:+ maxStr +:+ _CRLF_.

(** ** Errors and status *)

Inductive error : Type :=
| ErrConnectionClosed
| ErrSecureConnRequired
| ErrSecureConnWanted
| ErrBadSubscription
| ErrSlowConsumer
| ErrTimeout
| ErrNew (msg : string)      (* errors.New(msg) at the place of use *)
| ErrIO.                      (* an error of the network layer *)

Definition ErrBadTimeout : error := ErrNew "nats: Bad timeout value".
Definition ErrIllegalAsync : error := ErrNew "nats: Illegal call on an async Subscription".
Definition ErrMaxMessages : error := ErrNew "nats: Max messages delivered".
Definition ErrParseMsg : error := ErrNew "nats: Parse exception processing msg".

Inductive Status : Type := DISCONNECTED | CONNECTED | CLOSED | RECONNECTING.

Definition Status_eqb (a b : Status) : bool :=
  match a, b with
  | DISCONNECTED, DISCONNECTED | CONNECTED, CONNECTED
  | CLOSED, CLOSED | RECONNECTING, RECONNECTING => true
  | _, _ => false
  end.

(** ** Messages, channels and subscriptions *)

Module Msg.
Record t : Type := mk {
  Subject : string;
  Reply : string;
  Data : bytes;
  Sub : Z                   (* the subscription it belongs to *)
}.
End Msg.

(** A buffered Go channel of messages: what it holds, oldest first, and
    whether [close] was called on it. *)
Module Chan.
Record t : Type := mk {
  buf : list Msg.t;
  closed : bool
}.
Definition make : t := mk [] false.
Definition send (m : Msg.t) (c : t) : t := mk (buf c ++ [m]) (closed c).
Definition close (c : t) : t := mk (buf c) true.
End Chan.

Module Subscription.
(** [mch] is the field [s.mch] seen as a pointer: [true] while it points to
    the mailbox made by [subscribe], [false] once it was set to nil.
    [mailbox] is that channel itself, which [deliverMsgs] and a pending
    [NextMsg] keep a reference to after [s.mch] became nil.  [conn] is
    [s.conn != nil] and [mcb] is [s.mcb != nil]. *)
Record t : Type := mk {
  sid : Z;
  Subject : string;
  Queue : string;
  msgs : Z;
  delivered : Z;
  bytes : Z;
  max : Z;
  conn : bool;
  mcb : bool;
  mch : bool;
  mailbox : Chan.t;
  sc : bool
}.

Definition set_counters (m b : Z) (s : t) : t :=
  mk (sid s) (Subject s) (Queue s) m (delivered s) b (max s)
     (conn s) (mcb s) (mch s) (mailbox s) (sc s).
Definition set_delivered (d : Z) (s : t) : t :=
  mk (sid s) (Subject s) (Queue s) (msgs s) d (bytes s) (max s)
     (conn s) (mcb s) (mch s) (mailbox s) (sc s).
Definition set_max (x : Z) (s : t) : t :=
  mk (sid s) (Subject s) (Queue s) (msgs s) (delivered s) (bytes s) x
     (conn s) (mcb s) (mch s) (mailbox s) (sc s).
Definition set_conn (c : bool) (s : t) : t :=
  mk (sid s) (Subject s) (Queue s) (msgs s) (delivered s) (bytes s) (max s)
     c (mcb s) (mch s) (mailbox s) (sc s).
Definition set_mch (p : bool) (s : t) : t :=
  mk (sid s) (Subject s) (Queue s) (msgs s) (delivered s) (bytes s) (max s)
     (conn s) (mcb s) p (mailbox s) (sc s).
Definition set_mailbox (c : Chan.t) (s : t) : t :=
  mk (sid s) (Subject s) (Queue s) (msgs s) (delivered s) (bytes s) (max s)
     (conn s) (mcb s) (mch s) c (sc s).
Definition set_sc (b : bool) (s : t) : t :=
  mk (sid s) (Subject s) (Queue s) (msgs s) (delivered s) (bytes s) (max s)
     (conn s) (mcb s) (mch s) (mailbox s) b.

(** [close(s.mch); s.mch = nil] *)
Definition close_mch (s : t) : t :=
  if mch s then set_mch false (set_mailbox (Chan.close (mailbox s)) s) else s.
End Subscription.

(** ** Options and server information *)

Module Options.
(** The four callbacks are recorded by whether they are set. *)
Record t : Type := mk {
  Verbose : bool;
  Pedantic : bool;
  Secure : bool;
  AllowReconnect : bool;
  MaxReconnect : Z;
  ClosedCB : bool;
  DisconnectedCB : bool;
  ReconnectedCB : bool;
  AsyncErrorCB : bool
}.
Definition Default : t := mk false false false true DefaultMaxReconnect false false false false.
End Options.

Module serverInfo.
Record t : Type := mk {
  Id : string;
  Host : string;
  Port : Z;
  Version : string;
  AuthRequired : bool;
  SslRequired : bool;
  MaxPayload : Z
}.
End serverInfo.

(** ** The socket and the buffered writer *)

(** The socket: the bytes the server has been sent, and whether writes
    still succeed (they fail once the socket is closed or broken). *)
Module NetConn.
Record t : Type := mk {
  wire : bytes;
  up : bool
}.
Definition Close (c : t) : t := mk (wire c) false.
End NetConn.

(** What a [bufio.Writer] writes to: the socket of the connection or the
    pending buffer installed by [processReconnect]. *)
Inductive Dest : Type := ToConn | ToPending.

Module Writer.
Record t : Type := mk {
  wr : Dest;
  size : Z;
  buf : bytes;
  err : option error
}.
(** [bufio.NewWriterSize(w, size)] *)
Definition NewWriterSize (d : Dest) (n : Z) : t := mk d n [] None.
Definition Buffered (w : t) : Z := len (buf w).
Definition Available (w : t) : Z := size w - len (buf w).
Definition set_buf (b : bytes) (w : t) : t := mk (wr w) (size w) b (err w).
Definition set_err (e : option error) (w : t) : t := mk (wr w) (size w) (buf w) e.
End Writer.

(** ** Observable effects *)

Inductive Event : Type :=
| EvDisconnectedCB
| EvReconnectedCB
| EvClosedCB
| EvAsyncErrorCB (sid : Z) (e : error)      (* go AsyncErrorCB(nc, s, err) *)
| EvMsgCB (sid : Z) (m : Msg.t)             (* s.mcb(m) *)
| EvPongSignal (ch : nat)                   (* ch <- true on a flush waiter *)
| EvDoReconnect.                            (* go nc.doReconnect() *)

(** ** The connection *)

Record Conn : Type := mkConn {
  InMsgs : Z;
  OutMsgs : Z;
  InBytes : Z;
  OutBytes : Z;
  Reconnects : Z;
  Opts : Options.t;
  conn : option NetConn.t;
  bw : option Writer.t;
  pending : option bytes;
  fch : Z;                          (* number of signals queued on nc.fch *)
  info : serverInfo.t;
  ssid : Z;
  subs : gset Z;                    (* keys of nc.subs; nil is the empty map *)
  objs : gmap Z Subscription.t;     (* the Subscription objects, by sid *)
  pongs : list (option nat);        (* nc.pongs; a voided entry is None *)
  status : Status;
  err : option error;
  trace : list Event;
  chseq : nat                       (* the next fresh flush channel *)
}.

Definition set_InStats (m b : Z) (nc : Conn) : Conn :=
  mkConn m (OutMsgs nc) b (OutBytes nc) (Reconnects nc) (Opts nc) (conn nc) (bw nc)
    (pending nc) (fch nc) (info nc) (ssid nc) (subs nc) (objs nc) (pongs nc)
    (status nc) (err nc) (trace nc) (chseq nc).
Definition set_OutStats (m b : Z) (nc : Conn) : Conn :=
  mkConn (InMsgs nc) m (InBytes nc) b (Reconnects nc) (Opts nc) (conn nc) (bw nc)
    (pending nc) (fch nc) (info nc) (ssid nc) (subs nc) (objs nc) (pongs nc)
    (status nc) (err nc) (trace nc) (chseq nc).
Definition set_Reconnects (r : Z) (nc : Conn) : Conn :=
  mkConn (InMsgs nc) (OutMsgs nc) (InBytes nc) (OutBytes nc) r (Opts nc) (conn nc) (bw nc)
    (pending nc) (fch nc) (info nc) (ssid nc) (subs nc) (objs nc) (pongs nc)
    (status nc) (err nc) (trace nc) (chseq nc).
Definition set_conn (c : option NetConn.t) (nc : Conn) : Conn :=
  mkConn (InMsgs nc) (OutMsgs nc) (InBytes nc) (OutBytes nc) (Reconnects nc) (Opts nc) c (bw nc)
    (pending nc) (fch nc) (info nc) (ssid nc) (subs nc) (objs nc) (pongs nc)
    (status nc) (err nc) (trace nc) (chseq nc).
Definition set_bw (w : option Writer.t) (nc : Conn) : Conn :=
  mkConn (InMsgs nc) (OutMsgs nc) (InBytes nc) (OutBytes nc) (Reconnects nc) (Opts nc) (conn nc) w
    (pending nc) (fch nc) (info nc) (ssid nc) (subs nc) (objs nc) (pongs nc)
    (status nc) (err nc) (trace nc) (chseq nc).
Definition set_pending (p : option bytes) (nc : Conn) : Conn :=
  mkConn (InMsgs nc) (OutMsgs nc) (InBytes nc) (OutBytes nc) (Reconnects nc) (Opts nc) (conn nc) (bw nc)
    p (fch nc) (info nc) (ssid nc) (subs nc) (objs nc) (pongs nc)
    (status nc) (err nc) (trace nc) (chseq nc).
Definition set_fch (n : Z) (nc : Conn) : Conn :=
  mkConn (InMsgs nc) (OutMsgs nc) (InBytes nc) (OutBytes nc) (Reconnects nc) (Opts nc) (conn nc) (bw nc)
    (pending nc) n (info nc) (ssid nc) (subs nc) (objs nc) (pongs nc)
    (status nc) (err nc) (trace nc) (chseq nc).
Definition set_info (i : serverInfo.t) (nc : Conn) : Conn :=
  mkConn (InMsgs nc) (OutMsgs nc) (InBytes nc) (OutBytes nc) (Reconnects nc) (Opts nc) (conn nc) (bw nc)
    (pending nc) (fch nc) i (ssid nc) (subs nc) (objs nc) (pongs nc)
    (status nc) (err nc) (trace nc) (chseq nc).
Definition set_ssid (n : Z) (nc : Conn) : Conn :=
  mkConn (InMsgs nc) (OutMsgs nc) (InBytes nc) (OutBytes nc) (Reconnects nc) (Opts nc) (conn nc) (bw nc)
    (pending nc) (fch nc) (info nc) n (subs nc) (objs nc) (pongs nc)
    (status nc) (err nc) (trace nc) (chseq nc).
Definition set_subs (r : gset Z) (nc : Conn) : Conn :=
  mkConn (InMsgs nc) (OutMsgs nc) (InBytes nc) (OutBytes nc) (Reconnects nc) (Opts nc) (conn nc) (bw nc)
    (pending nc) (fch nc) (info nc) (ssid nc) r (objs nc) (pongs nc)
    (status nc) (err nc) (trace nc) (chseq nc).
Definition set_objs (o : gmap Z Subscription.t) (nc : Conn) : Conn :=
  mkConn (InMsgs nc) (OutMsgs nc) (InBytes nc) (OutBytes nc) (Reconnects nc) (Opts nc) (conn nc) (bw nc)
    (pending nc) (fch nc) (info nc) (ssid nc) (subs nc) o (pongs nc)
    (status nc) (err nc) (trace nc) (chseq nc).
Definition set_pongs (p : list (option nat)) (nc : Conn) : Conn :=
  mkConn (InMsgs nc) (OutMsgs nc) (InBytes nc) (OutBytes nc) (Reconnects nc) (Opts nc) (conn nc) (bw nc)
    (pending nc) (fch nc) (info nc) (ssid nc) (subs nc) (objs nc) p
    (status nc) (err nc) (trace nc) (chseq nc).
Definition set_status (s : Status) (nc : Conn) : Conn :=
  mkConn (InMsgs nc) (OutMsgs nc) (InBytes nc) (OutBytes nc) (Reconnects nc) (Opts nc) (conn nc) (bw nc)
    (pending nc) (fch nc) (info nc) (ssid nc) (subs nc) (objs nc) (pongs nc)
    s (err nc) (trace nc) (chseq nc).
Definition set_err (e : option error) (nc : Conn) : Conn :=
  mkConn (InMsgs nc) (OutMsgs nc) (InBytes nc) (OutBytes nc) (Reconnects nc) (Opts nc) (conn nc) (bw nc)
    (pending nc) (fch nc) (info nc) (ssid nc) (subs nc) (objs nc) (pongs nc)
    (status nc) e (trace nc) (chseq nc).
Definition emit (ev : Event) (nc : Conn) : Conn :=
  mkConn (InMsgs nc) (OutMsgs nc) (InBytes nc) (OutBytes nc) (Reconnects nc) (Opts nc) (conn nc) (bw nc)
    (pending nc) (fch nc) (info nc) (ssid nc) (subs nc) (objs nc) (pongs nc)
    (status nc) (err nc) (trace nc ++ [ev]) (chseq nc).
Definition set_chseq (n : nat) (nc : Conn) : Conn :=
  mkConn (InMsgs nc) (OutMsgs nc) (InBytes nc) (OutBytes nc) (Reconnects nc) (Opts nc) (conn nc) (bw nc)
    (pending nc) (fch nc) (info nc) (ssid nc) (subs nc) (objs nc) (pongs nc)
    (status nc) (err nc) (trace nc) n.

Definition isClosed (nc : Conn) : bool := Status_eqb (status nc) CLOSED.
Definition isReconnecting (nc : Conn) : bool := Status_eqb (status nc) RECONNECTING.

(** [nc.subs[sid]]: nil when the key is absent. *)
Definition subs_lookup (sid : Z) (nc : Conn) : option Subscription.t :=
  if decide (sid ∈ subs nc) then objs nc !! sid else None.

(** ** The buffered writer ([bufio.Writer] of the Go library)

    The writer of the connection is [nc.bw]; what it flushes goes to the
    socket or to the pending buffer, both fields of the connection, so its
    methods are functions on [Conn].  Calling a method on a nil writer
    panics. *)

(** [b.wr.Write(p)]: a [bytes.Buffer] takes everything; the socket takes
    everything while it is up and fails otherwise. *)
Definition wr_Write (d : Dest) (p : bytes) (nc : Conn) : Conn * option error :=
  match d with
  | ToPending =>
      match pending nc with
      | Some b => (set_pending (Some (b ++ p)) nc, None)
      | None => (nc, None)
      end
  | ToConn =>
      match conn nc with
      | Some c =>
          if NetConn.up c
          then (set_conn (Some (NetConn.mk (NetConn.wire c ++ p) true)) nc, None)
          else (nc, Some ErrIO)
      | None => (nc, Some ErrIO)
      end
  end.

(** [b.Flush()] on the writer [w], which is stored back into [nc.bw]. *)
Definition Flush_w (w : Writer.t) (nc : Conn) : Conn * option error :=
  match Writer.err w with
  | Some e => (set_bw (Some w) nc, Some e)
  | None =>
      if Writer.Buffered w =? 0 then (set_bw (Some w) nc, None)
      else
        let '(nc1, e) := wr_Write (Writer.wr w) (Writer.buf w) nc in
        match e with
        | Some e => (set_bw (Some (Writer.set_err (Some e) w)) nc1, Some e)
        | None => (set_bw (Some (Writer.set_buf [] w)) nc1, None)
        end
  end.

Definition Flush (nc : Conn) : result (Conn * option error) :=
  match bw nc with
  | None => Panic "nil bufio.Writer"
  | Some w => Ok (Flush_w w nc)
  end.

(** The final copy into the buffer, when [p] fits. *)
Definition Write_copy (p : bytes) (w : Writer.t) (nc : Conn) : Conn * option error :=
  (set_bw (Some (Writer.set_buf (Writer.buf w ++ p) w)) nc, None).

(** A large write on an empty buffer goes to the destination directly. *)
Definition Write_direct (p : bytes) (w : Writer.t) (nc : Conn) : Conn * option error :=
  let '(nc1, e) := wr_Write (Writer.wr w) p nc in
  (set_bw (Some (Writer.set_err e w)) nc1, e).

(** [b.Write(p)].  The loop of the library runs at most twice: when [p] does
    not fit, either the buffer is empty and [p] is written directly, or the
    buffer is filled and flushed, and what is left of [p] is then copied or
    written directly. *)
Definition Write_w (p : bytes) (w : Writer.t) (nc : Conn) : Conn * option error :=
  match Writer.err w with
  | Some e => (nc, Some e)
  | None =>
      if len p <=? Writer.Available w then Write_copy p w nc
      else if Writer.Buffered w =? 0 then Write_direct p w nc
      else
        let n := Z.to_nat (Writer.Available w) in
        let '(nc1, e) := Flush_w (Writer.set_buf (Writer.buf w ++ take n p) w) nc in
        match e with
        | Some e => (nc1, Some e)
        | None =>
            let w1 := Writer.set_buf [] w in
            let p1 := drop n p in
            if len p1 <=? Writer.Available w1 then Write_copy p1 w1 nc1
            else Write_direct p1 w1 nc1
        end
  end.

Definition Write (p : bytes) (nc : Conn) : result (Conn * option error) :=
  match bw nc with
  | None => Panic "nil bufio.Writer"
  | Some w => Ok (Write_w p w nc)
  end.

(** [b.WriteString(s)] copies what fits and flushes whenever the buffer is
    full and bytes remain; byte by byte: flush if there is no room, then
    append.  It stops at the first error. *)
Fixpoint WriteString_w (s : bytes) (w : Writer.t) (nc : Conn) : Conn * option error :=
  match s with
  | [] => (set_bw (Some w) nc, Writer.err w)
  | c :: s' =>
      match Writer.err w with
      | Some e => (set_bw (Some w) nc, Some e)
      | None =>
          if 0 <? Writer.Available w
          then WriteString_w s' (Writer.set_buf (Writer.buf w ++ [c]) w) nc
          else
            let '(nc1, e) := Flush_w w nc in
            match e with
            | Some e => (nc1, Some e)
            | None => WriteString_w s' (Writer.set_buf [c] w) nc1
            end
      end
  end.

Definition WriteString (s : string) (nc : Conn) : result (Conn * option error) :=
  match bw nc with
  | None => Panic "nil bufio.Writer"
  | Some w => Ok (WriteString_w (list_byte_of_string s) w nc)
  end.

(** ** Writing protocol *)

(** [kickFlusher]: a non-blocking signal to the flusher. *)
Definition kickFlusher (nc : Conn) : Conn :=
  if (fch nc =? 0) && (if bw nc is Some _ then true else false)
  then set_fch (fch nc + 1) nc
  else nc.

(** [publish]: the body runs under the lock; the deferred [kickFlusher] runs
    on every return path. *)
Definition publish (subj reply : string) (data : bytes) (nc : Conn)
  : result (Conn * option error) :=
  if isClosed nc then Ok (kickFlusher nc, Some ErrConnectionClosed)
  else
    let* (nc1, _) := Write (list_byte_of_string (pubProto subj reply (len data))) nc in
    let* (nc2, _) := Write data nc1 in
    let* (nc3, e) := WriteString _CRLF_ nc2 in
    let nc4 := set_err e nc3 in
    match e with
    | Some e => Ok (kickFlusher nc4, Some e)
    | None =>
        let nc5 := set_OutStats (U64.add (OutMsgs nc4) 1)
                                (U64.add (OutBytes nc4) (U64.wrap (len data))) nc4 in
        Ok (kickFlusher nc5, None)
    end.

Definition Publish (subj : string) (data : bytes) (nc : Conn) :=
  publish subj _EMPTY_ data nc.

(** ** The PONG-waiter queue and the flush barrier *)

(** [processPong]: [nc.pongs[0]] is read without a length check. *)
Definition processPong (nc : Conn) : result Conn :=
  match pongs nc with
  | [] => Panic "index out of range"
  | ch :: rest =>
      let nc1 := set_pongs rest nc in
      Ok (match ch with
          | Some c => emit (EvPongSignal c) nc1
          | None => nc1
          end)
  end.

(** The loop of [removeFlushEntry]: the first entry equal to [ch] is set
    to nil. *)
Fixpoint void_entry (ch : nat) (l : list (option nat)) : list (option nat) * bool :=
  match l with
  | [] => ([], false)
  | c :: l' =>
      if decide (c = Some ch) then (None :: l', true)
      else let '(r, b) := void_entry ch l' in (c :: r, b)
  end.

Definition removeFlushEntry (ch : nat) (nc : Conn) : Conn * bool :=
  let '(l, b) := void_entry ch (pongs nc) in (set_pongs l nc, b).

(** [FlushTimeout] up to the point where it waits on its channel: the
    result is an error of the two guards, or the channel that was queued. *)
Definition FlushTimeout_begin (timeout : Z) (nc : Conn) : result (Conn * (error + nat)) :=
  if timeout <=? 0 then Ok (nc, inl ErrBadTimeout)
  else if isClosed nc then Ok (nc, inl ErrConnectionClosed)
  else
    let ch := chseq nc in
    let nc1 := set_pongs (pongs nc ++ [Some ch]) (set_chseq (S ch) nc) in
    let* (nc2, _) := WriteString pingProto nc1 in
    let* (nc3, _) := Flush nc2 in
    Ok (nc3, inr ch).

(** Which case of the [select] of [FlushTimeout] fired. *)
Inductive FlushSelect : Type := FlushSignalled | FlushChanClosed | FlushTimerFired.

(** [FlushTimeout] from the [select] on. *)
Definition FlushTimeout_end (ch : nat) (sel : FlushSelect) (nc : Conn) : Conn * option error :=
  let e := match sel with
           | FlushSignalled => err nc
           | FlushChanClosed => Some ErrConnectionClosed
           | FlushTimerFired => Some ErrTimeout
           end in
  match e with
  | Some _ => (fst (removeFlushEntry ch nc), e)
  | None => (nc, None)
  end.

(** [clearPendingFlushCalls]: every waiter that was not voided is signalled,
    in queue order, and the queue becomes nil. *)
Definition clearPendingFlushCalls (nc : Conn) : Conn :=
  set_pongs []
    (fold_left (fun n c => match c with Some ch => emit (EvPongSignal ch) n | None => n end)
               (pongs nc) nc).

(** ** Subscriptions *)

(** Writing through the pointer [p] to a subscription object. *)
Definition store (p : Z) (s : Subscription.t) (nc : Conn) : Conn :=
  set_objs (<[p := s]> (objs nc)) nc.

(** The values of [nc.subs], in the order the model ranges over the map (Go
    fixes no order). *)
Definition subs_values (nc : Conn) : list Subscription.t :=
  omap (fun sid => objs nc !! sid) (elements (subs nc)).

(** [nc.bw.WriteString(s)] for each [s], results ignored. *)
Fixpoint WriteStrings (l : list string) (nc : Conn) : result Conn :=
  match l with
  | [] => Ok nc
  | s :: l' => let* (nc1, _) := WriteString s nc in WriteStrings l' nc1
  end.

(** What [resendSubscriptions] writes for one subscription. *)
Definition resend_writes (s : Subscription.t) : list string :=
  subProto (Subscription.Subject s) (Subscription.Queue s) (Subscription.sid s) ::
  (if 0 <? Subscription.max s
   then [unsubProto (Subscription.sid s) (Itoa (U64.to_int (Subscription.max s)))]
   else []).

Definition resendSubscriptions_writes (nc : Conn) : list string :=
  flat_map resend_writes (subs_values nc).

Definition resendSubscriptions (nc : Conn) : result Conn :=
  WriteStrings (resendSubscriptions_writes nc) nc.

(** [subscribe]; [cb] tells whether a callback is given.  The [queue] name is
    sent but, as in the source, not kept in the object. *)
Definition subscribe (subj queue : string) (cb : bool) (nc : Conn)
  : result (Conn * (error + Z)) :=
  if isClosed nc then Ok (kickFlusher nc, inl ErrConnectionClosed)
  else
    let sid := U64.add (ssid nc) 1 in
    let sub := Subscription.mk sid subj _EMPTY_ 0 0 0 0 true cb true Chan.make false in
    let nc1 := set_subs ({[sid]} ∪ subs nc) (store sid sub (set_ssid sid nc)) in
    if isReconnecting nc1 then Ok (kickFlusher nc1, inr sid)
    else
      let* (nc2, _) := WriteString (subProto subj queue sid) nc1 in
      Ok (kickFlusher nc2, inr sid).

(** [unsubscribe(sub, max)], where [sub] is the pointer [p]; [s] is the
    object the registry holds under [sub.sid]. *)
Definition unsubscribe (p : Z) (max : Z) (nc : Conn) : result (Conn * option error) :=
  if isClosed nc then Ok (kickFlusher nc, Some ErrConnectionClosed)
  else
    match objs nc !! p with
    | None => Panic "nil Subscription"
    | Some sub =>
        let k := Subscription.sid sub in
        match subs_lookup k nc with
        | None => Ok (kickFlusher nc, None)
        | Some s =>
            let maxStr := if 0 <? max then Itoa max else _EMPTY_ in
            let nc1 :=
              if 0 <? max then store k (Subscription.set_max (U64.wrap max) s) nc
              else
                set_subs (subs nc ∖ {[Subscription.sid s]})
                  (store k (Subscription.set_conn false (Subscription.close_mch s)) nc) in
            if isReconnecting nc1 then Ok (kickFlusher nc1, None)
            else
              let* (nc2, _) := WriteString (unsubProto (Subscription.sid s) maxStr) nc1 in
              Ok (kickFlusher nc2, None)
        end
    end.

(** [s.Unsubscribe()] and [s.AutoUnsubscribe(max)], where [s] is the
    pointer [p]. *)
Definition Unsubscribe (p : Z) (nc : Conn) : result (Conn * option error) :=
  match objs nc !! p with
  | None => Panic "nil Subscription"
  | Some s =>
      if Subscription.conn s then unsubscribe p 0 nc
      else Ok (nc, Some ErrBadSubscription)
  end.

Definition AutoUnsubscribe (p : Z) (max : Z) (nc : Conn) : result (Conn * option error) :=
  match objs nc !! p with
  | None => Panic "nil Subscription"
  | Some s =>
      if Subscription.conn s then unsubscribe p max nc
      else Ok (nc, Some ErrBadSubscription)
  end.

(** ** Close *)

(** The loop of [Close] over the registry: every mailbox is closed and its
    pointer set to nil. *)
Definition close_subs (nc : Conn) : Conn :=
  set_subs ∅
    (set_objs (foldr (fun sid o => alter Subscription.close_mch sid o)
                     (objs nc) (elements (subs nc))) nc).

Definition Close (nc : Conn) : result Conn :=
  if isClosed nc then Ok nc
  else
    let nc1 := set_status CLOSED nc in
    let nc2 := kickFlusher nc1 in
    let nc3 := clearPendingFlushCalls nc2 in
    let nc4 := close_subs nc3 in
    let nc5 := if (if conn nc4 is Some _ then true else false)
                  && Options.DisconnectedCB (Opts nc4)
               then emit EvDisconnectedCB nc4 else nc4 in
    let nc6 := set_status CLOSED nc5 in
    let* nc7 :=
      match conn nc6 with
      | None => Ok nc6
      | Some _ =>
          let* (n, _) := Flush nc6 in
          Ok (set_conn (option_map NetConn.Close (conn n)) n)
      end in
    Ok (if Options.ClosedCB (Opts nc7) then emit EvClosedCB nc7 else nc7).

(** ** Disconnect and reconnect *)

Definition processDisconnect (nc : Conn) : Conn :=
  let nc1 := set_status DISCONNECTED nc in
  match err nc1 with
  | Some _ => nc1
  | None =>
      if serverInfo.SslRequired (info nc1)
      then set_err (Some ErrSecureConnRequired) nc1
      else set_err (Some ErrConnectionClosed) nc1
  end.

(** [processReconnect]: the pending buffer and a writer of
    [defaultPendingSize] bytes over it are installed, and [doReconnect] is
    started. *)
Definition processReconnect (nc : Conn) : result Conn :=
  let* nc' :=
    if isClosed nc then Ok nc
    else
      let nc1 := set_status RECONNECTING nc in
      let* nc2 :=
        match conn nc1 with
        | None => Ok nc1
        | Some _ =>
            let* (n, _) := Flush nc1 in
            Ok (set_conn (option_map NetConn.Close (conn n)) n)
        end in
      let nc3 := kickFlusher (set_conn None nc2) in
      let nc4 := set_bw (Some (Writer.NewWriterSize ToPending defaultPendingSize))
                        (set_pending (Some []) nc3) in
      Ok (emit EvDoReconnect nc4) in
  Ok (if Options.DisconnectedCB (Opts nc') then emit EvDisconnectedCB nc' else nc').

Definition flushReconnectPendingItems (nc : Conn) : result Conn :=
  match pending nc with
  | None => Ok nc
  | Some b =>
      let* nc1 := if 0 <? len b then (let* (n, _) := Write b nc in Ok n) else Ok nc in
      Ok (set_pending None nc1)
  end.

(** The outcome of [net.DialTimeout]. *)
Inductive Dial : Type :=
| DialErr (e : error)
| DialOk (c : NetConn.t).

(** [createConn], given the outcome of the dial. *)
Definition createConn (d : Dial) (nc : Conn) : result (Conn * option error) :=
  match d with
  | DialErr e => Ok (set_err (Some e) (set_conn None nc), Some e)
  | DialOk c =>
      let nc1 := set_err None (set_conn (Some c) nc) in
      let* nc2 :=
        match pending nc1, bw nc1 with
        | Some _, Some _ => let* (n, _) := Flush nc1 in Ok n
        | _, _ => Ok nc1
        end in
      Ok (set_bw (Some (Writer.NewWriterSize ToConn defaultBufSize)) nc2, None)
  end.

Definition processReadOpErr (e : error) (nc : Conn) : result Conn :=
  if isClosed nc || isReconnecting nc then Ok nc
  else if Options.AllowReconnect (Opts nc) then processReconnect nc
  else Close (set_err (Some e) (processDisconnect nc)).

Definition checkForSecure (nc : Conn) : Conn * option error :=
  let o := Opts nc in
  if Options.Secure o && negb (serverInfo.SslRequired (info nc))
  then (nc, Some ErrSecureConnWanted)
  else if serverInfo.SslRequired (info nc) && negb (Options.Secure o)
  then (nc, Some ErrSecureConnRequired)
  else if Options.Secure o
  then (set_bw (Some (Writer.NewWriterSize ToConn defaultBufSize)) nc, None)
  else (nc, None).

(** The first control line read after a dial: a read error, a line that is
    not INFO, an INFO line without arguments, or an INFO line whose JSON
    decodes to [i] with the result [e] of [json.Unmarshal]. *)
Inductive InfoLine : Type :=
| InfoReadErr (e : error)
| InfoNotInfo
| InfoEmpty
| InfoArgs (i : serverInfo.t) (e : option error).

Definition ErrNoInfo : error := ErrNew "nats: Protocol exception, INFO not received".

Definition processExpectedInfo (l : InfoLine) (nc : Conn) : result (Conn * option error) :=
  match l with
  | InfoReadErr e => let* n := processReadOpErr e nc in Ok (n, Some e)
  | InfoNotInfo => let* n := processReadOpErr ErrNoInfo nc in Ok (n, Some ErrNoInfo)
  | InfoEmpty => Ok (checkForSecure nc)
  | InfoArgs i e => Ok (checkForSecure (set_err e (set_info i nc)))
  end.

(** What the network answers to one reconnect attempt. *)
Record Attempt : Type := mkAttempt {
  dial : Dial;
  line : InfoLine
}.

(** The loop of [doReconnect]: [i] is the loop counter and [n] the number of
    iterations left; [env i] is the outcome of attempt [i]; [cProto] is the
    CONNECT line made by [connectProto].  The third component of the result
    tells whether an attempt dialled successfully, in which case the source
    goes on with [nc.Flush()] and the reconnected callback
    ([doReconnect_end]). *)
Fixpoint doReconnect_loop (cProto : string) (env : nat -> Attempt) (i n : nat) (nc : Conn)
  : result (Conn * bool) :=
  match n with
  | O => Ok (nc, false)
  | S n' =>
      if isClosed nc then Ok (nc, false)
      else
        let* (nc1, e) := createConn (dial (env i)) nc in
        let nc2 := set_err None nc1 in
        match e with
        | Some _ => doReconnect_loop cProto env (S i) n' nc2
        | None =>
            let nc3 := set_Reconnects (U64.add (Reconnects nc2) 1) nc2 in
            let* (nc4, e') := processExpectedInfo (line (env i)) nc3 in
            let nc5 := set_err e' nc4 in
            let* nc6 :=
              match e' with
              | Some _ => Ok nc5
              | None =>
                  let* (n1, _) := WriteString cProto (set_status CONNECTED nc5) in
                  let* n2 := resendSubscriptions n1 in
                  flushReconnectPendingItems n2
              end in
            Ok (nc6, true)
        end
  end.

Definition doReconnect (cProto : string) (env : nat -> Attempt) (nc : Conn)
  : result (Conn * bool) :=
  doReconnect_loop cProto env 0
    (Z.to_nat (U64.to_int (Options.MaxReconnect (Opts nc)))) nc.

(** After a successful dial: [nc.Flush()] returned with [flushed], then the
    reconnected callback. *)
Definition doReconnect_end (nc : Conn) : Conn :=
  if Options.ReconnectedCB (Opts nc) then emit EvReconnectedCB nc else nc.

(** ** Inbound messages *)

(** What [processMsg] gets from the parser and the reader: arguments that do
    not parse, a payload that cannot be read in full, or a frame with its
    payload [buf] (whose length is the declared length). *)
Inductive MsgFrame : Type :=
| BadArgs
| ShortRead (e : option error)
| Frame (subj reply : string) (sid : Z) (buf : bytes).

(** [processSlowConsumer(s)], where [s] is the pointer [p] to the object
    [s]. *)
Definition processSlowConsumer (p : Z) (s : Subscription.t) (nc : Conn) : Conn :=
  let nc1 := set_err (Some ErrSlowConsumer) (store p (Subscription.set_sc true s) nc) in
  if Options.AsyncErrorCB (Opts nc1)
  then emit (EvAsyncErrorCB p ErrSlowConsumer) nc1
  else nc1.

Definition processMsg (f : MsgFrame) (nc : Conn) : result Conn :=
  match f with
  | BadArgs => Close (set_err (Some ErrParseMsg) nc)
  | ShortRead e => Close (set_err e nc)
  | Frame subj reply sid buf =>
      let nc1 := set_InStats (U64.add (InMsgs nc) 1)
                             (U64.add (InBytes nc) (U64.wrap (len buf))) nc in
      match subs_lookup sid nc1 with
      | None => Ok nc1
      | Some sub =>
          if (0 <? Subscription.max sub) && (Subscription.max sub <? Subscription.msgs sub)
          then Ok nc1
          else
            let sub1 := Subscription.set_counters
                          (U64.add (Subscription.msgs sub) 1)
                          (U64.add (Subscription.bytes sub) (U64.wrap (len buf))) sub in
            let m := Msg.mk subj reply buf sid in
            if Subscription.mch sub1 then
              if maxChanLen <=? Z.of_nat (length (Chan.buf (Subscription.mailbox sub1)))
              then Ok (processSlowConsumer sid sub1 nc1)
              else if Chan.closed (Subscription.mailbox sub1)
              then Panic "send on closed channel"
              else Ok (store sid (Subscription.set_mailbox
                                    (Chan.send m (Subscription.mailbox sub1))
                                    (Subscription.set_sc false sub1)) nc1)
            else Ok (store sid sub1 nc1)
      end
  end.

(** ** Delivery *)

Inductive Loop : Type := Continue | Break | Blocked.

(** One turn of the loop of [deliverMsgs(ch)], where [ch] is the mailbox of
    the subscription object [owner]. *)
Definition deliverMsgs_iter (owner : Z) (nc : Conn) : result (Conn * Loop) :=
  if isClosed nc then Ok (nc, Break)
  else
    match objs nc !! owner with
    | None => Panic "nil channel owner"
    | Some o =>
        match Chan.buf (Subscription.mailbox o) with
        | [] => Ok (nc, if Chan.closed (Subscription.mailbox o) then Break else Blocked)
        | m :: rest =>
            let nc1 := store owner (Subscription.set_mailbox
                                (Chan.mk rest (Chan.closed (Subscription.mailbox o))) o) nc in
            match objs nc1 !! Msg.Sub m with
            | None => Panic "nil Subscription"
            | Some s =>
                if negb (Subscription.conn s) || negb (Subscription.mcb s)
                then Ok (nc1, Continue)
                else
                  let d := U64.add (Subscription.delivered s) 1 in
                  let nc2 := store (Msg.Sub m) (Subscription.set_delivered d s) nc1 in
                  if (Subscription.max s <=? 0) || (d <=? Subscription.max s)
                  then Ok (emit (EvMsgCB (Msg.Sub m) m) nc2, Continue)
                  else Ok (nc2, Continue)
            end
        end
    end.

(** [NextMsg] on a subscription object.  [expired] tells that the timer is
    the case of the [select] that fires; on an open and empty mailbox only the
    timer can fire. *)
Definition NextMsg (expired : bool) (s : Subscription.t)
  : Subscription.t * (error + Msg.t) :=
  if negb (Subscription.mch s) then (s, inl ErrConnectionClosed)
  else if Subscription.mcb s then (s, inl ErrIllegalAsync)
  else if negb (Subscription.conn s) then (s, inl ErrBadSubscription)
  else if Subscription.sc s then (Subscription.set_sc false s, inl ErrSlowConsumer)
  else
    let mch := Subscription.mailbox s in
    match Chan.buf mch with
    | [] =>
        if Chan.closed mch && negb expired then (s, inl ErrConnectionClosed)
        else (s, inl ErrTimeout)
    | m :: rest =>
        if expired then (s, inl ErrTimeout)
        else
          let d := U64.add (Subscription.delivered s) 1 in
          let s1 := Subscription.set_delivered d
                      (Subscription.set_mailbox (Chan.mk rest (Chan.closed mch)) s) in
          if (0 <? Subscription.max s1) && (Subscription.max s1 <? d)
          then (s1, inl ErrMaxMessages)
          else (s1, inr m)
    end.

(** [s.NextMsg(timeout)] through the pointer [sid] into the store. *)
Definition Conn_NextMsg (expired : bool) (sid : Z) (nc : Conn)
  : result (Conn * (error + Msg.t)) :=
  match objs nc !! sid with
  | None => Panic "nil Subscription"
  | Some s => let '(s1, r) := NextMsg expired s in Ok (store sid s1 nc, r)
  end.

(** * Properties *)

(** ** The buffered writer *)

(** What the destination of a writer holds, when it accepts writes. *)
Definition sink (d : Dest) (nc : Conn) : option bytes :=
  match d with
  | ToPending => pending nc
  | ToConn =>
      match conn nc with
      | Some c => if NetConn.up c then Some (NetConn.wire c) else None
      | None => None
      end
  end.

(** The writer of the connection is in working order: no sticky error, a
    buffer within its size, a destination that accepts writes. *)
Definition writable (nc : Conn) : Prop :=
  match bw nc with
  | Some w =>
      Writer.err w = None /\ 0 < Writer.size w /\ len (Writer.buf w) <= Writer.size w /\
      is_Some (sink (Writer.wr w) nc)
  | None => False
  end.

(** Everything written so far and not lost: what reached the destination,
    then what is still buffered. *)
Definition outbound (nc : Conn) : bytes :=
  match bw nc with
  | Some w => default [] (sink (Writer.wr w) nc) ++ Writer.buf w
  | None => []
  end.

(** The connection without its writer and destinations. *)
Definition core (nc : Conn) : Conn :=
  set_conn None (set_bw None (set_pending None nc)).

(** The state of a working writer, spelled out. *)
Definition writer_at (nc : Conn) (w : Writer.t) (b : bytes) : Prop :=
  bw nc = Some w /\ Writer.err w = None /\ 0 < Writer.size w /\
  len (Writer.buf w) <= Writer.size w /\ sink (Writer.wr w) nc = Some b.

(** The destination and size of the writer of the connection. *)
Definition writer_kind (nc : Conn) : option (Dest * Z) :=
  option_map (fun w => (Writer.wr w, Writer.size w)) (bw nc).

(** A write on a working writer succeeds, keeps the writer working, and adds
    exactly [p] to what is outbound. *)
Definition write_ok (p : bytes) (nc nc' : Conn) : Prop :=
  writable nc' /\ outbound nc' = outbound nc ++ p /\
  core nc' = core nc /\ writer_kind nc' = writer_kind nc.


(** ** The PONG queue under a sequence of operations *)

(** What happens to the queue: a caller enters [FlushTimeout], or the reader
    processes a PONG. *)
Inductive QueueOp : Type :=
| OpFlush (timeout : Z)
| OpPong.

Fixpoint run_queue (ops : list QueueOp) (nc : Conn) : result Conn :=
  match ops with
  | [] => Ok nc
  | OpFlush t :: r => let* (nc1, _) := FlushTimeout_begin t nc in run_queue r nc1
  | OpPong :: r => let* nc1 := processPong nc in run_queue r nc1
  end.

(** The waiters a sequence of operations appends and the PONGs it holds. *)
Fixpoint appended (ops : list QueueOp) : nat :=
  match ops with
  | [] => 0
  | OpFlush t :: r => (if 0 <? t then 1 else 0) + appended r
  | OpPong :: r => appended r
  end.
Fixpoint ponged (ops : list QueueOp) : nat :=
  match ops with
  | [] => 0
  | OpFlush _ :: r => ponged r
  | OpPong :: r => S (ponged r)
  end.

(** No prefix of [ops] holds more PONGs than [n] plus the waiters it
    appends. *)
Definition pongs_covered (n : nat) (ops : list QueueOp) : Prop :=
  forall k, (ponged (take k ops) <= n + appended (take k ops))%nat.

(** ** Connections used in examples *)

Definition example_info : serverInfo.t :=
  serverInfo.mk "srv" "localhost" 4222 "0.1" false false 1048576.

(** A connection as [Connect] returns it: connected, nothing written. *)
Definition example_conn : Conn :=
  mkConn 0 0 0 0 0 Options.Default (Some (NetConn.mk [] true))
    (Some (Writer.NewWriterSize ToConn defaultBufSize)) None 0 example_info 0
    ∅ ∅ [] CONNECTED None [] 0.

(** The same, read along the sequence: [n] waiters are queued before [ops]. *)
Fixpoint enough_waiters (n : nat) (ops : list QueueOp) : Prop :=
  match ops with
  | [] => True
  | OpFlush t :: r => enough_waiters (if 0 <? t then S n else n) r
  | OpPong :: r =>
      match n with
      | O => False
      | S m => enough_waiters m r
      end
  end.

(** A synchronous subscription as [subscribe] makes it, with the given
    budget, delivered count, slow-consumer flag and mailbox. *)
Definition example_sub (max delivered : Z) (sc : bool) (box : Chan.t) : Subscription.t :=
  Subscription.mk 1 "foo" "" delivered delivered 0 max true false true box sc.

Definition example_msg : Msg.t := Msg.mk "foo" "" (list_byte_of_string "hello") 1.

(** A connection with an error handler and one synchronous subscription
    whose mailbox holds [maxChanLen] messages. *)
Definition full_sub : Subscription.t :=
  Subscription.mk 1 "foo" "" 8192 0 40960 0 true false true
    (Chan.mk (replicate (Z.to_nat maxChanLen) example_msg) false) false.

Definition slow_conn : Conn :=
  mkConn 8192 0 40960 0 0 (Options.mk false false false true DefaultMaxReconnect false false false true)
    (Some (NetConn.mk [] true))
    (Some (Writer.NewWriterSize ToConn defaultBufSize)) None 0 example_info 1
    {[1]} {[1 := full_sub]} [] CONNECTED None [] 0.



(** ** The delivery invariant *)

(** For the object behind the pointer [k]: what was delivered plus what waits
    in the mailbox was counted as enqueued, and the mailbox holds messages of
    this subscription only. *)
Definition sub_inv (k : Z) (s : Subscription.t) : Prop :=
  0 <= Subscription.delivered s /\
  Subscription.delivered s + Z.of_nat (length (Chan.buf (Subscription.mailbox s)))
    <= Subscription.msgs s /\
  Forall (fun m => Msg.Sub m = k) (Chan.buf (Subscription.mailbox s)).

(** The invariant of the store, with room for [n] more messages before a
    counter of enqueued messages would wrap around. *)
Definition conn_inv (n : Z) (nc : Conn) : Prop :=
  n < U64.modulus /\
  forall k s, objs nc !! k = Some s ->
    sub_inv k s /\ Subscription.msgs s + n < U64.modulus.

(** What moves a subscription: the calls of the application and what the
    reader and the delivery routines do. *)
Inductive DeliveryOp : Type :=
| OpSubscribe (subj queue : string) (cb : bool)
| OpAutoUnsubscribe (p : Z) (max : Z)
| OpUnsubscribe (p : Z)
| OpMsg (f : MsgFrame)
| OpDeliver (owner : Z)
| OpNext (expired : bool) (p : Z).

Definition step_delivery (op : DeliveryOp) (nc : Conn) : result Conn :=
  match op with
  | OpSubscribe subj queue cb => let* (nc1, _) := subscribe subj queue cb nc in Ok nc1
  | OpAutoUnsubscribe p max => let* (nc1, _) := AutoUnsubscribe p max nc in Ok nc1
  | OpUnsubscribe p => let* (nc1, _) := Unsubscribe p nc in Ok nc1
  | OpMsg f => processMsg f nc
  | OpDeliver o => let* (nc1, _) := deliverMsgs_iter o nc in Ok nc1
  | OpNext e p => let* (nc1, _) := Conn_NextMsg e p nc in Ok nc1
  end.

Fixpoint run_delivery (ops : list DeliveryOp) (nc : Conn) : result Conn :=
  match ops with
  | [] => Ok nc
  | op :: r => let* nc1 := step_delivery op nc in run_delivery r nc1
  end.

(** The events a list of flush waiters gives rise to when each is
    signalled. *)
Definition signals (q : list (option nat)) : list Event :=
  map EvPongSignal (omap id q).

Definition set_trace (t : list Event) (nc : Conn) : Conn :=
  mkConn (InMsgs nc) (OutMsgs nc) (InBytes nc) (OutBytes nc) (Reconnects nc) (Opts nc)
    (conn nc) (bw nc) (pending nc) (fch nc) (info nc) (ssid nc) (subs nc) (objs nc)
    (pongs nc) (status nc) (err nc) t (chseq nc).

(** Two messages arrive on a fresh synchronous subscription, the application
    then asks for an automatic unsubscribe after one message and pulls
    twice. *)
Definition late_budget_ops : list DeliveryOp :=
  [OpSubscribe "foo" "" false;
   OpMsg (Frame "foo" "" 1 (list_byte_of_string "one"));
   OpMsg (Frame "foo" "" 1 (list_byte_of_string "two"));
   OpAutoUnsubscribe 1 1;
   OpNext false 1;
   OpNext false 1].

(** ** Publishing *)

(** The bytes of one published message on the wire. *)
Definition pub_bytes (subj reply : string) (data : bytes) : bytes :=
  list_byte_of_string (pubProto subj reply (len data)) ++ data ++ list_byte_of_string _CRLF_.


(** [example_conn] after [processReconnect]. *)
Definition reconnecting_conn : Conn :=
  mkConn 0 0 0 0 0 Options.Default None
    (Some (Writer.NewWriterSize ToPending defaultPendingSize)) (Some []) 1 example_info 0
    ∅ ∅ [] RECONNECTING None [EvDoReconnect] 0.


(** ** Reconnection *)

(** A subscription to [foo] with a budget of ten messages, three of which
    arrive and are pulled. *)
Definition replay_ops : list DeliveryOp :=
  [OpSubscribe "foo" "" false;
   OpAutoUnsubscribe 1 10;
   OpMsg (Frame "foo" "" 1 (list_byte_of_string "a"));
   OpMsg (Frame "foo" "" 1 (list_byte_of_string "b"));
   OpMsg (Frame "foo" "" 1 (list_byte_of_string "c"));
   OpNext false 1;
   OpNext false 1;
   OpNext false 1].

(** The network after the disconnect: every dial succeeds and the server
    greets with an INFO line without arguments. *)
Definition network_up (i : nat) : Attempt :=
  mkAttempt (DialOk (NetConn.mk [] true)) InfoEmpty.

(** The network stays down: every dial fails. *)
Definition network_down (i : nat) : Attempt :=
  mkAttempt (DialErr ErrIO) InfoEmpty.

Definition example_cProto : string := "CONNECT {}" +:+ _CRLF_.

(** A reconnecting connection with a closed callback, one flush waiter and
    one subscription with an open mailbox. *)
Definition stuck_conn : Conn :=
  mkConn 0 0 0 0 0 (Options.mk false false false true DefaultMaxReconnect true false false false)
    None (Some (Writer.NewWriterSize ToPending defaultPendingSize)) (Some []) 1 example_info 1
    {[1]} {[1 := example_sub 0 0 false Chan.make]} [Some 0%nat] RECONNECTING None
    [EvDoReconnect] 1.

(** The bytes of a sequence of protocol lines. *)
Definition lines_bytes (l : list string) : bytes :=
  concat (map list_byte_of_string l).

(** The subscription and the connection that [replay_ops] and
    [processReconnect] lead to, starting from [example_conn]. *)
Definition replay_sub : Subscription.t :=
  Subscription.mk 1 "foo" "" 3 3 3 10 true false true Chan.make false.

Definition replay_conn : Conn :=
  mkConn 3 0 3 0 0 Options.Default None
    (Some (Writer.NewWriterSize ToPending defaultPendingSize)) (Some []) 1 example_info 1
    {[1]} {[1 := replay_sub]} [] RECONNECTING None [EvDoReconnect] 0.

(** ** More of the flush barrier *)

(** The flush channels are handed out in increasing order ([make(chan bool)]
    is fresh): every queued channel was handed out before. *)
Definition pongs_fresh (nc : Conn) : Prop :=
  forall c, Some c ∈ pongs nc -> (c < chseq nc)%nat.

(** [nc.Flush()]: a flush with a timeout of sixty seconds, in nanoseconds. *)
Definition Flush_begin (nc : Conn) : result (Conn * (error + nat)) :=
  FlushTimeout_begin (60 * 1000000000) nc.

(** ** Publishing and closing in sequence *)

(** A publisher calls [publish] for each message in turn, whatever the
    calls return. *)
Fixpoint publish_all (l : list (string * string * bytes)) (nc : Conn) : result Conn :=
  match l with
  | [] => Ok nc
  | (subj, reply, data) :: l' =>
      let* (nc1, _) := publish subj reply data nc in publish_all l' nc1
  end.

(** The bytes of a sequence of published messages, and the sum of the
    lengths of their payloads. *)
Definition pub_all_bytes (l : list (string * string * bytes)) : bytes :=
  concat (map (fun m => pub_bytes (fst (fst m)) (snd (fst m)) (snd m)) l).

Definition payload_total (l : list (string * string * bytes)) : Z :=
  fold_right (fun m a => len (snd m) + a) 0 l.

(** [processErr(e)]: the error text of the server becomes the last error
    and the connection is closed. *)
Definition processErr (e : string) (nc : Conn) : result Conn :=
  Close (set_err (Some (ErrNew ("nats: " +:+ e))) nc).

(** [LastError] *)
Definition LastError (nc : Conn) : option error := err nc.

(** A connection whose options do not allow reconnecting and that has a
    closed callback. *)
Definition no_reconnect_conn : Conn :=
  mkConn 0 0 0 0 0 (Options.mk false false false false DefaultMaxReconnect true false false false)
    (Some (NetConn.mk [] true))
    (Some (Writer.NewWriterSize ToConn defaultBufSize)) None 0 example_info 0
    ∅ ∅ [] CONNECTED None [] 0.

(** A client that asks for TLS, connected to a server that has none. *)
Definition secure_conn : Conn :=
  mkConn 0 0 0 0 0 (Options.mk false false true true DefaultMaxReconnect false false false false)
    (Some (NetConn.mk [] true))
    (Some (Writer.NewWriterSize ToConn defaultBufSize)) None 0 example_info 0
    ∅ ∅ [] DISCONNECTED None [] 0.

(** ** The registry *)

(** Every object of the store carries the identifier it is stored under, and
    every subscription of the registry is valid and has an open mailbox. *)
Definition registry_wf (nc : Conn) : Prop :=
  (forall p s, objs nc !! p = Some s -> Subscription.sid s = p) /\
  (forall k, k ∈ subs nc ->
     exists s, objs nc !! k = Some s /\ Subscription.conn s = true /\
               Subscription.mch s = true /\
               Chan.closed (Subscription.mailbox s) = false).

(** The object [subscribe] makes. *)
Definition fresh_sub (sid : Z) (subj : string) (cb : bool) : Subscription.t :=
  Subscription.mk sid subj _EMPTY_ 0 0 0 0 true cb true Chan.make false.

(** ** Messages through a mailbox *)

(** The message [processMsg] makes of a frame for the subscription [sid]. *)
Definition frame_msg (sid : Z) (f : string * string * bytes) : Msg.t :=
  Msg.mk (fst (fst f)) (snd (fst f)) (snd f) sid.

(** The reader processes one MSG frame after the other for [sid]. *)
Fixpoint arrive_all (sid : Z) (l : list (string * string * bytes)) (nc : Conn)
  : result Conn :=
  match l with
  | [] => Ok nc
  | f :: l' =>
      let* nc1 := processMsg (Frame (fst (fst f)) (snd (fst f)) sid (snd f)) nc in
      arrive_all sid l' nc1
  end.

(** The application calls [NextMsg] [n] times, no timer firing. *)
Fixpoint pull_all (n : nat) (p : Z) (nc : Conn) : result (Conn * list (error + Msg.t)) :=
  match n with
  | O => Ok (nc, [])
  | S n' =>
      let* (nc1, r) := Conn_NextMsg false p nc in
      let* (nc2, rs) := pull_all n' p nc1 in
      Ok (nc2, r :: rs)
  end.

(** The subscription [p] is registered, synchronous, valid, without budget
    and without slow-consumer flag, and its open mailbox holds [b]. *)
Definition sync_open (p : Z) (nc : Conn) (b : list Msg.t) : Prop :=
  exists s, subs_lookup p nc = Some s /\
            Subscription.conn s = true /\ Subscription.mcb s = false /\
            Subscription.mch s = true /\ Subscription.sc s = false /\
            Subscription.max s = 0 /\
            Subscription.mailbox s = Chan.mk b false.

(** [example_conn] after [SubscribeSync] on [foo]. *)
Definition subscribed_conn : Conn :=
  mkConn 0 0 0 0 0 Options.Default (Some (NetConn.mk [] true))
    (Some (Writer.mk ToConn defaultBufSize (list_byte_of_string (subProto "foo" "" 1)) None))
    None 1 example_info 1 {[1]} {[1 := fresh_sub 1 "foo" false]} [] CONNECTED None [] 0.

(** ** A reconnect that succeeds *)

(** The server information in force after the INFO line [l] was processed. *)
Definition info_after (l : InfoLine) (nc : Conn) : serverInfo.t :=
  match l with
  | InfoArgs i _ => i
  | _ => info nc
  end.

(** The INFO line was read and is an INFO line. *)
Definition is_info (l : InfoLine) : bool :=
  match l with
  | InfoEmpty | InfoArgs _ _ => true
  | _ => false
  end.

(** The network fails the first two dials and then answers. *)
Definition network_back (i : nat) : Attempt :=
  match i with
  | 0%nat | 1%nat => mkAttempt (DialErr ErrIO) InfoEmpty
  | _ => mkAttempt (DialOk (NetConn.mk [] true)) (InfoArgs example_info None)
  end.

(** ** The flusher and the protocol handlers of the reader *)

(** One turn of the loop of [flusher]: it takes a signal from [nc.fch] and,
    under the lock, flushes the writer when bytes are buffered and there is a
    socket; the result of the flush becomes the last error. *)
Definition flusher_iter (nc : Conn) : result (Conn * Loop) :=
  if isClosed nc || isReconnecting nc then Ok (nc, Break)
  else if fch nc <=? 0 then Ok (nc, Blocked)
  else
    let nc1 := set_fch (fch nc - 1) nc in
    if negb (isClosed nc1) && negb (isReconnecting nc1) then
      match bw nc1 with
      | None => Panic "nil bufio.Writer"
      | Some w =>
          if (0 <? Writer.Buffered w) && (if conn nc1 is Some _ then true else false)
          then let* (nc2, e) := Flush nc1 in Ok (set_err e nc2, Continue)
          else Ok (nc1, Continue)
      end
    else Ok (nc1, Continue).

(** [sendProto]: the line is written under the lock, then the flusher is
    kicked. *)
Definition sendProto (proto : string) (nc : Conn) : result Conn :=
  let* (nc1, _) := WriteString proto nc in Ok (kickFlusher nc1).

Definition processPing (nc : Conn) : result Conn := sendProto pongProto nc.

(** [processInfo], given what the arguments of the INFO line decode to:
    nothing for empty arguments. *)
Definition processInfo (args : option (serverInfo.t * option error)) (nc : Conn) : Conn :=
  match args with
  | None => nc
  | Some (i, e) => set_err e (set_info i nc)
  end.

(** What [readOp] hands to the loop of [readLoop]: a read error, or a
    control line with its verb. *)
Inductive Control : Type :=
| CReadErr (e : error)
| CMsg (f : MsgFrame)
| COk
| CPing
| CPong
| CInfo (args : option (serverInfo.t * option error))
| CErr (e : string)
| COther.

(** One turn of the loop of [readLoop]. *)
Definition readLoop_iter (c : Control) (nc : Conn) : result (Conn * Loop) :=
  if isClosed nc || isReconnecting nc then Ok (nc, Break)
  else
    match c with
    | CReadErr e => let* nc1 := processReadOpErr e nc in Ok (nc1, Break)
    | CMsg f => let* nc1 := processMsg f nc in Ok (nc1, Continue)
    | COk => Ok (nc, Continue)
    | CPing => let* nc1 := processPing nc in Ok (nc1, Continue)
    | CPong => let* nc1 := processPong nc in Ok (nc1, Continue)
    | CInfo args => Ok (processInfo args nc, Continue)
    | CErr e => let* nc1 := processErr e nc in Ok (nc1, Continue)
    | COther => Ok (nc, Continue)
    end.

(** What is on the wire of the socket. *)
Definition on_wire (nc : Conn) : bytes :=
  match conn nc with
  | Some c => NetConn.wire c
  | None => []
  end.

(** [example_conn] with the flusher already signalled once. *)
Definition signalled_conn : Conn := set_fch 1 example_conn.

(** ** Asynchronous delivery under a budget *)

(** [n] turns of the loop of [deliverMsgs] on the mailbox of [owner]. *)
Fixpoint deliver_all (n : nat) (owner : Z) (nc : Conn) : result Conn :=
  match n with
  | O => Ok nc
  | S n' => let* (nc1, _) := deliverMsgs_iter owner nc in deliver_all n' owner nc1
  end.

(** The subscription [p] is registered, asynchronous and valid, with budget
    [M], [a] messages counted on arrival, [d] counted on delivery, and its
    open mailbox holds [b]. *)
Definition async_at (p : Z) (nc : Conn) (M a d : Z) (b : list Msg.t) : Prop :=
  exists s, subs_lookup p nc = Some s /\
            Subscription.conn s = true /\ Subscription.mcb s = true /\
            Subscription.mch s = true /\ Subscription.max s = M /\
            Subscription.msgs s = a /\ Subscription.delivered s = d /\
            Subscription.mailbox s = Chan.mk b false.

(** The first [n] elements when there is a budget, all of them when there is
    none. *)
Definition within {A : Type} (M n : Z) (l : list A) : list A :=
  if 0 <? M then take (Z.to_nat n) l else l.

(** [example_conn] after [Subscribe] on [foo] with a callback and
    [AutoUnsubscribe(2)], both flushed. *)
Definition async_conn : Conn :=
  mkConn 0 0 0 0 0 Options.Default
    (Some (NetConn.mk (list_byte_of_string (subProto "foo" "" 1)
                       ++ list_byte_of_string (unsubProto 1 "2")) true))
    (Some (Writer.NewWriterSize ToConn defaultBufSize)) None 0 example_info 1 {[1]}
    {[1 := Subscription.mk 1 "foo" "" 0 0 0 2 true true true Chan.make false]}
    [] CONNECTED None [] 0.

Definition three_frames : list (string * string * bytes) :=
  [("foo", "", ["a"%byte]); ("foo", "", ["b"%byte]); ("foo", "", ["c"%byte])]%string.

(** ** Request *)

(** [Request] up to the wait in [NextMsg]; [inbox] is what [NewInbox]
    returned.  [SubscribeSync] is [subscribe] without queue and callback,
    [PublishRequest] is [publish] with the inbox as reply subject.  The
    result is the error that ends the call early, after the deferred
    [Unsubscribe] when the subscription was made, or the pointer to the
    subscription. *)
Definition Request_begin (inbox subj : string) (data : bytes) (nc : Conn)
  : result (Conn * (error + Z)) :=
  let* (nc1, r) := subscribe inbox _EMPTY_ false nc in
  match r with
  | inl e => Ok (nc1, inl e)
  | inr s =>
      let* (nc2, _) := AutoUnsubscribe s 1 nc1 in
      let* (nc3, e) := publish subj inbox data nc2 in
      match e with
      | Some e => let* (nc4, _) := Unsubscribe s nc3 in Ok (nc4, inl e)
      | None => Ok (nc3, inr s)
      end
  end.

(** The rest of [Request]: [NextMsg] returns, then the deferred
    [Unsubscribe] runs. *)
Definition Request_end (expired : bool) (s : Z) (nc : Conn)
  : result (Conn * (error + Msg.t)) :=
  let* (nc1, r) := Conn_NextMsg expired s nc in
  let* (nc2, _) := Unsubscribe s nc1 in
  Ok (nc2, r).

(** The subscription [Request] waits on, before any reply. *)
Definition request_sub (sid : Z) (inbox : string) : Subscription.t :=
  Subscription.set_max (U64.wrap 1) (fresh_sub sid inbox false).

(** ** A reconnect whose greeting is refused *)

(** The greeting of the server is not accepted: the first line cannot be
    read or is not INFO, or the client and the server disagree on TLS. *)
Definition greeting_refused (l : InfoLine) (nc : Conn) : Prop :=
  is_info l = false \/
  Options.Secure (Opts nc) <> serverInfo.SslRequired (info_after l nc).

(** The network answers every dial, with a first line that is not INFO. *)
Definition network_garbled (i : nat) : Attempt :=
  mkAttempt (DialOk (NetConn.mk [] true)) InfoNotInfo.

(** ** Connecting *)

Definition DefaultTimeout : Z := 2 * 1000000000.

Definition ErrJsonParse : error := ErrNew "nats: Connection message, json parse failed".

(** [&Conn{Opts: o}]: every other field has its zero value. *)
Definition new_conn (o : Options.t) : Conn :=
  mkConn 0 0 0 0 0 o None None None 0
    (serverInfo.mk _EMPTY_ _EMPTY_ 0 _EMPTY_ false false 0) 0 ∅ ∅ [] DISCONNECTED None [] 0.

(** [sendConnect] up to the wait of [FlushTimeout]; [cProto] is the CONNECT
    line made by [connectProto], or nothing when the options cannot be
    encoded. *)
Definition sendConnect_begin (cProto : option string) (nc : Conn)
  : result (Conn * (error + nat)) :=
  match cProto with
  | None => Ok (set_err (Some ErrJsonParse) nc, inl ErrJsonParse)
  | Some p => let* nc1 := sendProto p nc in FlushTimeout_begin DefaultTimeout nc1
  end.

(** The rest of [sendConnect], once [FlushTimeout] returned [e]. *)
Definition sendConnect_end (e : option error) (nc : Conn) : Conn * option error :=
  match e with
  | Some _ => (set_err e nc, e)
  | None => if isClosed nc then (nc, err nc) else (set_status CONNECTED nc, None)
  end.

(** [connect], given the outcome of the dial and the first line read, up to
    the wait of [FlushTimeout] in [sendConnect]. *)
Definition connect_begin (d : Dial) (l : InfoLine) (cProto : option string) (nc : Conn)
  : result (Conn * (error + nat)) :=
  let* (nc1, e) := createConn d nc in
  match e with
  | Some e => Ok (nc1, inl e)
  | None =>
      let nc2 := set_fch 0 (set_pongs [] (set_subs ∅ nc1)) in
      let* (nc3, e) := processExpectedInfo l nc2 in
      let nc4 := set_err e nc3 in
      match e with
      | Some e => Ok (nc4, inl e)
      | None => sendConnect_begin cProto nc4
      end
  end.

(** The rest of [connect]: the [select] of [FlushTimeout] fires, then
    [sendConnect] finishes. *)
Definition connect_end (ch : nat) (sel : FlushSelect) (nc : Conn) : Conn * option error :=
  let '(nc1, e) := FlushTimeout_end ch sel nc in sendConnect_end e nc1.

(** ** Synchronous delivery under a budget *)

(** The subscription [p] is registered, synchronous and valid, without
    slow-consumer flag, with budget [M], [a] messages counted on arrival, [d]
    counted on delivery, and its open mailbox holds [b]. *)
Definition sync_at (p : Z) (nc : Conn) (M a d : Z) (b : list Msg.t) : Prop :=
  exists s, subs_lookup p nc = Some s /\
            Subscription.conn s = true /\ Subscription.mcb s = false /\
            Subscription.mch s = true /\ Subscription.sc s = false /\
            Subscription.max s = M /\
            Subscription.msgs s = a /\ Subscription.delivered s = d /\
            Subscription.mailbox s = Chan.mk b false.

(** [example_conn] after [SubscribeSync] on [foo] and [AutoUnsubscribe(2)],
    both flushed. *)
Definition sync_conn : Conn :=
  mkConn 0 0 0 0 0 Options.Default
    (Some (NetConn.mk (list_byte_of_string (subProto "foo" "" 1)
                       ++ list_byte_of_string (unsubProto 1 "2")) true))
    (Some (Writer.NewWriterSize ToConn defaultBufSize)) None 0 example_info 1 {[1]}
    {[1 := Subscription.mk 1 "foo" "" 0 0 0 2 true false true Chan.make false]}
    [] CONNECTED None [] 0.

(** ** A greeting that cannot be read *)

(** The error of a first line that cannot be read or is not INFO. *)
Definition unreadable (l : InfoLine) : option error :=
  match l with
  | InfoReadErr e => Some e
  | InfoNotInfo => Some ErrNoInfo
  | InfoEmpty | InfoArgs _ _ => None
  end.

Arguments Flush : simpl never.
Arguments Write : simpl never.
Arguments WriteString : simpl never.
Arguments kickFlusher : simpl never.

Lemma core_fields nc nc' :
  core nc' = core nc ->
  InMsgs nc' = InMsgs nc /\ OutMsgs nc' = OutMsgs nc /\ InBytes nc' = InBytes nc /\
  OutBytes nc' = OutBytes nc /\ Reconnects nc' = Reconnects nc /\ Opts nc' = Opts nc /\
  fch nc' = fch nc /\ info nc' = info nc /\ ssid nc' = ssid nc /\ subs nc' = subs nc /\
  objs nc' = objs nc /\ pongs nc' = pongs nc /\ status nc' = status nc /\
  err nc' = err nc /\ trace nc' = trace nc /\ chseq nc' = chseq nc.
Proof.
  destruct nc, nc'; unfold core; simpl; intros H; inversion H; subst.
  repeat split; reflexivity.
Qed.

Lemma wr_Write_sink d p nc b :
  sink d nc = Some b ->
  exists nc1, wr_Write d p nc = (nc1, None) /\ sink d nc1 = Some (b ++ p) /\
              bw nc1 = bw nc /\ core nc1 = core nc.
Proof.
  destruct d; simpl; intros Hs.
  - destruct (conn nc) as [c|] eqn:Hc; [|discriminate].
    destruct (NetConn.up c) eqn:Hu; [|discriminate].
    injection Hs as <-. eexists; split; [reflexivity|].
    destruct nc; simpl in *. repeat split.
  - rewrite Hs. eexists; split; [reflexivity|].
    destruct nc; simpl in *. repeat split.
Qed.

Lemma len_app (a b : bytes) : len (a ++ b) = len a + len b.
Proof. unfold len. rewrite length_app. lia. Qed.

Lemma len_nonneg (a : bytes) : 0 <= len a.
Proof. unfold len. lia. Qed.

Lemma len_nil_iff (a : bytes) : len a = 0 <-> a = [].
Proof. unfold len. destruct a; simpl; split; intros; try reflexivity; try lia; discriminate. Qed.

Lemma writable_at nc :
  writable nc <-> exists w b, writer_at nc w b.
Proof.
  unfold writable, writer_at. split.
  - destruct (bw nc) as [w|]; [|tauto]. intros (He & Hs & Hl & [b Hb]).
    exists w, b. tauto.
  - intros (w & b & -> & He & Hs & Hl & Hb). repeat split; eauto.
Qed.

Lemma outbound_at nc w b : writer_at nc w b -> outbound nc = b ++ Writer.buf w.
Proof. intros (Hw & _ & _ & _ & Hb). unfold outbound. rewrite Hw, Hb. reflexivity. Qed.

Lemma Flush_w_ok w nc b :
  Writer.err w = None -> sink (Writer.wr w) nc = Some b ->
  exists nc1, Flush_w w nc = (nc1, None) /\
              bw nc1 = Some (Writer.set_buf [] w) /\
              sink (Writer.wr w) nc1 = Some (b ++ Writer.buf w) /\ core nc1 = core nc.
Proof.
  intros He Hs. unfold Flush_w. rewrite He.
  destruct (Writer.Buffered w =? 0) eqn:Hb.
  - apply Z.eqb_eq in Hb. apply len_nil_iff in Hb.
    eexists; split; [reflexivity|]. rewrite Hb, app_nil_r.
    destruct w; simpl in *; subst. destruct nc; simpl in *.
    repeat split; try assumption.
  - destruct (wr_Write_sink (Writer.wr w) (Writer.buf w) nc b Hs) as (nc1 & Hw & Hs1 & Hbw & Hc).
    rewrite Hw. eexists; split; [reflexivity|].
    destruct nc1; simpl in *. repeat split.
    + destruct (Writer.wr w); simpl in *; assumption.
    + rewrite <- Hc. reflexivity.
Qed.

Lemma write_ok_at p nc nc' w' b' b0 :
  writer_at nc' w' b' -> outbound nc = b0 -> b' ++ Writer.buf w' = b0 ++ p ->
  core nc' = core nc -> writer_kind nc' = writer_kind nc -> write_ok p nc nc'.
Proof.
  intros Hat Ho Hb Hc Hk. split; [apply writable_at; eauto|].
  split; [|tauto]. rewrite (outbound_at _ _ _ Hat), Ho. exact Hb.
Qed.

Lemma sink_set_bw d w nc : sink d (set_bw w nc) = sink d nc.
Proof. destruct d; reflexivity. Qed.

Ltac writer_frame Hbw :=
  first [ reflexivity
        | unfold writer_kind; simpl; rewrite Hbw; reflexivity
        | congruence ].

Lemma Write_w_ok p w nc b :
  writer_at nc w b -> exists nc', Write_w p w nc = (nc', None) /\ write_ok p nc nc'.
Proof.
  intros Hat. pose proof (outbound_at _ _ _ Hat) as Ho.
  destruct Hat as (Hbw & He & Hsz & Hl & Hs).
  unfold Write_w. rewrite He.
  destruct w as [d sz bf er]; simpl in *; subst er.
  unfold Writer.Available, Writer.Buffered; simpl.
  destruct (len p <=? sz - len bf) eqn:Hfit.
  - apply Z.leb_le in Hfit. eexists; split; [reflexivity|].
    apply (write_ok_at p nc _ (Writer.mk d sz (bf ++ p) None) b (b ++ bf));
      [ | exact Ho | apply app_assoc | writer_frame Hbw | writer_frame Hbw ].
    unfold writer_at; simpl. rewrite len_app. repeat split; try lia; rewrite sink_set_bw; assumption.
  - apply Z.leb_gt in Hfit.
    destruct (len bf =? 0) eqn:Hemp.
    + apply Z.eqb_eq, len_nil_iff in Hemp. subst bf.
      unfold Write_direct; simpl.
      destruct (wr_Write_sink d p nc b Hs) as (nc1 & Hw & Hs1 & Hbw1 & Hc1).
      rewrite Hw. eexists; split; [reflexivity|].
      apply (write_ok_at p nc _ (Writer.mk d sz [] None) (b ++ p) (b ++ []));
        [ | exact Ho | rewrite !app_nil_r; reflexivity
          | rewrite <- Hc1; reflexivity | writer_frame Hbw ].
      unfold writer_at; simpl. repeat split; try lia; try (unfold len; simpl; lia); rewrite sink_set_bw; assumption.
    + apply Z.eqb_neq in Hemp.
      set (n := Z.to_nat (sz - len bf)).
      destruct (Flush_w_ok (Writer.mk d sz (bf ++ take n p) None) nc b eq_refl Hs)
        as (nc1 & Hf & Hbw1 & Hs1 & Hc1).
      unfold Writer.set_buf at 1; simpl. rewrite Hf. simpl in Hs1.
      assert (Htd : (b ++ bf ++ take n p) ++ drop n p = (b ++ bf) ++ p).
      { rewrite <- !app_assoc. rewrite take_drop. reflexivity. }
      destruct (len (drop n p) <=? sz - len []) eqn:Hfit2.
      * apply Z.leb_le in Hfit2. unfold len in Hfit2 at 2; simpl in Hfit2.
        eexists; split; [reflexivity|].
        apply (write_ok_at p nc _ (Writer.mk d sz (drop n p) None)
                 (b ++ bf ++ take n p) (b ++ bf));
          [ | exact Ho | exact Htd | rewrite <- Hc1; reflexivity | writer_frame Hbw ].
        unfold writer_at; simpl. repeat split; try lia; try (unfold len; simpl; lia); rewrite sink_set_bw; assumption.
      * unfold Write_direct; simpl.
        destruct (wr_Write_sink d (drop n p) nc1 _ Hs1) as (nc2 & Hw & Hs2 & Hbw2 & Hc2).
        rewrite Hw. eexists; split; [reflexivity|].
        apply (write_ok_at p nc _ (Writer.mk d sz [] None)
                  ((b ++ bf ++ take n p) ++ drop n p) (b ++ bf));
          [ | exact Ho | rewrite app_nil_r; exact Htd
            | rewrite <- Hc1, <- Hc2; reflexivity | writer_frame Hbw ].
        unfold writer_at; simpl. repeat split; try lia; try (unfold len; simpl; lia); rewrite sink_set_bw; assumption.
Qed.

Lemma Write_ok p nc :
  writable nc -> exists nc', Write p nc = Ok (nc', None) /\ write_ok p nc nc'.
Proof.
  intros Hw. apply writable_at in Hw as (w & b & Hat).
  destruct (Write_w_ok p w nc b Hat) as (nc' & H1 & H2).
  exists nc'. split; [|exact H2].
  unfold Write. destruct Hat as (-> & _). rewrite H1. reflexivity.
Qed.

Lemma WriteString_w_gen s :
  forall w nc b,
    Writer.err w = None -> 0 < Writer.size w -> len (Writer.buf w) <= Writer.size w ->
    sink (Writer.wr w) nc = Some b ->
    exists nc' w' b',
      WriteString_w s w nc = (nc', None) /\ writer_at nc' w' b' /\
      Writer.wr w' = Writer.wr w /\ Writer.size w' = Writer.size w /\
      b' ++ Writer.buf w' = (b ++ Writer.buf w) ++ s /\ core nc' = core nc.
Proof.
  induction s as [|c s IH]; intros w nc b He Hsz Hl Hs; simpl.
  - exists (set_bw (Some w) nc), w, b. rewrite He, app_nil_r.
    repeat split; try assumption; try reflexivity; rewrite sink_set_bw; assumption.
  - rewrite He. destruct w as [d sz bf er]; simpl in *; subst er.
    unfold Writer.Available; simpl.
    destruct (0 <? sz - len bf) eqn:Hroom.
    + apply Z.ltb_lt in Hroom.
      destruct (IH (Writer.mk d sz (bf ++ [c]) None) nc b) as (nc' & w' & b' & H1 & H2 & H3 & H4 & H5 & H6);
        simpl; try assumption; try reflexivity.
      { rewrite len_app. unfold len at 2; simpl. lia. }
      exists nc', w', b'. unfold Writer.set_buf; simpl. rewrite H1.
      split; [reflexivity|]. split; [exact H2|]. split; [exact H3|].
      split; [exact H4|]. split; [|exact H6].
      rewrite H5. simpl. rewrite <- !app_assoc. reflexivity.
    + apply Z.ltb_ge in Hroom.
      destruct (Flush_w_ok (Writer.mk d sz bf None) nc b eq_refl Hs)
        as (nc1 & Hf & Hbw1 & Hs1 & Hc1).
      rewrite Hf. simpl in Hs1.
      destruct (IH (Writer.mk d sz [c] None) nc1 (b ++ bf))
        as (nc' & w' & b' & H1 & H2 & H3 & H4 & H5 & H6);
        simpl; try assumption; try reflexivity.
      { unfold len; simpl. lia. }
      exists nc', w', b'. unfold Writer.set_buf; simpl. rewrite H1.
      split; [reflexivity|]. split; [exact H2|]. split; [exact H3|].
      split; [exact H4|]. split; [|congruence].
      rewrite H5. simpl. rewrite <- !app_assoc. reflexivity.
Qed.

Lemma WriteString_ok s nc :
  writable nc ->
  exists nc', WriteString s nc = Ok (nc', None) /\ write_ok (list_byte_of_string s) nc nc'.
Proof.
  intros Hw. apply writable_at in Hw as (w & b & Hat).
  pose proof (outbound_at _ _ _ Hat) as Ho.
  destruct Hat as (Hbw & He & Hsz & Hl & Hs).
  destruct (WriteString_w_gen (list_byte_of_string s) w nc b He Hsz Hl Hs)
    as (nc' & w' & b' & H1 & H2 & H3 & H4 & H5 & H6).
  exists nc'. unfold WriteString. rewrite Hbw, H1. split; [reflexivity|].
  apply (write_ok_at _ nc nc' w' b' (b ++ Writer.buf w)); try assumption.
  unfold writer_kind. destruct H2 as (-> & _). rewrite Hbw. simpl. congruence.
Qed.

Lemma Flush_ok nc :
  writable nc -> exists nc', Flush nc = Ok (nc', None) /\ write_ok [] nc nc'.
Proof.
  intros Hw. apply writable_at in Hw as (w & b & Hat).
  pose proof (outbound_at _ _ _ Hat) as Ho.
  destruct Hat as (Hbw & He & Hsz & Hl & Hs).
  destruct (Flush_w_ok w nc b He Hs) as (nc1 & Hf & Hbw1 & Hs1 & Hc1).
  exists nc1. unfold Flush. rewrite Hbw, Hf. split; [reflexivity|].
  apply (write_ok_at _ nc nc1 (Writer.set_buf [] w) (b ++ Writer.buf w) (b ++ Writer.buf w));
    try assumption.
  - unfold writer_at. destruct w; simpl in *. repeat split; try assumption.
    unfold len; simpl; lia.
  - destruct w; simpl. rewrite !app_nil_r. reflexivity.
  - unfold writer_kind. rewrite Hbw1, Hbw. destruct w; reflexivity.
Qed.

Lemma write_ok_trans p q nc nc1 nc2 :
  write_ok p nc nc1 -> write_ok q nc1 nc2 -> write_ok (p ++ q) nc nc2.
Proof.
  intros (H1 & H2 & H3 & H4) (G1 & G2 & G3 & G4).
  repeat split; try assumption; try congruence.
  rewrite G2, H2, app_assoc. reflexivity.
Qed.

(** ** Frame properties of the writer: whatever its state, a write changes
    only the writer, the socket and the pending buffer. *)

Lemma wr_Write_core d p nc :
  core (fst (wr_Write d p nc)) = core nc /\ bw (fst (wr_Write d p nc)) = bw nc.
Proof.
  destruct d; simpl.
  - destruct (conn nc) as [c|]; [destruct (NetConn.up c)|]; simpl; split; reflexivity.
  - destruct (pending nc); simpl; split; reflexivity.
Qed.

Lemma Flush_w_core w nc :
  core (fst (Flush_w w nc)) = core nc /\ is_Some (bw (fst (Flush_w w nc))).
Proof.
  unfold Flush_w. destruct (Writer.err w); simpl; [split; [reflexivity|eauto]|].
  destruct (Writer.Buffered w =? 0); simpl; [split; [reflexivity|eauto]|].
  pose proof (wr_Write_core (Writer.wr w) (Writer.buf w) nc) as [Hc Hb].
  destruct (wr_Write (Writer.wr w) (Writer.buf w) nc) as [nc1 [e|]]; simpl in *;
    (split; [rewrite <- Hc; reflexivity | eauto]).
Qed.

Lemma WriteString_w_core s :
  forall w nc, core (fst (WriteString_w s w nc)) = core nc /\
               is_Some (bw (fst (WriteString_w s w nc))).
Proof.
  induction s as [|c s IH]; intros w nc; simpl.
  - split; [reflexivity|eauto].
  - destruct (Writer.err w); simpl; [split; [reflexivity|eauto]|].
    destruct (0 <? Writer.Available w); [apply IH|].
    pose proof (Flush_w_core w nc) as [Hc Hb].
    destruct (Flush_w w nc) as [nc1 [e|]]; simpl in *; [split; assumption|].
    destruct (IH (Writer.set_buf [c] w) nc1) as [Hc' Hb']. split; [congruence|assumption].
Qed.

Lemma WriteString_total s nc :
  is_Some (bw nc) ->
  exists nc' e, WriteString s nc = Ok (nc', e) /\ core nc' = core nc /\ is_Some (bw nc').
Proof.
  intros [w Hw]. unfold WriteString. rewrite Hw.
  pose proof (WriteString_w_core (list_byte_of_string s) w nc) as [Hc Hb].
  destruct (WriteString_w (list_byte_of_string s) w nc) as [nc' e]; simpl in *. eauto.
Qed.

Lemma Flush_total nc :
  is_Some (bw nc) ->
  exists nc' e, Flush nc = Ok (nc', e) /\ core nc' = core nc /\ is_Some (bw nc').
Proof.
  intros [w Hw]. unfold Flush. rewrite Hw.
  pose proof (Flush_w_core w nc) as [Hc Hb].
  destruct (Flush_w w nc) as [nc' e]; simpl in *. eauto.
Qed.

(** ** The PONG-waiter queue *)

Lemma FlushTimeout_begin_total t nc :
  is_Some (bw nc) -> isClosed nc = false ->
  exists nc' r, FlushTimeout_begin t nc = Ok (nc', r) /\ is_Some (bw nc') /\
                status nc' = status nc /\
                pongs nc' = pongs nc ++ (if 0 <? t then [Some (chseq nc)] else []).
Proof.
  intros Hbw Hcl. unfold FlushTimeout_begin.
  destruct (t <=? 0) eqn:Ht.
  - apply Z.leb_le in Ht. exists nc, (inl ErrBadTimeout).
    destruct (0 <? t) eqn:Ht'; [apply Z.ltb_lt in Ht'; lia|].
    rewrite app_nil_r. auto.
  - apply Z.leb_gt in Ht. rewrite Hcl.
    set (nc1 := set_pongs _ _).
    destruct (WriteString_total pingProto nc1 Hbw) as (nc2 & e2 & -> & Hc2 & Hb2).
    destruct (Flush_total nc2 Hb2) as (nc3 & e3 & H3 & Hc3 & Hb3).
    simpl. rewrite H3. simpl. exists nc3, (inr (chseq nc)).
    destruct (core_fields _ _ Hc2) as (_&_&_&_&_&_&_&_&_&_&_&Hp2&Hs2&_).
    destruct (core_fields _ _ Hc3) as (_&_&_&_&_&_&_&_&_&_&_&Hp3&Hs3&_).
    replace (0 <? t) with true by (symmetry; apply Z.ltb_lt; lia).
    subst nc1; simpl in *.
    repeat split; try assumption; congruence.
Qed.

Lemma processPong_cons nc ch rest :
  pongs nc = ch :: rest ->
  exists nc', processPong nc = Ok nc' /\ pongs nc' = rest /\
              trace nc' = trace nc ++ match ch with Some c => [EvPongSignal c] | None => [] end /\
              bw nc' = bw nc /\ status nc' = status nc.
Proof.
  intros H. unfold processPong. rewrite H.
  destruct ch as [c|]; eexists; (split; [reflexivity|]); simpl;
    repeat split; try reflexivity. rewrite app_nil_r. reflexivity.
Qed.

Lemma processPong_panics nc :
  (exists why, processPong nc = Panic why) <-> pongs nc = [].
Proof.
  unfold processPong. destruct (pongs nc) as [|ch rest]; split.
  - reflexivity.
  - eauto.
  - intros [why H]. discriminate.
  - discriminate.
Qed.

Lemma enough_waiters_covered ops :
  forall n, enough_waiters n ops <-> pongs_covered n ops.
Proof.
  unfold pongs_covered.
  induction ops as [|o r IH]; intros n; simpl.
  - split; [|tauto]. intros _ k. rewrite take_nil. simpl. lia.
  - destruct o as [t|].
    + rewrite IH. split.
      * intros H [|k]; simpl; [lia|]. specialize (H k).
        destruct (0 <? t); lia.
      * intros H k. specialize (H (S k)). simpl in H.
        destruct (0 <? t); lia.
    + destruct n as [|m].
      * split; [tauto|]. intros H. specialize (H 1%nat). simpl in H. lia.
      * rewrite IH. split.
        -- intros H [|k]; simpl; [lia|]. specialize (H k). lia.
        -- intros H k. specialize (H (S k)). simpl in H. lia.
Qed.

Lemma run_queue_enough ops :
  forall nc, is_Some (bw nc) -> isClosed nc = false ->
    ((exists nc', run_queue ops nc = Ok nc') <-> enough_waiters (length (pongs nc)) ops).
Proof.
  induction ops as [|o r IH]; intros nc Hbw Hcl; simpl.
  - split; eauto.
  - destruct o as [t|].
    + destruct (FlushTimeout_begin_total t nc Hbw Hcl) as (nc1 & res & -> & Hb1 & Hs1 & Hp1).
      simpl. assert (Hcl1 : isClosed nc1 = false) by (unfold isClosed in *; congruence).
      rewrite (IH nc1 Hb1 Hcl1), Hp1, length_app.
      destruct (0 <? t); simpl; rewrite ?Nat.add_0_r, ?Nat.add_1_r; reflexivity.
    + destruct (pongs nc) as [|ch rest] eqn:Hp; simpl.
      * unfold processPong. rewrite Hp. simpl. split; [intros [? ?]; discriminate|tauto].
      * destruct (processPong_cons nc ch rest Hp) as (nc1 & -> & Hp1 & _ & Hb1 & Hs1).
        simpl. rewrite <- Hp1. apply IH; [congruence|unfold isClosed in *; congruence].
Qed.

Lemma FlushTimeout_begin_ok t nc :
  0 < t -> isClosed nc = false -> writable nc ->
  exists nc', FlushTimeout_begin t nc = Ok (nc', inr (chseq nc)) /\
              pongs nc' = pongs nc ++ [Some (chseq nc)] /\
              outbound nc' = outbound nc ++ list_byte_of_string pingProto /\
              writable nc'.
Proof.
  intros Ht Hcl Hw. unfold FlushTimeout_begin.
  replace (t <=? 0) with false by (symmetry; apply Z.leb_gt; lia).
  rewrite Hcl. set (nc1 := set_pongs _ _).
  assert (Hw1 : writable nc1) by exact Hw.
  destruct (WriteString_ok pingProto nc1 Hw1) as (nc2 & -> & Hw2 & Ho2 & Hc2 & _).
  destruct (Flush_ok nc2 Hw2) as (nc3 & H3 & Hw3 & Ho3 & Hc3 & _).
  simpl. rewrite H3. simpl. exists nc3. split; [reflexivity|].
  destruct (core_fields _ _ Hc2) as (_&_&_&_&_&_&_&_&_&_&_&Hp2&_).
  destruct (core_fields _ _ Hc3) as (_&_&_&_&_&_&_&_&_&_&_&Hp3&_).
  repeat split; try assumption.
  - rewrite Hp3, Hp2. reflexivity.
  - rewrite Ho3, Ho2, app_nil_r. reflexivity.
Qed.

Lemma drain_queue q :
  forall nc, pongs nc = q ->
    exists nc', run_queue (replicate (length q) OpPong) nc = Ok nc' /\ pongs nc' = [] /\
                trace nc' = trace nc ++ map EvPongSignal (omap id q).
Proof.
  induction q as [|ch q IH]; intros nc Hq; simpl.
  - exists nc. rewrite app_nil_r. auto.
  - destruct (processPong_cons nc ch q Hq) as (nc1 & -> & Hp1 & Ht1 & _).
    simpl. destruct (IH nc1 Hp1) as (nc' & Hr & Hp & Ht).
    exists nc'. repeat split; try assumption.
    rewrite Ht, Ht1, <- app_assoc. destruct ch; reflexivity.
Qed.


Lemma example_conn_writable : writable example_conn.
Proof.
  unfold writable; simpl.
  split; [reflexivity|]. split; [reflexivity|]. split; [discriminate|].
  exists []. reflexivity.
Defined.


(** C10.  [processPong] reads the head of the queue without a length check:
    it panics exactly when the queue is empty.  Over a sequence of flush
    entries and PONGs it is safe exactly when no prefix holds more PONGs than
    the waiters queued before it plus those the prefix appends; a PONG with
    no outstanding waiter reaches the out-of-bounds access. *)
Theorem processPong_head_needs_waiter :
  (forall nc, (exists why, processPong nc = Panic why) <-> pongs nc = []) /\
  (forall ops nc, is_Some (bw nc) -> isClosed nc = false ->
     ((exists nc', run_queue ops nc = Ok nc') <->
      pongs_covered (length (pongs nc)) ops)) /\
  run_queue [OpFlush 1; OpPong; OpPong] example_conn = Panic "index out of range".
Proof.
  split; [exact processPong_panics|split].
  - intros ops nc Hbw Hcl. rewrite (run_queue_enough ops nc Hbw Hcl).
    apply enough_waiters_covered.
  - vm_compute. reflexivity.
Qed.

Lemma processPong_head_needs_waiter_witness :
  (exists nc', run_queue [OpFlush 1; OpPong] example_conn = Ok nc') <->
  pongs_covered (length (pongs example_conn)) [OpFlush 1; OpPong].
Proof.
  destruct processPong_head_needs_waiter as (_ & Hrun & _).
  apply (Hrun [OpFlush 1; OpPong] example_conn).
  - simpl. eexists; reflexivity.
  - reflexivity.
Defined.

(** ** Synchronous pulling *)



(** ** Inbound messages *)

Lemma subs_lookup_objs sid nc s : subs_lookup sid nc = Some s -> objs nc !! sid = Some s.
Proof. unfold subs_lookup. destruct (decide _); [tauto|discriminate]. Qed.

(** A message for a subscription that is over its budget is dropped before
    the subscription is touched. *)
Lemma processMsg_over_max subj reply sid buf nc sub :
  subs_lookup sid nc = Some sub ->
  0 < Subscription.max sub -> Subscription.max sub < Subscription.msgs sub ->
  processMsg (Frame subj reply sid buf) nc
  = Ok (set_InStats (U64.add (InMsgs nc) 1)
                    (U64.add (InBytes nc) (U64.wrap (len buf))) nc).
Proof.
  intros Hl H1 H2. unfold processMsg.
  change (subs_lookup sid (set_InStats _ _ nc)) with (subs_lookup sid nc). rewrite Hl.
  apply Z.ltb_lt in H1, H2. rewrite H1, H2. reflexivity.
Qed.

(** C3, as the code has it.  A message for a subscription within its budget
    whose mailbox already holds [maxChanLen] messages sets the slow-consumer
    flag, records the slow-consumer error, hands one error to the error
    handler when one is registered, and leaves the mailbox as it was (the
    message is dropped); the connection's in-message and in-byte counters and
    the subscription's message and byte counters are advanced as for a
    message that is accepted. *)
Theorem slow_consumer_enqueue :
  forall nc sid sub subj reply buf,
    subs_lookup sid nc = Some sub ->
    Subscription.mch sub = true ->
    maxChanLen <= Z.of_nat (length (Chan.buf (Subscription.mailbox sub))) ->
    Subscription.max sub <= 0 \/ Subscription.msgs sub <= Subscription.max sub ->
    exists nc' sub',
      processMsg (Frame subj reply sid buf) nc = Ok nc' /\
      objs nc' !! sid = Some sub' /\
      Subscription.sc sub' = true /\
      Subscription.mailbox sub' = Subscription.mailbox sub /\
      err nc' = Some ErrSlowConsumer /\
      trace nc' = trace nc ++
        (if Options.AsyncErrorCB (Opts nc) then [EvAsyncErrorCB sid ErrSlowConsumer] else []) /\
      InMsgs nc' = U64.add (InMsgs nc) 1 /\
      InBytes nc' = U64.add (InBytes nc) (U64.wrap (len buf)) /\
      Subscription.msgs sub' = U64.add (Subscription.msgs sub) 1 /\
      Subscription.bytes sub' = U64.add (Subscription.bytes sub) (U64.wrap (len buf)).
Proof.
  intros nc sid sub subj reply buf Hl Hm Hfull Hbudget. unfold processMsg.
  change (subs_lookup sid (set_InStats _ _ nc)) with (subs_lookup sid nc). rewrite Hl.
  replace ((0 <? Subscription.max sub) && (Subscription.max sub <? Subscription.msgs sub))
    with false.
  2:{ symmetry. apply andb_false_iff. destruct Hbudget; [left; apply Z.ltb_ge | right; apply Z.ltb_ge]; lia. }
  simpl. rewrite Hm. apply Z.leb_le in Hfull. rewrite Hfull.
  unfold processSlowConsumer; simpl.
  destruct (Options.AsyncErrorCB (Opts nc)); eexists; eexists;
    (split; [reflexivity|]); simpl; rewrite lookup_insert_eq;
    repeat split; try reflexivity. rewrite app_nil_r. reflexivity.
Qed.

Lemma slow_consumer_enqueue_witness :
  exists nc' sub',
    processMsg (Frame "foo" "" 1 (list_byte_of_string "hello")) slow_conn = Ok nc' /\
    objs nc' !! 1 = Some sub' /\
    Subscription.sc sub' = true /\
    Subscription.mailbox sub' = Subscription.mailbox full_sub /\
    err nc' = Some ErrSlowConsumer /\
    trace nc' = trace slow_conn ++
      (if Options.AsyncErrorCB (Opts slow_conn)
       then [EvAsyncErrorCB 1 ErrSlowConsumer] else []) /\
    InMsgs nc' = U64.add (InMsgs slow_conn) 1 /\
    InBytes nc' = U64.add (InBytes slow_conn) (U64.wrap (len (list_byte_of_string "hello"))) /\
    Subscription.msgs sub' = U64.add (Subscription.msgs full_sub) 1 /\
    Subscription.bytes sub' =
      U64.add (Subscription.bytes full_sub) (U64.wrap (len (list_byte_of_string "hello"))).
Proof.
  apply (slow_consumer_enqueue slow_conn 1 full_sub "foo" "" (list_byte_of_string "hello")).
  - vm_compute. reflexivity.
  - reflexivity.
  - vm_compute. discriminate.
  - left. vm_compute. discriminate.
Defined.

(** C3, as stated, fails: with the mailbox at capacity the four counters
    move. *)
Lemma slow_consumer_counters_counterexample :
  Z.of_nat (length (Chan.buf (Subscription.mailbox full_sub))) = maxChanLen /\
  subs_lookup 1 slow_conn = Some full_sub /\
  exists nc' sub',
    processMsg (Frame "foo" "" 1 (list_byte_of_string "hello")) slow_conn = Ok nc' /\
    objs nc' !! 1 = Some sub' /\
    Subscription.sc sub' = true /\
    InMsgs nc' <> InMsgs slow_conn /\
    InBytes nc' <> InBytes slow_conn /\
    Subscription.msgs sub' <> Subscription.msgs full_sub /\
    Subscription.bytes sub' <> Subscription.bytes full_sub.
Proof.
  split; [vm_compute; reflexivity|]. split; [vm_compute; reflexivity|].
  eexists. eexists. split; [vm_compute; reflexivity|].
  split; [vm_compute; reflexivity|].
  repeat split; vm_compute; discriminate.
Qed.


(** ** Close *)

Lemma foldr_alter_lookup {A} (f : A -> A) (l : list Z) (o : gmap Z A) (k : Z) :
  NoDup l ->
  foldr (fun sid o => alter f sid o) o l !! k
  = if decide (k ∈ l) then f <$> o !! k else o !! k.
Proof.
  induction l as [|a l IH]; intros Hnd; simpl.
  - destruct (decide (k ∈ [])) as [H|_]; [|reflexivity].
    apply elem_of_nil in H. contradiction.
  - apply NoDup_cons in Hnd as [Ha Hnd]. rewrite lookup_alter.
    destruct (decide (a = k)) as [->|Hne].
    + rewrite (IH Hnd). destruct (decide (k ∈ l)); [contradiction|].
      destruct (decide (k ∈ k :: l)) as [_|Hn]; [reflexivity|].
      exfalso. apply Hn. left.
    + rewrite (IH Hnd). destruct (decide (k ∈ l)) as [Hin|Hnin].
      * destruct (decide (k ∈ a :: l)) as [_|Hn]; [reflexivity|].
        exfalso. apply Hn. right. exact Hin.
      * destruct (decide (k ∈ a :: l)) as [Hin|_]; [|reflexivity].
        apply elem_of_cons in Hin as [->|Hin]; contradiction.
Qed.

Lemma close_subs_lookup nc k :
  objs (close_subs nc) !! k
  = if decide (k ∈ subs nc) then Subscription.close_mch <$> objs nc !! k else objs nc !! k.
Proof.
  unfold close_subs; simpl. rewrite foldr_alter_lookup by apply NoDup_elements.
  destruct (decide (k ∈ elements (subs nc))) as [H|H];
    destruct (decide (k ∈ subs nc)) as [H'|H']; try reflexivity;
    apply elem_of_elements in H || (exfalso; apply H; apply elem_of_elements; exact H');
    contradiction.
Qed.

Lemma signal_all_eq q :
  forall nc,
    fold_left (fun n c => match c with Some ch => emit (EvPongSignal ch) n | None => n end) q nc
    = set_trace (trace nc ++ signals q) nc.
Proof.
  induction q as [|c q IH]; intros nc; simpl.
  - unfold signals; simpl. rewrite app_nil_r. destruct nc; reflexivity.
  - rewrite IH. destruct c as [ch|]; unfold signals; simpl; [|reflexivity].
    unfold set_trace; simpl. rewrite <- app_assoc. reflexivity.
Qed.

Lemma clearPendingFlushCalls_eq nc :
  clearPendingFlushCalls nc = set_pongs [] (set_trace (trace nc ++ signals (pongs nc)) nc).
Proof. unfold clearPendingFlushCalls. rewrite signal_all_eq. reflexivity. Qed.

Lemma kickFlusher_fch nc : kickFlusher nc = set_fch (fch (kickFlusher nc)) nc.
Proof.
  unfold kickFlusher. destruct (_ && _); destruct nc; reflexivity.
Qed.

Lemma kickFlusher_core nc : core (kickFlusher nc) = set_fch (fch (kickFlusher nc)) (core nc).
Proof. rewrite kickFlusher_fch at 1. reflexivity. Qed.

(** What [Close] does on a connection that is not closed yet. *)
Lemma Close_spec nc :
  isClosed nc = false -> conn nc = None \/ is_Some (bw nc) ->
  exists nc',
    Close nc = Ok nc' /\ status nc' = CLOSED /\ pongs nc' = [] /\ subs nc' = ∅ /\
    objs nc' = objs (close_subs nc) /\
    trace nc' = trace nc ++ signals (pongs nc) ++
      (if (if conn nc is Some _ then true else false) && Options.DisconnectedCB (Opts nc)
       then [EvDisconnectedCB] else []) ++
      (if Options.ClosedCB (Opts nc) then [EvClosedCB] else []).
Proof.
  intros Hcl Hbw. unfold Close. rewrite Hcl.
  rewrite (kickFlusher_fch (set_status CLOSED nc)).
  generalize (fch (kickFlusher (set_status CLOSED nc))). intros f.
  rewrite clearPendingFlushCalls_eq. simpl.
  destruct (conn nc) as [c|] eqn:Hc; simpl.
  - destruct Hbw as [Hbw|Hbw]; [discriminate|].
    destruct (Options.DisconnectedCB (Opts nc)) eqn:Hdb; simpl; rewrite Hc;
      match goal with
      | |- context [Flush ?x] =>
          destruct (Flush_total x Hbw) as (n & e & -> & Hcn & Hbn)
      end; simpl;
      destruct (core_fields _ _ Hcn) as (_&_&_&_&_&Ho&_&_&_&Hsu&Hob&Hp&Hs&_&Ht&_);
      simpl in *; rewrite Ho;
      (eexists; split; [reflexivity|]);
      destruct (Options.ClosedCB (Opts nc)) eqn:Hcb; simpl;
      rewrite ?Hs, ?Hp, ?Hsu, ?Hob, ?Ht;
      repeat split; try reflexivity; rewrite <- ?app_assoc, ?app_nil_r; reflexivity.
  - rewrite Hc; simpl. eexists. split; [reflexivity|].
    destruct (Options.ClosedCB (Opts nc)) eqn:Hcb; simpl;
      repeat split; try reflexivity; rewrite <- ?app_assoc, ?app_nil_r; reflexivity.
Qed.

Lemma Close_nil_writer nc :
  isClosed nc = false -> is_Some (conn nc) -> bw nc = None ->
  Close nc = Panic "nil bufio.Writer".
Proof.
  intros Hcl [c Hc] Hbw. unfold Close. rewrite Hcl.
  rewrite (kickFlusher_fch (set_status CLOSED nc)).
  rewrite clearPendingFlushCalls_eq. simpl. rewrite Hc.
  destruct (Options.DisconnectedCB (Opts nc)); simpl; rewrite Hc;
    unfold Flush; simpl; rewrite Hbw; reflexivity.
Qed.

Lemma Close_objs nc nc' :
  Close nc = Ok nc' -> objs nc' = objs nc \/ objs nc' = objs (close_subs nc).
Proof.
  intros H. destruct (isClosed nc) eqn:Hcl.
  - unfold Close in H. rewrite Hcl in H. injection H as <-. left; reflexivity.
  - destruct (conn nc) as [c|] eqn:Hc.
    + destruct (bw nc) as [w|] eqn:Hbw.
      * destruct (Close_spec nc Hcl) as (nc1 & H1 & _ & _ & _ & Ho & _); [right; eauto|].
        rewrite H1 in H. injection H as <-. right; exact Ho.
      * rewrite (Close_nil_writer nc Hcl) in H; [discriminate | eauto | exact Hbw].
    + destruct (Close_spec nc Hcl) as (nc1 & H1 & _ & _ & _ & Ho & _); [left; exact Hc|].
      rewrite H1 in H. injection H as <-. right; exact Ho.
Qed.

(** ** The delivery invariant *)

Lemma u64_succ a : 0 <= a -> a + 1 < U64.modulus -> U64.add a 1 = a + 1.
Proof. intros H1 H2. unfold U64.add, U64.wrap. apply Z.mod_small. lia. Qed.

Lemma sub_inv_close_mch k s : sub_inv k s -> sub_inv k (Subscription.close_mch s).
Proof.
  unfold sub_inv, Subscription.close_mch. destruct (Subscription.mch s); simpl; tauto.
Qed.

Lemma conn_inv_weaken n m nc : m <= n -> conn_inv n nc -> conn_inv m nc.
Proof.
  intros Hle [Hn H]. split; [lia|]. intros k s Hk. destruct (H k s Hk). split; [assumption|lia].
Qed.

(** The invariant depends on the store only. *)
Lemma conn_inv_objs n nc nc' : objs nc' = objs nc -> conn_inv n nc -> conn_inv n nc'.
Proof. unfold conn_inv. intros ->. tauto. Qed.

Lemma conn_inv_store n nc k s :
  conn_inv n nc -> sub_inv k s -> Subscription.msgs s + n < U64.modulus ->
  conn_inv n (store k s nc).
Proof.
  intros [Hn H] Hs Hm. split; [assumption|]. intros j t. unfold store; simpl.
  rewrite lookup_insert. destruct (decide (k = j)) as [<-|_].
  - intros [= <-]. tauto.
  - apply H.
Qed.

Lemma conn_inv_close_subs n nc : conn_inv n nc -> conn_inv n (close_subs nc).
Proof.
  intros [Hn H]. split; [assumption|]. intros k s. rewrite close_subs_lookup.
  destruct (decide (k ∈ subs nc)); [|apply H].
  destruct (objs nc !! k) as [t|] eqn:Ht; simpl; [|discriminate].
  intros [= <-]. destruct (H k t Ht) as [Hi Hm]. split; [apply sub_inv_close_mch; exact Hi|].
  unfold Subscription.close_mch. destruct (Subscription.mch t); exact Hm.
Qed.

Lemma Close_inv n nc nc' : Close nc = Ok nc' -> conn_inv n nc -> conn_inv n nc'.
Proof.
  intros H Hi. destruct (Close_objs nc nc' H) as [Ho|Ho].
  - exact (conn_inv_objs n nc nc' Ho Hi).
  - apply (conn_inv_objs n (close_subs nc) nc' Ho). apply conn_inv_close_subs. exact Hi.
Qed.

Lemma WriteString_objs s nc nc' e :
  WriteString s nc = Ok (nc', e) -> objs nc' = objs nc.
Proof.
  unfold WriteString. destruct (bw nc) as [w|]; [|discriminate].
  intros [= H]. pose proof (WriteString_w_core (list_byte_of_string s) w nc) as [Hc _].
  destruct (WriteString_w (list_byte_of_string s) w nc) as [n e']; simpl in *.
  injection H as <- <-. destruct (core_fields _ _ Hc) as (_&_&_&_&_&_&_&_&_&_&Ho&_).
  exact Ho.
Qed.

Lemma kickFlusher_objs nc : objs (kickFlusher nc) = objs nc.
Proof. rewrite kickFlusher_fch. reflexivity. Qed.

Lemma processSlowConsumer_objs p s nc :
  objs (processSlowConsumer p s nc) = objs (store p (Subscription.set_sc true s) nc).
Proof.
  unfold processSlowConsumer. simpl. destruct (Options.AsyncErrorCB (Opts nc)); reflexivity.
Qed.

Lemma processMsg_inv n f nc nc' :
  0 <= n -> conn_inv (n + 1) nc -> processMsg f nc = Ok nc' -> conn_inv n nc'.
Proof.
  intros Hn Hi H. assert (Hi0 : conn_inv n nc) by (apply (conn_inv_weaken (n + 1)); [lia|exact Hi]).
  destruct f as [| e | subj reply sid buf]; unfold processMsg in H.
  - apply (Close_inv n _ _ H). exact Hi0.
  - apply (Close_inv n _ _ H). exact Hi0.
  - change (subs_lookup sid (set_InStats _ _ nc)) with (subs_lookup sid nc) in H.
    set (nc1 := set_InStats _ _ nc) in *.
    assert (Hi1 : conn_inv n nc1) by exact Hi0.
    destruct (subs_lookup sid nc) as [sub|] eqn:Hl.
    2:{ injection H as <-. exact Hi1. }
    destruct (_ && _) in H.
    { injection H as <-. exact Hi1. }
    apply subs_lookup_objs in Hl.
    destruct Hi as [Hlt Hall]. destruct (Hall sid sub Hl) as [(Hd & Hle & Hfa) Hm].
    assert (Hs : U64.add (Subscription.msgs sub) 1 = Subscription.msgs sub + 1).
    { apply u64_succ; lia. }
    set (sub1 := Subscription.set_counters _ _ sub) in H.
    assert (Hm1 : Subscription.msgs sub1 = Subscription.msgs sub + 1) by exact Hs.
    assert (Hb1 : Subscription.mailbox sub1 = Subscription.mailbox sub) by reflexivity.
    assert (Hd1 : Subscription.delivered sub1 = Subscription.delivered sub) by reflexivity.
    clearbody sub1.
    destruct (Subscription.mch sub1).
    + destruct (maxChanLen <=? _) in H.
      * injection H as <-.
        apply (conn_inv_objs n (store sid (Subscription.set_sc true sub1) nc1));
          [apply processSlowConsumer_objs|].
        apply conn_inv_store; [exact Hi1 | | simpl; lia].
        unfold sub_inv; simpl. rewrite Hb1, Hd1, Hm1. repeat split; try assumption; lia.
      * destruct (Chan.closed _) in H; [discriminate|]. injection H as <-.
        apply conn_inv_store; [exact Hi1 | | simpl; lia].
        unfold sub_inv; simpl. rewrite Hb1, Hd1, Hm1. rewrite length_app; simpl.
        repeat split; try lia. apply Forall_app. split; [exact Hfa|].
        constructor; [reflexivity|constructor].
    + injection H as <-. apply conn_inv_store; [exact Hi1 | | lia].
      unfold sub_inv. rewrite Hb1, Hd1, Hm1. repeat split; try assumption; lia.
Qed.

Lemma deliverMsgs_iter_inv n owner nc nc' l :
  0 <= n -> conn_inv n nc -> deliverMsgs_iter owner nc = Ok (nc', l) -> conn_inv n nc'.
Proof.
  intros Hn Hi H. unfold deliverMsgs_iter in H.
  destruct (isClosed nc); [injection H as <- _; exact Hi|].
  destruct (objs nc !! owner) as [o|] eqn:Ho; [|discriminate].
  destruct (Chan.buf (Subscription.mailbox o)) as [|m rest] eqn:Hb.
  { injection H as <- _. exact Hi. }
  pose proof Hi as [Hlt Hall]. destruct (Hall owner o Ho) as [(Hd & Hle & Hfa) Hm].
  rewrite Hb in Hle, Hfa. simpl in Hle.
  apply Forall_cons in Hfa as [Hsub Hfa].
  remember (Subscription.set_mailbox
              (Chan.mk rest (Chan.closed (Subscription.mailbox o))) o) as o1 eqn:Ho1.
  assert (Hd1 : Subscription.delivered o1 = Subscription.delivered o) by (subst o1; reflexivity).
  assert (Hm1 : Subscription.msgs o1 = Subscription.msgs o) by (subst o1; reflexivity).
  assert (Hb1 : Chan.buf (Subscription.mailbox o1) = rest) by (subst o1; reflexivity).
  clear Ho1.
  assert (Hi1 : conn_inv n (store owner o1 nc)).
  { apply conn_inv_store; [exact Hi | | lia].
    unfold sub_inv. rewrite Hd1, Hm1, Hb1. repeat split; try assumption; lia. }
  rewrite Hsub in H. unfold store at 1 in H. simpl in H.
  rewrite lookup_insert_eq in H.
  destruct (negb (Subscription.conn o1) || negb (Subscription.mcb o1)).
  { injection H as <- _. exact Hi1. }
  assert (Hs : U64.add (Subscription.delivered o1) 1 = Subscription.delivered o1 + 1).
  { apply u64_succ; lia. }
  rewrite Hs in H.
  assert (Hi2 : conn_inv n (store owner (Subscription.set_delivered
                                           (Subscription.delivered o1 + 1) o1)
                                  (store owner o1 nc))).
  { apply conn_inv_store; [exact Hi1 | | simpl; lia].
    unfold sub_inv; simpl. rewrite Hb1. repeat split; try assumption; lia. }
  destruct (_ || _) in H; injection H as <- _; exact Hi2.
Qed.

Lemma NextMsg_sub_inv k expired s s' r :
  sub_inv k s -> Subscription.msgs s < U64.modulus ->
  NextMsg expired s = (s', r) ->
  sub_inv k s' /\ Subscription.msgs s' = Subscription.msgs s.
Proof.
  intros (Hd & Hle & Hfa) Hm H. unfold NextMsg in H.
  destruct (negb (Subscription.mch s)); [injection H as <- _; repeat split; assumption|].
  destruct (Subscription.mcb s); [injection H as <- _; repeat split; assumption|].
  destruct (negb (Subscription.conn s)); [injection H as <- _; repeat split; assumption|].
  destruct (Subscription.sc s); [injection H as <- _; repeat split; assumption|].
  destruct (Chan.buf (Subscription.mailbox s)) as [|m rest] eqn:Hb.
  { destruct (_ && _) in H; injection H as <- _; rewrite <- Hb in *; repeat split; assumption. }
  destruct expired; [injection H as <- _; rewrite <- Hb in *; repeat split; assumption|].
  simpl in Hle. apply Forall_cons in Hfa as [_ Hfa].
  assert (Hs : U64.add (Subscription.delivered s) 1 = Subscription.delivered s + 1).
  { apply u64_succ; lia. }
  rewrite Hs in H.
  destruct (_ && _) in H; injection H as <- _; unfold sub_inv; simpl;
    repeat split; try assumption; lia.
Qed.

Lemma Conn_NextMsg_inv n expired p nc nc' r :
  conn_inv n nc -> 0 <= n -> Conn_NextMsg expired p nc = Ok (nc', r) -> conn_inv n nc'.
Proof.
  intros Hi Hn H. unfold Conn_NextMsg in H.
  destruct (objs nc !! p) as [s|] eqn:Hp; [|discriminate].
  destruct (NextMsg expired s) as [s1 r1] eqn:HN. injection H as <- _.
  pose proof Hi as [Hlt Hall]. destruct (Hall p s Hp) as [Hsi Hm].
  destruct (NextMsg_sub_inv p expired s s1 r1 Hsi) as [Hs1 Hm1]; [lia|exact HN|].
  apply conn_inv_store; [exact Hi | exact Hs1 | lia].
Qed.

Lemma subscribe_inv n subj queue cb nc nc' r :
  0 <= n -> conn_inv n nc -> subscribe subj queue cb nc = Ok (nc', r) -> conn_inv n nc'.
Proof.
  intros Hn Hi H. unfold subscribe in H.
  destruct (isClosed nc).
  { injection H as <- _. apply (conn_inv_objs n nc); [apply kickFlusher_objs|exact Hi]. }
  set (sid := U64.add (ssid nc) 1) in *.
  set (nc1 := set_subs _ _) in *.
  assert (Hi1 : conn_inv n nc1).
  { apply (conn_inv_objs n (store sid (Subscription.mk sid subj _EMPTY_ 0 0 0 0 true cb true
                                          Chan.make false) nc)); [reflexivity|].
    apply conn_inv_store; [exact Hi | | simpl; destruct Hi; lia].
    unfold sub_inv; simpl. repeat split; try lia. constructor. }
  destruct (isReconnecting nc1).
  { injection H as <- _. apply (conn_inv_objs n nc1); [apply kickFlusher_objs|exact Hi1]. }
  destruct (WriteString _ nc1) as [[nc2 e]|] eqn:HW; simpl in H; [|discriminate].
  injection H as <- _. apply (conn_inv_objs n nc1); [|exact Hi1].
  rewrite kickFlusher_objs. exact (WriteString_objs _ _ _ _ HW).
Qed.

Lemma unsubscribe_inv n p max nc nc' r :
  conn_inv n nc -> unsubscribe p max nc = Ok (nc', r) -> conn_inv n nc'.
Proof.
  intros Hi H. unfold unsubscribe in H.
  destruct (isClosed nc).
  { injection H as <- _. apply (conn_inv_objs n nc); [apply kickFlusher_objs|exact Hi]. }
  destruct (objs nc !! p) as [sub|]; [|discriminate].
  destruct (subs_lookup (Subscription.sid sub) nc) as [s|] eqn:Hl.
  2:{ injection H as <- _. apply (conn_inv_objs n nc); [apply kickFlusher_objs|exact Hi]. }
  apply subs_lookup_objs in Hl.
  pose proof Hi as [Hlt Hall]. destruct (Hall _ s Hl) as [Hsi Hm].
  set (nc1 := if 0 <? max then _ else _) in *.
  assert (Hi1 : conn_inv n nc1).
  { subst nc1. destruct (0 <? max).
    - apply conn_inv_store; [exact Hi | exact Hsi | exact Hm].
    - apply (conn_inv_objs n (store (Subscription.sid sub)
                (Subscription.set_conn false (Subscription.close_mch s)) nc)); [reflexivity|].
      apply conn_inv_store; [exact Hi | |].
      + apply sub_inv_close_mch in Hsi. exact Hsi.
      + unfold Subscription.close_mch. destruct (Subscription.mch s); exact Hm. }
  destruct (isReconnecting nc1).
  { injection H as <- _. apply (conn_inv_objs n nc1); [apply kickFlusher_objs|exact Hi1]. }
  destruct (WriteString _ nc1) as [[nc2 e]|] eqn:HW; simpl in H; [|discriminate].
  injection H as <- _. apply (conn_inv_objs n nc1); [|exact Hi1].
  rewrite kickFlusher_objs. exact (WriteString_objs _ _ _ _ HW).
Qed.

Lemma step_delivery_inv n op nc nc' :
  0 <= n -> conn_inv (n + 1) nc -> step_delivery op nc = Ok nc' -> conn_inv n nc'.
Proof.
  intros Hn Hi H.
  assert (Hi0 : conn_inv n nc) by (apply (conn_inv_weaken (n + 1)); [lia|exact Hi]).
  destruct op as [subj queue cb | p max | p | f | o | e p]; simpl in H.
  - destruct (subscribe subj queue cb nc) as [[nc1 r]|] eqn:Hs; [|discriminate].
    injection H as <-. exact (subscribe_inv n _ _ _ _ _ _ Hn Hi0 Hs).
  - unfold AutoUnsubscribe in H. destruct (objs nc !! p) as [s|]; [|discriminate].
    destruct (Subscription.conn s).
    + destruct (unsubscribe p max nc) as [[nc1 r]|] eqn:Hu; [|discriminate].
      injection H as <-. exact (unsubscribe_inv n _ _ _ _ _ Hi0 Hu).
    + injection H as <-. exact Hi0.
  - unfold Unsubscribe in H. destruct (objs nc !! p) as [s|]; [|discriminate].
    destruct (Subscription.conn s).
    + destruct (unsubscribe p 0 nc) as [[nc1 r]|] eqn:Hu; [|discriminate].
      injection H as <-. exact (unsubscribe_inv n _ _ _ _ _ Hi0 Hu).
    + injection H as <-. exact Hi0.
  - exact (processMsg_inv n f nc nc' Hn Hi H).
  - destruct (deliverMsgs_iter o nc) as [[nc1 l]|] eqn:Hd; [|discriminate].
    injection H as <-. exact (deliverMsgs_iter_inv n _ _ _ _ Hn Hi0 Hd).
  - destruct (Conn_NextMsg e p nc) as [[nc1 r]|] eqn:Hd; [|discriminate].
    injection H as <-. exact (Conn_NextMsg_inv n _ _ _ _ _ Hi0 Hn Hd).
Qed.

Lemma run_delivery_inv ops :
  forall nc nc', conn_inv (Z.of_nat (length ops)) nc -> run_delivery ops nc = Ok nc' ->
                 conn_inv 0 nc'.
Proof.
  induction ops as [|op r IH]; intros nc nc' Hi H; simpl in H.
  - injection H as <-. exact Hi.
  - destruct (step_delivery op nc) as [nc1|] eqn:Hs; [|discriminate]. simpl in H.
    apply (IH nc1 nc'); [|exact H].
    apply (step_delivery_inv _ op nc); [lia| |exact Hs].
    replace (Z.of_nat (length r) + 1) with (Z.of_nat (length (op :: r))); [exact Hi|].
    simpl length. lia.
Qed.

(** A message is handed to the application only within the budget. *)
Lemma NextMsg_gated expired s s' m :
  NextMsg expired s = (s', inr m) ->
  Subscription.max s' = Subscription.max s /\
  (0 < Subscription.max s' -> Subscription.delivered s' <= Subscription.max s').
Proof.
  unfold NextMsg.
  destruct (negb (Subscription.mch s)); [discriminate|].
  destruct (Subscription.mcb s); [discriminate|].
  destruct (negb (Subscription.conn s)); [discriminate|].
  destruct (Subscription.sc s); [discriminate|].
  destruct (Chan.buf (Subscription.mailbox s)) as [|m0 rest].
  { destruct (_ && _); discriminate. }
  destruct expired; [discriminate|]. simpl.
  destruct (0 <? Subscription.max s) eqn:H1; simpl.
  - destruct (Subscription.max s <? U64.add (Subscription.delivered s) 1) eqn:H2;
      [discriminate|].
    intros [= <- _]. simpl. split; [reflexivity|]. intros _. apply Z.ltb_ge in H2. exact H2.
  - intros [= <- _]. simpl. split; [reflexivity|]. apply Z.ltb_ge in H1. lia.
Qed.

Lemma deliverMsgs_gated owner nc nc' l p m :
  deliverMsgs_iter owner nc = Ok (nc', l) ->
  trace nc' = trace nc ++ [EvMsgCB p m] ->
  exists s', objs nc' !! p = Some s' /\
             (0 < Subscription.max s' -> Subscription.delivered s' <= Subscription.max s').
Proof.
  unfold deliverMsgs_iter.
  assert (Hno : forall t : list Event, t <> t ++ [EvMsgCB p m]).
  { intros t Ht. apply (f_equal (@length _)) in Ht. rewrite length_app in Ht. simpl in Ht. lia. }
  destruct (isClosed nc); [intros [= <- _] Ht; destruct (Hno _ Ht)|].
  destruct (objs nc !! owner) as [o|]; [|discriminate].
  destruct (Chan.buf (Subscription.mailbox o)) as [|m0 rest].
  { intros [= <- _] Ht; destruct (Hno _ Ht). }
  destruct (objs _ !! Msg.Sub m0) as [s|]; [|discriminate].
  destruct (_ || _). { intros [= <- _] Ht; destruct (Hno _ Ht). }
  destruct (Subscription.max s <=? 0) eqn:H1; simpl.
  - intros [= <- _] Ht. simpl in Ht. apply app_inv_head in Ht. injection Ht as -> ->.
    eexists. unfold store; simpl. rewrite lookup_insert_eq. split; [reflexivity|].
    simpl. apply Z.leb_le in H1. lia.
  - destruct (_ <=? Subscription.max s) eqn:H2.
    + intros [= <- _] Ht. simpl in Ht. apply app_inv_head in Ht. injection Ht as -> ->.
      eexists. unfold store; simpl. rewrite lookup_insert_eq. split; [reflexivity|].
      simpl. apply Z.leb_le in H2. lia.
    + intros [= <- _] Ht. destruct (Hno _ Ht).
Qed.

Lemma example_conn_inv n : n < U64.modulus -> conn_inv n example_conn.
Proof.
  intros Hn. split; [exact Hn|]. intros k s H. simpl in H.
  rewrite lookup_empty in H. discriminate.
Defined.

(** C2, as the code has it.  In every state reached by subscribing,
    unsubscribing, message arrival ([processMsg]), asynchronous delivery
    ([deliverMsgs]) and synchronous pulling ([NextMsg]), as long as the
    enqueued-message counters have not wrapped around, the delivered counter
    of a subscription is at most its enqueued-message counter.  The delivered
    counter itself is not bounded by [max]: it is advanced before the budget
    is tested; what the budget bounds is the hand-over: [NextMsg] returns a
    message, and [deliverMsgs] calls the callback, only when [max] is zero or
    the advanced delivered counter is at most [max]. *)
Theorem delivered_within_enqueued :
  (forall ops nc nc',
     conn_inv (Z.of_nat (length ops)) nc -> run_delivery ops nc = Ok nc' ->
     forall p s, objs nc' !! p = Some s ->
       Subscription.delivered s <= Subscription.msgs s) /\
  (forall expired s s' m,
     NextMsg expired s = (s', inr m) -> 0 < Subscription.max s' ->
     Subscription.delivered s' <= Subscription.max s') /\
  (forall owner nc nc' l p m,
     deliverMsgs_iter owner nc = Ok (nc', l) ->
     trace nc' = trace nc ++ [EvMsgCB p m] ->
     exists s', objs nc' !! p = Some s' /\
                (0 < Subscription.max s' ->
                 Subscription.delivered s' <= Subscription.max s')).
Proof.
  split; [|split].
  - intros ops nc nc' Hi H p s Hp.
    destruct (run_delivery_inv ops nc nc' Hi H) as [_ Hall].
    destruct (Hall p s Hp) as [(Hd & Hle & _) _]. lia.
  - intros expired s s' m H. apply (NextMsg_gated expired s s' m H).
  - intros owner nc nc' l p m. apply deliverMsgs_gated.
Qed.

Lemma delivered_within_enqueued_witness :
  match run_delivery late_budget_ops example_conn with
  | Ok nc' =>
      forall p s, objs nc' !! p = Some s ->
        Subscription.delivered s <= Subscription.msgs s
  | Panic _ => False
  end.
Proof.
  destruct (run_delivery late_budget_ops example_conn) as [nc'|why] eqn:H.
  - apply (proj1 delivered_within_enqueued late_budget_ops example_conn nc').
    + apply example_conn_inv. reflexivity.
    + exact H.
  - vm_compute in H. discriminate.
Defined.

(** C2, as stated, fails: a budget that is set after messages were enqueued
    is passed by the delivered counter. *)
Lemma delivered_exceeds_max_counterexample :
  exists nc' s,
    run_delivery late_budget_ops example_conn = Ok nc' /\
    objs nc' !! 1 = Some s /\
    Subscription.max s = 1 /\ Subscription.delivered s = 2 /\
    0 < Subscription.max s /\ ~ Subscription.delivered s <= Subscription.max s.
Proof.
  eexists. eexists. split; [vm_compute; reflexivity|].
  split; [vm_compute; reflexivity|]. simpl.
  repeat split; try reflexivity. intros H. vm_compute in H. apply H. reflexivity.
Qed.

(** ** Publishing *)

Lemma publish_closed subj reply data nc :
  isClosed nc = true ->
  publish subj reply data nc
  = Ok (set_fch (fch (kickFlusher nc)) nc, Some ErrConnectionClosed).
Proof.
  intros H. unfold publish. rewrite H. rewrite kickFlusher_fch at 1. reflexivity.
Qed.

Lemma publish_ok subj reply data nc :
  isClosed nc = false -> writable nc ->
  exists nc',
    publish subj reply data nc = Ok (nc', None) /\
    outbound nc' = outbound nc ++ pub_bytes subj reply data /\
    writable nc' /\ writer_kind nc' = writer_kind nc /\ status nc' = status nc /\
    OutMsgs nc' = U64.add (OutMsgs nc) 1 /\
    OutBytes nc' = U64.add (OutBytes nc) (U64.wrap (len data)).
Proof.
  intros Hcl Hw. unfold publish. rewrite Hcl.
  destruct (Write_ok (list_byte_of_string (pubProto subj reply (len data))) nc Hw)
    as (nc1 & -> & Hw1 & Ho1 & Hc1 & Hk1). simpl.
  destruct (Write_ok data nc1 Hw1) as (nc2 & -> & Hw2 & Ho2 & Hc2 & Hk2). simpl.
  destruct (WriteString_ok _CRLF_ nc2 Hw2) as (nc3 & -> & Hw3 & Ho3 & Hc3 & Hk3). simpl.
  rewrite kickFlusher_fch. eexists. split; [reflexivity|].
  destruct (core_fields _ _ Hc1) as (_&Hm1&_&Hb1&_&_&_&_&_&_&_&_&Hs1&_).
  destruct (core_fields _ _ Hc2) as (_&Hm2&_&Hb2&_&_&_&_&_&_&_&_&Hs2&_).
  destruct (core_fields _ _ Hc3) as (_&Hm3&_&Hb3&_&_&_&_&_&_&_&_&Hs3&_).
  split; [|split; [exact Hw3|split; [|split; [|split]]]].
  - change (outbound nc3 = outbound nc ++ pub_bytes subj reply data).
    rewrite Ho3, Ho2, Ho1. unfold pub_bytes. rewrite <- !app_assoc. reflexivity.
  - change (writer_kind nc3 = writer_kind nc). congruence.
  - simpl. congruence.
  - simpl. congruence.
  - simpl. congruence.
Qed.





(** ** The pending buffer *)

Lemma processReconnect_spec nc :
  isClosed nc = false -> conn nc = None \/ is_Some (bw nc) ->
  exists nc',
    processReconnect nc = Ok nc' /\ status nc' = RECONNECTING /\
    pending nc' = Some [] /\ conn nc' = None /\
    bw nc' = Some (Writer.NewWriterSize ToPending defaultPendingSize) /\
    pongs nc' = pongs nc /\ objs nc' = objs nc /\ subs nc' = subs nc.
Proof.
  intros Hcl Hbw. unfold processReconnect. rewrite Hcl. simpl.
  destruct (conn nc) as [c|] eqn:Hc.
  - destruct Hbw as [Hbw|Hbw]; [discriminate|].
    destruct (Flush_total (set_status RECONNECTING nc) Hbw) as (n & e & -> & Hcn & Hbn).
    simpl. rewrite (kickFlusher_fch (set_conn None _)).
    destruct (core_fields _ _ Hcn) as (_&_&_&_&_&Ho&_&_&_&Hsu&Hob&Hp&Hst&_).
    simpl in *. rewrite Ho.
    eexists. split; [reflexivity|].
    destruct (Options.DisconnectedCB (Opts nc)); simpl; repeat split; try reflexivity; assumption.
  - simpl. rewrite (kickFlusher_fch (set_conn None _)). simpl.
    eexists. split; [reflexivity|].
    destruct (Options.DisconnectedCB (Opts nc)); simpl; repeat split.
Qed.





(** ** Replay of the subscriptions *)

Lemma write_ok_refl nc : writable nc -> write_ok [] nc nc.
Proof.
  intros H. repeat split; try assumption; try reflexivity.
  rewrite app_nil_r. reflexivity.
Qed.

Lemma WriteStrings_ok l :
  forall nc, writable nc ->
    exists nc', WriteStrings l nc = Ok nc' /\ write_ok (lines_bytes l) nc nc'.
Proof.
  induction l as [|s l IH]; intros nc Hw; simpl.
  - exists nc. split; [reflexivity|]. apply write_ok_refl. exact Hw.
  - destruct (WriteString_ok s nc Hw) as (nc1 & -> & Hok1). simpl.
    destruct (IH nc1 (proj1 Hok1)) as (nc' & -> & Hok).
    exists nc'. split; [reflexivity|].
    unfold lines_bytes; simpl. apply (write_ok_trans _ _ nc nc1 nc'); assumption.
Qed.

Lemma resend_writes_in_replay nc p s :
  subs_lookup p nc = Some s ->
  exists pre post, resendSubscriptions_writes nc = pre ++ resend_writes s ++ post.
Proof.
  unfold subs_lookup. destruct (decide (p ∈ subs nc)) as [Hin|]; [|discriminate].
  intros Hp.
  assert (Hs : s ∈ subs_values nc).
  { unfold subs_values. apply list_elem_of_omap. exists p. split; [|exact Hp].
    apply elem_of_elements. exact Hin. }
  apply list_elem_of_split in Hs as (l1 & l2 & Hl).
  unfold resendSubscriptions_writes. rewrite Hl.
  rewrite flat_map_app. simpl. eauto.
Qed.

(** C1, as the code has it.  The replay writes, for every subscription of
    the registry, its SUB line and, when [max > 0], directly after it an UNSUB
    line whose count is [max] itself: the delivered count plays no part.  On a
    working writer these lines, and nothing else, are added to what is
    outbound. *)
Theorem resend_replays_registry :
  forall nc, writable nc ->
    exists nc',
      resendSubscriptions nc = Ok nc' /\
      outbound nc' = outbound nc ++ lines_bytes (resendSubscriptions_writes nc) /\
      forall p s, subs_lookup p nc = Some s ->
        exists pre post,
          resendSubscriptions_writes nc
          = pre ++ (subProto (Subscription.Subject s) (Subscription.Queue s)
                      (Subscription.sid s)
                    :: (if 0 <? Subscription.max s
                        then [unsubProto (Subscription.sid s)
                                (Itoa (U64.to_int (Subscription.max s)))]
                        else [])) ++ post.
Proof.
  intros nc Hw. unfold resendSubscriptions.
  destruct (WriteStrings_ok (resendSubscriptions_writes nc) nc Hw) as (nc' & H1 & _ & H2 & _).
  exists nc'. split; [exact H1|]. split; [exact H2|].
  intros p s Hp. apply (resend_writes_in_replay nc p s Hp).
Qed.

Lemma replay_conn_writable : writable replay_conn.
Proof.
  unfold writable; simpl.
  split; [reflexivity|]. split; [reflexivity|]. split; [discriminate|]. eauto.
Defined.

Lemma resend_replays_registry_witness :
  exists nc',
    resendSubscriptions replay_conn = Ok nc' /\
    outbound nc' = outbound replay_conn ++ lines_bytes (resendSubscriptions_writes replay_conn) /\
    forall p s, subs_lookup p replay_conn = Some s ->
      exists pre post,
        resendSubscriptions_writes replay_conn
        = pre ++ (subProto (Subscription.Subject s) (Subscription.Queue s)
                    (Subscription.sid s)
                  :: (if 0 <? Subscription.max s
                      then [unsubProto (Subscription.sid s)
                              (Itoa (U64.to_int (Subscription.max s)))]
                      else [])) ++ post.
Proof.
  apply (resend_replays_registry replay_conn). exact replay_conn_writable.
Defined.

(** C1, as stated, fails: with [max = 10] and three messages delivered, the
    replay of the reconnect sends [UNSUB 1 10], not [UNSUB 1 7]. *)
Lemma replay_sends_max_counterexample :
  (exists nc1, run_delivery replay_ops example_conn = Ok nc1 /\
               processReconnect nc1 = Ok replay_conn) /\
  subs_lookup 1 replay_conn = Some replay_sub /\
  Subscription.max replay_sub = 10 /\ Subscription.delivered replay_sub = 3 /\
  resendSubscriptions_writes replay_conn = [subProto "foo" "" 1; unsubProto 1 "10"] /\
  ~ In (unsubProto 1 (Itoa (Subscription.max replay_sub - Subscription.delivered replay_sub)))
       (resendSubscriptions_writes replay_conn) /\
  exists nc3,
    doReconnect example_cProto network_up replay_conn = Ok (nc3, true) /\
    outbound nc3 = lines_bytes [example_cProto; subProto "foo" "" 1; unsubProto 1 "10"].
Proof.
  split.
  { eexists. split; vm_compute; reflexivity. }
  split; [vm_compute; reflexivity|].
  split; [reflexivity|]. split; [reflexivity|].
  split; [vm_compute; reflexivity|].
  split.
  { intros H. vm_compute in H. destruct H as [H|[H|[]]]; discriminate. }
  eexists. split; vm_compute; reflexivity.
Qed.

(** ** Running out of reconnect attempts *)

Lemma doReconnect_loop_down cProto env :
  (forall i, exists e, dial (env i) = DialErr e) ->
  forall n i nc, isClosed nc = false ->
    exists nc',
      doReconnect_loop cProto env i n nc = Ok (nc', false) /\
      status nc' = status nc /\ pongs nc' = pongs nc /\ objs nc' = objs nc /\
      subs nc' = subs nc /\ trace nc' = trace nc /\
      bw nc' = bw nc /\ pending nc' = pending nc.
Proof.
  intros Hdown. induction n as [|n IH]; intros i nc Hcl; simpl.
  - exists nc. repeat split.
  - rewrite Hcl. destruct (Hdown i) as [e He]. unfold createConn. rewrite He. simpl.
    destruct (IH (S i) (set_err None (set_err (Some e) (set_conn None nc))) Hcl)
      as (nc' & H & H1 & H2 & H3 & H4 & H5 & H6 & H7).
    exists nc'. split; [exact H|]. repeat split; assumption.
Qed.

Lemma close_mch_closed s :
  Subscription.mch (Subscription.close_mch s) = false /\
  (Subscription.mch s = true ->
   Chan.closed (Subscription.mailbox (Subscription.close_mch s)) = true).
Proof.
  unfold Subscription.close_mch. destruct (Subscription.mch s) eqn:H; simpl.
  - split; reflexivity.
  - split; [exact H|discriminate].
Qed.

(** C7, as the code has it.  When every dial of the reconnect loop fails,
    [doReconnect] returns after its last attempt and does nothing more: the
    status is still RECONNECTING, the flush waiters and the subscriptions are
    as they were, and no callback was called.  It is [Close], when it is
    called on a connection that is not yet closed, that sets the status to
    CLOSED, signals every flush waiter that was not voided and empties the
    queue, closes the mailbox of every subscription of the registry, and calls
    the closed callback if there is one. *)
Theorem reconnect_exhausted_stays_reconnecting :
  (forall cProto env nc,
     status nc = RECONNECTING ->
     (forall i, exists e, dial (env i) = DialErr e) ->
     exists nc',
       doReconnect cProto env nc = Ok (nc', false) /\
       status nc' = RECONNECTING /\ pongs nc' = pongs nc /\
       objs nc' = objs nc /\ subs nc' = subs nc /\ trace nc' = trace nc) /\
  (forall nc,
     isClosed nc = false -> conn nc = None \/ is_Some (bw nc) ->
     exists nc',
       Close nc = Ok nc' /\ status nc' = CLOSED /\ pongs nc' = [] /\ subs nc' = ∅ /\
       trace nc' = trace nc ++ signals (pongs nc) ++
         (if (if conn nc is Some _ then true else false) && Options.DisconnectedCB (Opts nc)
          then [EvDisconnectedCB] else []) ++
         (if Options.ClosedCB (Opts nc) then [EvClosedCB] else []) /\
       forall p s, subs_lookup p nc = Some s ->
         exists s', objs nc' !! p = Some s' /\ Subscription.mch s' = false /\
                    (Subscription.mch s = true ->
                     Chan.closed (Subscription.mailbox s') = true)).
Proof.
  split.
  - intros cProto env nc Hst Hdown. unfold doReconnect.
    assert (Hcl : isClosed nc = false) by (unfold isClosed; rewrite Hst; reflexivity).
    destruct (doReconnect_loop_down cProto env Hdown
                (Z.to_nat (U64.to_int (Options.MaxReconnect (Opts nc)))) 0%nat nc Hcl)
      as (nc' & H & H1 & H2 & H3 & H4 & H5 & _).
    exists nc'. split; [exact H|]. repeat split; try assumption. congruence.
  - intros nc Hcl Hbw.
    destruct (Close_spec nc Hcl Hbw) as (nc' & H & H1 & H2 & H3 & H4 & H5).
    exists nc'. split; [exact H|]. repeat split; try assumption.
    intros p s Hp. exists (Subscription.close_mch s).
    split; [|apply close_mch_closed].
    rewrite H4, close_subs_lookup. unfold subs_lookup in Hp.
    destruct (decide (p ∈ subs nc)); [|discriminate]. rewrite Hp. reflexivity.
Qed.

Lemma stuck_conn_down : forall i, exists e, dial (network_down i) = DialErr e.
Proof. intros i. exists ErrIO. reflexivity. Defined.

Lemma reconnect_exhausted_stays_reconnecting_witness :
  (exists nc',
     doReconnect example_cProto network_down stuck_conn = Ok (nc', false) /\
     status nc' = RECONNECTING /\ pongs nc' = pongs stuck_conn /\
     objs nc' = objs stuck_conn /\ subs nc' = subs stuck_conn /\
     trace nc' = trace stuck_conn) /\
  (exists nc',
     Close stuck_conn = Ok nc' /\ status nc' = CLOSED /\ pongs nc' = [] /\ subs nc' = ∅ /\
     trace nc' = trace stuck_conn ++ signals (pongs stuck_conn) ++
       (if (if conn stuck_conn is Some _ then true else false)
           && Options.DisconnectedCB (Opts stuck_conn)
        then [EvDisconnectedCB] else []) ++
       (if Options.ClosedCB (Opts stuck_conn) then [EvClosedCB] else []) /\
     forall p s, subs_lookup p stuck_conn = Some s ->
       exists s', objs nc' !! p = Some s' /\ Subscription.mch s' = false /\
                  (Subscription.mch s = true ->
                   Chan.closed (Subscription.mailbox s') = true)).
Proof.
  destruct reconnect_exhausted_stays_reconnecting as [Hdown Hclose]. split.
  - apply (Hdown example_cProto network_down stuck_conn); [reflexivity|exact stuck_conn_down].
  - apply (Hclose stuck_conn); [reflexivity | left; reflexivity].
Defined.

(** C7, as stated, fails: after ten failed dials the connection is still
    RECONNECTING, its flush waiter is still queued and was not signalled, the
    mailbox is open and the closed callback was not called. *)
Lemma reconnect_exhausted_counterexample :
  status stuck_conn = RECONNECTING /\
  Options.MaxReconnect (Opts stuck_conn) = 10 /\
  Options.ClosedCB (Opts stuck_conn) = true /\
  exists nc',
    doReconnect example_cProto network_down stuck_conn = Ok (nc', false) /\
    status nc' <> CLOSED /\
    pongs nc' = [Some 0%nat] /\
    trace nc' = [EvDoReconnect] /\
    ~ In EvClosedCB (trace nc') /\
    exists s, objs nc' !! 1 = Some s /\ Subscription.mch s = true /\
              Chan.closed (Subscription.mailbox s) = false.
Proof.
  split; [reflexivity|]. split; [reflexivity|]. split; [reflexivity|].
  eexists. split; [vm_compute; reflexivity|].
  split; [discriminate|]. split; [reflexivity|]. split; [reflexivity|].
  split.
  { simpl. intros [H|[]]. discriminate. }
  eexists. split; [vm_compute; reflexivity|]. split; reflexivity.
Qed.

(** ** Frame properties from a returned result *)

Lemma WriteString_core s nc nc' e :
  WriteString s nc = Ok (nc', e) -> core nc' = core nc /\ is_Some (bw nc').
Proof.
  unfold WriteString. destruct (bw nc) as [w|]; [|discriminate].
  intros [= H]. pose proof (WriteString_w_core (list_byte_of_string s) w nc) as [Hc Hb].
  destruct (WriteString_w (list_byte_of_string s) w nc) as [n e']; simpl in *.
  injection H as <- <-. split; assumption.
Qed.

Lemma Flush_core nc nc' e :
  Flush nc = Ok (nc', e) -> core nc' = core nc /\ is_Some (bw nc').
Proof.
  unfold Flush. destruct (bw nc) as [w|]; [|discriminate].
  intros [= H]. pose proof (Flush_w_core w nc) as [Hc Hb].
  destruct (Flush_w w nc) as [n e']; simpl in *.
  injection H as <- <-. split; assumption.
Qed.

Lemma FlushTimeout_begin_frame t nc nc' r :
  FlushTimeout_begin t nc = Ok (nc', r) ->
  status nc' = status nc /\ objs nc' = objs nc /\ subs nc' = subs nc /\
  trace nc' = trace nc.
Proof.
  unfold FlushTimeout_begin.
  destruct (t <=? 0); [intros [= <- _]; repeat split|].
  destruct (isClosed nc); [intros [= <- _]; repeat split|].
  destruct (WriteString pingProto _) as [[n2 e2]|] eqn:HW; [|discriminate]. simpl.
  destruct (Flush n2) as [[n3 e3]|] eqn:HF; [|discriminate]. simpl.
  intros [= <- _].
  destruct (WriteString_core _ _ _ _ HW) as [Hc2 _].
  destruct (Flush_core _ _ _ HF) as [Hc3 _].
  destruct (core_fields _ _ Hc2) as (_&_&_&_&_&_&_&_&_&Hsu2&Ho2&_&Hs2&_&Ht2&_).
  destruct (core_fields _ _ Hc3) as (_&_&_&_&_&_&_&_&_&Hsu3&Ho3&_&Hs3&_&Ht3&_).
  simpl in *. repeat split; congruence.
Qed.

(** ** More of the flush barrier *)

Lemma void_entry_spec ch l :
  length (fst (void_entry ch l)) = length l /\
  (snd (void_entry ch l) = false -> fst (void_entry ch l) = l /\ (Some ch ∉ l)) /\
  (snd (void_entry ch l) = true ->
   exists pre post, l = pre ++ Some ch :: post /\ (Some ch ∉ pre) /\
                    fst (void_entry ch l) = pre ++ None :: post).
Proof.
  induction l as [|c l (IHlen & IHf & IHt)]; simpl.
  - split; [reflexivity|]. split; [|discriminate]. intros _. split; [reflexivity|].
    apply not_elem_of_nil.
  - destruct (decide (c = Some ch)) as [->|Hne]; simpl.
    + split; [reflexivity|]. split; [discriminate|]. intros _.
      exists [], l. split; [reflexivity|]. split; [apply not_elem_of_nil|reflexivity].
    + destruct (void_entry ch l) as [r b]; simpl in *.
      split; [rewrite IHlen; reflexivity|]. split.
      * intros Hb. destruct (IHf Hb) as [-> Hn]. split; [reflexivity|].
        intros Hin. apply elem_of_cons in Hin as [Heq|Hin]; [congruence|contradiction].
      * intros Hb. destruct (IHt Hb) as (pre & post & -> & Hn & ->).
        exists (c :: pre), post. split; [reflexivity|]. split; [|reflexivity].
        intros Hin. apply elem_of_cons in Hin as [Heq|Hin]; [congruence|contradiction].
Qed.

(** X1.  [removeFlushEntry] voids the first queued entry that is the given
    channel and nothing else: the queue keeps its length, so the PONGs that
    follow still meet the waiters they belong to; it answers whether the
    channel was queued. *)
Theorem removeFlushEntry_voids_first :
  forall ch nc,
    length (pongs (fst (removeFlushEntry ch nc))) = length (pongs nc) /\
    fst (removeFlushEntry ch nc) = set_pongs (pongs (fst (removeFlushEntry ch nc))) nc /\
    (snd (removeFlushEntry ch nc) = false ->
     pongs (fst (removeFlushEntry ch nc)) = pongs nc /\ (Some ch ∉ pongs nc)) /\
    (snd (removeFlushEntry ch nc) = true ->
     exists pre post,
       pongs nc = pre ++ Some ch :: post /\ (Some ch ∉ pre) /\
       pongs (fst (removeFlushEntry ch nc)) = pre ++ None :: post).
Proof.
  intros ch nc. unfold removeFlushEntry.
  pose proof (void_entry_spec ch (pongs nc)) as (H1 & H2 & H3).
  destruct (void_entry ch (pongs nc)) as [l b]; simpl in *.
  repeat split; try assumption; try (apply H2; assumption).
Qed.

Lemma void_entry_fresh ch q :
  Some ch ∉ q -> void_entry ch (q ++ [Some ch]) = (q ++ [None], true).
Proof.
  induction q as [|c q IH]; intros Hn; simpl.
  - destruct (decide (Some ch = Some ch)); [reflexivity|congruence].
  - destruct (decide (c = Some ch)) as [->|Hne].
    + exfalso. apply Hn. left.
    + rewrite IH; [reflexivity|]. intros Hin. apply Hn. right. exact Hin.
Qed.

Lemma signals_app q1 q2 : signals (q1 ++ q2) = signals q1 ++ signals q2.
Proof. unfold signals. rewrite omap_app, map_app. reflexivity. Qed.

(** X2.  A flush that fails leaves no live waiter behind.  The two guards
    (timeout not positive, connection closed) return before the queue is
    touched.  A flush that was queued and then times out returns the timeout
    error and voids its own entry, which stays in the queue; the PONGs that
    arrive afterwards signal exactly the waiters that were already queued, and
    the late PONG of the timed-out flush signals nobody. *)
Theorem failed_flush_leaves_no_waiter :
  (forall t nc, t <= 0 -> FlushTimeout_begin t nc = Ok (nc, inl ErrBadTimeout)) /\
  (forall t nc, 0 < t -> isClosed nc = true ->
     FlushTimeout_begin t nc = Ok (nc, inl ErrConnectionClosed)) /\
  (forall t nc, 0 < t -> isClosed nc = false -> writable nc -> pongs_fresh nc ->
     exists nc1 nc2 nc3,
       FlushTimeout_begin t nc = Ok (nc1, inr (chseq nc)) /\
       FlushTimeout_end (chseq nc) FlushTimerFired nc1 = (nc2, Some ErrTimeout) /\
       pongs nc2 = pongs nc ++ [None] /\
       run_queue (replicate (length (pongs nc2)) OpPong) nc2 = Ok nc3 /\
       pongs nc3 = [] /\
       trace nc3 = trace nc ++ signals (pongs nc)).
Proof.
  split; [|split].
  - intros t nc Ht. unfold FlushTimeout_begin.
    replace (t <=? 0) with true by (symmetry; apply Z.leb_le; exact Ht). reflexivity.
  - intros t nc Ht Hcl. unfold FlushTimeout_begin.
    replace (t <=? 0) with false by (symmetry; apply Z.leb_gt; exact Ht).
    rewrite Hcl. reflexivity.
  - intros t nc Ht Hcl Hw Hfr.
    destruct (FlushTimeout_begin_ok t nc Ht Hcl Hw) as (nc1 & H1 & Hp1 & _ & _).
    assert (Hn : Some (chseq nc) ∉ pongs nc).
    { intros Hin. specialize (Hfr _ Hin). lia. }
    assert (Hbt : trace nc1 = trace nc).
    { destruct (FlushTimeout_begin_frame t nc nc1 _ H1) as (_ & _ & _ & Ht1). exact Ht1. }
    set (nc2 := fst (removeFlushEntry (chseq nc) nc1)).
    assert (Hp2 : pongs nc2 = pongs nc ++ [None]).
    { subst nc2. unfold removeFlushEntry. rewrite Hp1, (void_entry_fresh _ _ Hn).
      reflexivity. }
    destruct (drain_queue (pongs nc2) nc2 eq_refl) as (nc3 & H3 & Hp3 & Ht3).
    exists nc1, nc2, nc3. split; [exact H1|]. split; [reflexivity|].
    split; [exact Hp2|]. split; [exact H3|]. split; [exact Hp3|].
    rewrite Ht3. fold (signals (pongs nc2)). rewrite Hp2, signals_app.
    unfold signals at 2; simpl. rewrite app_nil_r.
    replace (trace nc2) with (trace nc1); [rewrite Hbt; reflexivity|].
    subst nc2. unfold removeFlushEntry. destruct (void_entry _ _). reflexivity.
Qed.

Lemma failed_flush_leaves_no_waiter_witness :
  exists nc1 nc2 nc3,
    FlushTimeout_begin 1 example_conn = Ok (nc1, inr (chseq example_conn)) /\
    FlushTimeout_end (chseq example_conn) FlushTimerFired nc1 = (nc2, Some ErrTimeout) /\
    pongs nc2 = pongs example_conn ++ [None] /\
    run_queue (replicate (length (pongs nc2)) OpPong) nc2 = Ok nc3 /\
    pongs nc3 = [] /\
    trace nc3 = trace example_conn ++ signals (pongs example_conn).
Proof.
  apply (proj2 (proj2 failed_flush_leaves_no_waiter) 1 example_conn).
  - lia.
  - reflexivity.
  - exact example_conn_writable.
  - intros c H. simpl in H. apply elem_of_nil in H. contradiction.
Defined.

(** ** Closing *)

Lemma wr_Write_conn_some d p nc c :
  conn nc = Some c -> exists c', conn (fst (wr_Write d p nc)) = Some c'.
Proof.
  intros Hc. destruct d; simpl.
  - rewrite Hc. destruct (NetConn.up c); simpl; eauto.
  - destruct (pending nc); simpl; eauto.
Qed.

Lemma Flush_conn_some nc nc' e c :
  Flush nc = Ok (nc', e) -> conn nc = Some c -> exists c', conn nc' = Some c'.
Proof.
  unfold Flush. destruct (bw nc) as [w|]; [|discriminate]. intros [= H] Hc.
  unfold Flush_w in H. destruct (Writer.err w).
  { injection H as <- _. simpl. eauto. }
  destruct (Writer.Buffered w =? 0).
  { injection H as <- _. simpl. eauto. }
  pose proof (wr_Write_conn_some (Writer.wr w) (Writer.buf w) nc c Hc) as [c' Hc'].
  destruct (wr_Write (Writer.wr w) (Writer.buf w) nc) as [n1 [e1|]]; simpl in *;
    injection H as <- _; simpl; eauto.
Qed.


Lemma Status_eqb_eq a b : Status_eqb a b = true <-> a = b.
Proof. destruct a, b; simpl; split; intros H; try reflexivity; discriminate. Qed.

(** [Close] on a connection that is not closed, with every field of the
    result. *)
Lemma Close_fields nc :
  isClosed nc = false -> conn nc = None \/ is_Some (bw nc) ->
  exists nc',
    Close nc = Ok nc' /\ status nc' = CLOSED /\ err nc' = err nc /\
    Opts nc' = Opts nc /\
    trace nc' = trace nc ++ signals (pongs nc) ++
      (if (if conn nc is Some _ then true else false) && Options.DisconnectedCB (Opts nc)
       then [EvDisconnectedCB] else []) ++
      (if Options.ClosedCB (Opts nc) then [EvClosedCB] else []) /\
    (forall c, conn nc = Some c -> exists c', conn nc' = Some c' /\ NetConn.up c' = false).
Proof.
  intros Hcl Hbw. unfold Close. rewrite Hcl.
  rewrite (kickFlusher_fch (set_status CLOSED nc)).
  generalize (fch (kickFlusher (set_status CLOSED nc))). intros f.
  rewrite clearPendingFlushCalls_eq. simpl.
  destruct (conn nc) as [c|] eqn:Hc; simpl.
  - destruct Hbw as [Hbw|Hbw]; [discriminate|].
    destruct (Options.DisconnectedCB (Opts nc)) eqn:Hdb; simpl; rewrite Hc;
      match goal with
      | |- context [Flush ?x] =>
          destruct (Flush_total x Hbw) as (n & e & HF & Hcn & Hbn);
          pose proof (Flush_conn_some x n e c HF Hc) as (c1 & Hc1);
          rewrite HF
      end; simpl;
      destruct (core_fields _ _ Hcn) as (_&_&_&_&_&Ho&_&_&_&Hsu&Hob&Hp&Hs&He&Ht&_);
      simpl in *; rewrite Ho;
      (eexists; split; [reflexivity|]);
      destruct (Options.ClosedCB (Opts nc)) eqn:Hcb; simpl;
      rewrite ?Hs, ?Hp, ?Hsu, ?Hob, ?Ht, ?He, ?Hc1;
      repeat split; try reflexivity; try assumption;
      try (rewrite <- ?app_assoc, ?app_nil_r; reflexivity);
      try (intros c0 _; simpl; eexists; split; reflexivity).
  - rewrite Hc; simpl. eexists. split; [reflexivity|].
    destruct (Options.ClosedCB (Opts nc)) eqn:Hcb; simpl;
      repeat split; try reflexivity;
      try (rewrite <- ?app_assoc, ?app_nil_r; reflexivity);
      try (intros c0 H0; discriminate).
Qed.

(** X3.  Closing is final and happens once: whenever [Close] returns, the
    connection is CLOSED, and a further [Close] changes nothing, so that
    waiters are released and the callbacks called at most once. *)
Theorem Close_once :
  forall nc nc', Close nc = Ok nc' -> status nc' = CLOSED /\ Close nc' = Ok nc'.
Proof.
  intros nc nc' H.
  assert (Hst : status nc' = CLOSED).
  { destruct (isClosed nc) eqn:Hcl.
    - unfold Close in H. rewrite Hcl in H. injection H as <-.
      apply Status_eqb_eq. exact Hcl.
    - destruct (conn nc) as [c|] eqn:Hc.
      + destruct (bw nc) as [w|] eqn:Hbw.
        * destruct (Close_fields nc Hcl) as (nc1 & H1 & Hs & _); [right; eauto|].
          rewrite H1 in H. injection H as <-. exact Hs.
        * rewrite (Close_nil_writer nc Hcl) in H; [discriminate | eauto | exact Hbw].
      + destruct (Close_fields nc Hcl) as (nc1 & H1 & Hs & _); [left; exact Hc|].
        rewrite H1 in H. injection H as <-. exact Hs. }
  split; [exact Hst|]. unfold Close, isClosed. rewrite Hst. reflexivity.
Qed.

Lemma Close_once_witness :
  exists nc', Close example_conn = Ok nc' /\ status nc' = CLOSED /\ Close nc' = Ok nc'.
Proof.
  destruct (Close example_conn) as [nc'|why] eqn:H.
  - exists nc'. split; [reflexivity|]. apply (Close_once example_conn nc' H).
  - vm_compute in H. discriminate.
Defined.

(** X4.  What a read error does.  On a connection that is closed or
    reconnecting it is ignored.  When reconnecting is not allowed the
    connection is closed, the read error is the last error, whatever error
    was recorded before, and the closed callback is the last callback called.
    An -ERR line of the server closes the connection in the same way, with
    the text of the server as the last error. *)
Theorem read_error_closes_without_reconnect :
  (forall e nc, isClosed nc = true \/ isReconnecting nc = true ->
     processReadOpErr e nc = Ok nc) /\
  (forall e nc,
     isClosed nc = false -> isReconnecting nc = false ->
     Options.AllowReconnect (Opts nc) = false ->
     conn nc = None \/ is_Some (bw nc) ->
     exists nc',
       processReadOpErr e nc = Ok nc' /\ status nc' = CLOSED /\
       LastError nc' = Some e /\
       trace nc' = trace nc ++ signals (pongs nc) ++
         (if (if conn nc is Some _ then true else false) && Options.DisconnectedCB (Opts nc)
          then [EvDisconnectedCB] else []) ++
         (if Options.ClosedCB (Opts nc) then [EvClosedCB] else [])) /\
  (forall e nc,
     isClosed nc = false -> conn nc = None \/ is_Some (bw nc) ->
     exists nc',
       processErr e nc = Ok nc' /\ status nc' = CLOSED /\
       LastError nc' = Some (ErrNew ("nats: " +:+ e))).
Proof.
  split; [|split].
  - intros e nc H. unfold processReadOpErr.
    destruct H as [-> | ->]; [reflexivity|]. rewrite orb_true_r. reflexivity.
  - intros e nc Hcl Hre Hal Hbw. unfold processReadOpErr. rewrite Hcl, Hre, Hal. simpl.
    set (nc0 := set_err (Some e) (processDisconnect nc)).
    assert (H0 : status nc0 = DISCONNECTED /\ conn nc0 = conn nc /\ bw nc0 = bw nc /\
                 err nc0 = Some e /\ Opts nc0 = Opts nc /\ trace nc0 = trace nc /\
                 pongs nc0 = pongs nc).
    { subst nc0. unfold processDisconnect. simpl.
      destruct (err nc); [repeat split|].
      destruct (serverInfo.SslRequired (info nc)); repeat split. }
    destruct H0 as (Hs0 & Hc0 & Hb0 & He0 & Ho0 & Ht0 & Hp0).
    destruct (Close_fields nc0) as (nc' & H & Hs & He & Ho & Ht & _).
    { unfold isClosed. rewrite Hs0. reflexivity. }
    { rewrite Hc0, Hb0. exact Hbw. }
    exists nc'. split; [exact H|]. split; [exact Hs|].
    split; [unfold LastError; congruence|].
    rewrite Ht, Ht0, Hp0, Hc0, Ho0. reflexivity.
  - intros e nc Hcl Hbw. unfold processErr.
    destruct (Close_fields (set_err (Some (ErrNew ("nats: " +:+ e))) nc) Hcl Hbw)
      as (nc' & H & Hs & He & _).
    exists nc'. split; [exact H|]. split; [exact Hs|]. exact He.
Qed.

Lemma read_error_closes_without_reconnect_witness :
  (exists nc',
     processReadOpErr ErrIO no_reconnect_conn = Ok nc' /\ status nc' = CLOSED /\
     LastError nc' = Some ErrIO /\
     trace nc' = trace no_reconnect_conn ++ signals (pongs no_reconnect_conn) ++
       (if (if conn no_reconnect_conn is Some _ then true else false)
           && Options.DisconnectedCB (Opts no_reconnect_conn)
        then [EvDisconnectedCB] else []) ++
       (if Options.ClosedCB (Opts no_reconnect_conn) then [EvClosedCB] else [])) /\
  processReadOpErr ErrIO reconnecting_conn = Ok reconnecting_conn.
Proof.
  destruct read_error_closes_without_reconnect as (Hskip & Hclose & _). split.
  - apply (Hclose ErrIO no_reconnect_conn); try reflexivity. right. simpl. eauto.
  - apply (Hskip ErrIO reconnecting_conn). right. reflexivity.
Defined.

(** X5.  [checkForSecure] accepts exactly when the client and the server
    agree on TLS; a client that wants TLS from a server without it gets the
    secure-connection-wanted error, a client without TLS at a server that
    requires it gets the secure-connection-required error; in both cases the
    connection is left as it was. *)
Theorem checkForSecure_agreement :
  forall nc,
    (snd (checkForSecure nc) = None <->
     Options.Secure (Opts nc) = serverInfo.SslRequired (info nc)) /\
    (Options.Secure (Opts nc) = true -> serverInfo.SslRequired (info nc) = false ->
     checkForSecure nc = (nc, Some ErrSecureConnWanted)) /\
    (Options.Secure (Opts nc) = false -> serverInfo.SslRequired (info nc) = true ->
     checkForSecure nc = (nc, Some ErrSecureConnRequired)).
Proof.
  intros nc. unfold checkForSecure.
  destruct (Options.Secure (Opts nc)), (serverInfo.SslRequired (info nc)); simpl;
    repeat split; intros; try reflexivity; try discriminate.
Qed.

(** ** Publishing in sequence *)

Lemma u64_add_wrap a b : U64.add (U64.wrap a) b = U64.wrap (a + b).
Proof. unfold U64.add, U64.wrap. apply Zplus_mod_idemp_l. Qed.

Lemma u64_add_wrap_r a b : U64.add a (U64.wrap b) = U64.wrap (a + b).
Proof. unfold U64.add, U64.wrap. apply Zplus_mod_idemp_r. Qed.

Lemma u64_wrap_range a : U64.in_range (U64.wrap a).
Proof. unfold U64.in_range, U64.wrap. apply Z.mod_pos_bound. reflexivity. Qed.

Lemma publish_all_ok l :
  forall nc, isClosed nc = false -> writable nc ->
    U64.in_range (OutMsgs nc) -> U64.in_range (OutBytes nc) ->
    exists nc',
      publish_all l nc = Ok nc' /\
      outbound nc' = outbound nc ++ pub_all_bytes l /\
      OutMsgs nc' = U64.wrap (OutMsgs nc + Z.of_nat (length l)) /\
      OutBytes nc' = U64.wrap (OutBytes nc + payload_total l).
Proof.
  induction l as [|[[subj reply] data] l IH]; intros nc Hcl Hw Hm Hb.
  - exists nc. simpl. rewrite app_nil_r, !Z.add_0_r.
    unfold U64.wrap. rewrite !Z.mod_small by assumption. repeat split.
  - simpl publish_all.
    destruct (publish_ok subj reply data nc Hcl Hw)
      as (nc1 & H1 & Ho1 & Hw1 & _ & Hs1 & Hm1 & Hb1).
    rewrite H1. simpl rbind.
    assert (Hcl1 : isClosed nc1 = false) by (unfold isClosed in *; rewrite Hs1; exact Hcl).
    destruct (IH nc1 Hcl1 Hw1) as (nc' & H & Ho & Hm' & Hb').
    { rewrite Hm1. apply u64_wrap_range. }
    { rewrite Hb1. apply u64_wrap_range. }
    exists nc'. split; [exact H|].
    split; [rewrite Ho, Ho1; unfold pub_all_bytes; simpl; rewrite <- app_assoc; reflexivity|].
    split.
    + rewrite Hm', Hm1. unfold U64.add, U64.wrap. rewrite Zplus_mod_idemp_l.
      f_equal. simpl length. lia.
    + rewrite Hb', Hb1, u64_add_wrap_r. unfold U64.wrap. rewrite Zplus_mod_idemp_l.
      f_equal. simpl. lia.
Qed.

(** X6.  On a connection that is not closed, with a working writer, the
    messages of a publisher are written in the order of the calls, each as
    its PUB line, payload and CRLF, with nothing between them; and the
    out-message and out-byte counters advance by the number of messages and
    the sum of the payload lengths, modulo 2^64. *)
Theorem publishes_keep_call_order :
  forall l nc,
    isClosed nc = false -> writable nc ->
    U64.in_range (OutMsgs nc) -> U64.in_range (OutBytes nc) ->
    exists nc',
      publish_all l nc = Ok nc' /\
      outbound nc' = outbound nc ++ pub_all_bytes l /\
      OutMsgs nc' = U64.wrap (OutMsgs nc + Z.of_nat (length l)) /\
      OutBytes nc' = U64.wrap (OutBytes nc + payload_total l).
Proof. intros l nc. apply publish_all_ok. Qed.

Lemma publishes_keep_call_order_witness :
  exists nc',
    publish_all [("a", "", list_byte_of_string "one"); ("b", "r", list_byte_of_string "two")]
      example_conn = Ok nc' /\
    outbound nc' = outbound example_conn
      ++ pub_all_bytes [("a", "", list_byte_of_string "one");
                        ("b", "r", list_byte_of_string "two")] /\
    OutMsgs nc' = U64.wrap (OutMsgs example_conn + Z.of_nat 2) /\
    OutBytes nc' = U64.wrap (OutBytes example_conn
      + payload_total [("a", "", list_byte_of_string "one");
                       ("b", "r", list_byte_of_string "two")]).
Proof.
  apply (publishes_keep_call_order
           [("a", "", list_byte_of_string "one"); ("b", "r", list_byte_of_string "two")]
           example_conn).
  - reflexivity.
  - exact example_conn_writable.
  - split; [discriminate | reflexivity].
  - split; [discriminate | reflexivity].
Defined.

Lemma checkForSecure_agreement_witness :
  checkForSecure secure_conn = (secure_conn, Some ErrSecureConnWanted) /\
  snd (checkForSecure example_conn) = None.
Proof.
  split.
  - apply (proj1 (proj2 (checkForSecure_agreement secure_conn))); reflexivity.
  - apply (proj1 (checkForSecure_agreement example_conn)). reflexivity.
Defined.

(** ** The registry *)

Lemma registry_wf_objs nc nc' :
  objs nc' = objs nc -> subs nc' = subs nc -> registry_wf nc -> registry_wf nc'.
Proof. unfold registry_wf. intros -> ->. tauto. Qed.

(** Storing, under [p], an object that keeps the identifier and the state of
    the mailbox pointer of the one that was there. *)
Lemma registry_wf_store nc p s s' :
  registry_wf nc -> objs nc !! p = Some s ->
  Subscription.sid s' = Subscription.sid s ->
  (Subscription.conn s = true -> Subscription.mch s = true ->
   Chan.closed (Subscription.mailbox s) = false ->
   Subscription.conn s' = true /\ Subscription.mch s' = true /\
   Chan.closed (Subscription.mailbox s') = false) ->
  registry_wf (store p s' nc).
Proof.
  intros [Hobj Hreg] Hp Hsid Hkeep. split.
  - intros q t. unfold store; simpl. rewrite lookup_insert.
    destruct (decide (p = q)) as [<-|_]; [|apply Hobj].
    intros [= <-]. rewrite Hsid. apply (Hobj p s Hp).
  - intros k Hk. simpl in Hk. destruct (Hreg k Hk) as (t & Ht & H1 & H2 & H3).
    unfold store; simpl. rewrite lookup_insert.
    destruct (decide (p = k)) as [<-|_]; [|eauto].
    rewrite Hp in Ht. injection Ht as <-.
    exists s'. split; [reflexivity|]. apply Hkeep; assumption.
Qed.

Lemma registry_wf_close_subs nc : registry_wf nc -> registry_wf (close_subs nc).
Proof.
  intros [Hobj _]. split.
  - intros p s. rewrite close_subs_lookup.
    destruct (decide (p ∈ subs nc)); [|apply Hobj].
    destruct (objs nc !! p) as [t|] eqn:Ht; simpl; [|discriminate].
    intros [= <-]. rewrite <- (Hobj p t Ht).
    unfold Subscription.close_mch. destruct (Subscription.mch t); reflexivity.
  - intros k Hk. simpl in Hk. apply elem_of_empty in Hk. contradiction.
Qed.

Lemma Close_subs nc nc' :
  Close nc = Ok nc' ->
  (objs nc' = objs nc /\ subs nc' = subs nc) \/
  (objs nc' = objs (close_subs nc) /\ subs nc' = ∅).
Proof.
  intros H. destruct (isClosed nc) eqn:Hcl.
  - unfold Close in H. rewrite Hcl in H. injection H as <-. left; split; reflexivity.
  - destruct (conn nc) as [c|] eqn:Hc.
    + destruct (bw nc) as [w|] eqn:Hbw.
      * destruct (Close_spec nc Hcl) as (nc1 & H1 & _ & _ & Hs & Ho & _); [right; eauto|].
        rewrite H1 in H. injection H as <-. right; split; assumption.
      * rewrite (Close_nil_writer nc Hcl) in H; [discriminate | eauto | exact Hbw].
    + destruct (Close_spec nc Hcl) as (nc1 & H1 & _ & _ & Hs & Ho & _); [left; exact Hc|].
      rewrite H1 in H. injection H as <-. right; split; assumption.
Qed.

Lemma Close_wf nc nc' : Close nc = Ok nc' -> registry_wf nc -> registry_wf nc'.
Proof.
  intros H Hwf. destruct (Close_subs nc nc' H) as [[Ho Hs]|[Ho Hs]].
  - exact (registry_wf_objs nc nc' Ho Hs Hwf).
  - apply (registry_wf_objs (close_subs nc) nc' Ho Hs). apply registry_wf_close_subs. exact Hwf.
Qed.

Lemma subs_lookup_wf nc k s :
  registry_wf nc -> subs_lookup k nc = Some s ->
  objs nc !! k = Some s /\ Subscription.sid s = k /\ Subscription.conn s = true /\
  Subscription.mch s = true /\ Chan.closed (Subscription.mailbox s) = false.
Proof.
  intros [Hobj Hreg] Hl. unfold subs_lookup in Hl.
  destruct (decide (k ∈ subs nc)) as [Hk|]; [|discriminate].
  destruct (Hreg k Hk) as (t & Ht & H1 & H2 & H3).
  rewrite Hl in Ht. injection Ht as <-.
  repeat split; try assumption. apply (Hobj k s Hl).
Qed.

Lemma processSlowConsumer_subs p s nc : subs (processSlowConsumer p s nc) = subs nc.
Proof.
  unfold processSlowConsumer; simpl. destruct (Options.AsyncErrorCB (Opts nc)); reflexivity.
Qed.

Lemma processSlowConsumer_wf nc p s s' :
  registry_wf nc -> objs nc !! p = Some s ->
  Subscription.sid s' = Subscription.sid s ->
  Subscription.conn s' = true -> Subscription.mch s' = true ->
  Chan.closed (Subscription.mailbox s') = false ->
  registry_wf (processSlowConsumer p s' nc).
Proof.
  intros Hwf Hp Hsid Hc Hm Hcl.
  apply (registry_wf_objs (store p (Subscription.set_sc true s') nc));
    [apply processSlowConsumer_objs | rewrite processSlowConsumer_subs; reflexivity |].
  apply (registry_wf_store nc p s); try assumption. intros _ _ _. simpl. auto.
Qed.

Lemma processMsg_frame_wf subj reply sid buf nc :
  registry_wf nc ->
  exists nc', processMsg (Frame subj reply sid buf) nc = Ok nc' /\ registry_wf nc' /\
              subs nc' = subs nc.
Proof.
  intros Hwf. unfold processMsg.
  change (subs_lookup sid (set_InStats _ _ nc)) with (subs_lookup sid nc).
  set (nc1 := set_InStats _ _ nc).
  assert (Hwf1 : registry_wf nc1) by exact Hwf.
  destruct (subs_lookup sid nc) as [sub|] eqn:Hl.
  2:{ exists nc1. repeat split; try apply Hwf1. }
  destruct (_ && _).
  { exists nc1. repeat split; try apply Hwf1. }
  destruct (subs_lookup_wf nc sid sub Hwf Hl) as (Hp & Hsid & Hc & Hm & Hcl).
  simpl. rewrite Hm.
  destruct (maxChanLen <=? _).
  - eexists. split; [reflexivity|]. split; [|rewrite processSlowConsumer_subs; reflexivity].
    apply (processSlowConsumer_wf nc1 sid sub);
      [exact Hwf1 | exact Hp | reflexivity | exact Hc | exact Hm | exact Hcl].
  - rewrite Hcl. eexists. split; [reflexivity|]. split; [|reflexivity].
    apply (registry_wf_store nc1 sid sub); [exact Hwf1 | exact Hp | reflexivity |].
    intros _ _ _. simpl. auto.
Qed.

Lemma processMsg_wf f nc nc' :
  registry_wf nc -> processMsg f nc = Ok nc' -> registry_wf nc'.
Proof.
  intros Hwf H. destruct f as [| e | subj reply sid buf].
  - apply (Close_wf _ _ H). exact Hwf.
  - apply (Close_wf _ _ H). exact Hwf.
  - destruct (processMsg_frame_wf subj reply sid buf nc Hwf) as (nc1 & H1 & Hwf1 & _).
    rewrite H1 in H. injection H as <-. exact Hwf1.
Qed.

Lemma deliverMsgs_iter_wf owner nc nc' l :
  registry_wf nc -> deliverMsgs_iter owner nc = Ok (nc', l) -> registry_wf nc'.
Proof.
  intros Hwf H. unfold deliverMsgs_iter in H.
  destruct (isClosed nc); [injection H as <- _; exact Hwf|].
  destruct (objs nc !! owner) as [o|] eqn:Ho; [|discriminate].
  destruct (Chan.buf (Subscription.mailbox o)) as [|m rest].
  { injection H as <- _. exact Hwf. }
  set (o1 := Subscription.set_mailbox _ o) in H.
  assert (Hwf1 : registry_wf (store owner o1 nc)).
  { apply (registry_wf_store nc owner o); [exact Hwf | exact Ho | reflexivity |].
    intros Hc Hm Hcl. subst o1; simpl. auto. }
  destruct (objs (store owner o1 nc) !! Msg.Sub m) as [s|] eqn:Hs; [|discriminate].
  destruct (_ || _) in H. { injection H as <- _. exact Hwf1. }
  assert (Hwf2 : registry_wf (store (Msg.Sub m)
                    (Subscription.set_delivered (U64.add (Subscription.delivered s) 1) s)
                    (store owner o1 nc))).
  { apply (registry_wf_store _ (Msg.Sub m) s); [exact Hwf1 | exact Hs | reflexivity |].
    intros Hc Hm Hcl. simpl. auto. }
  destruct (_ || _) in H; injection H as <- _; exact Hwf2.
Qed.

Lemma NextMsg_keeps expired s s' r :
  NextMsg expired s = (s', r) ->
  Subscription.sid s' = Subscription.sid s /\ Subscription.conn s' = Subscription.conn s /\
  Subscription.mch s' = Subscription.mch s /\
  Chan.closed (Subscription.mailbox s') = Chan.closed (Subscription.mailbox s).
Proof.
  unfold NextMsg.
  destruct (negb (Subscription.mch s)); [intros [= <- _]; repeat split|].
  destruct (Subscription.mcb s); [intros [= <- _]; repeat split|].
  destruct (negb (Subscription.conn s)); [intros [= <- _]; repeat split|].
  destruct (Subscription.sc s); [intros [= <- _]; repeat split|].
  destruct (Chan.buf (Subscription.mailbox s)) as [|m rest].
  { destruct (_ && _); intros [= <- _]; repeat split. }
  destruct expired; [intros [= <- _]; repeat split|].
  destruct (_ && _); intros [= <- _]; repeat split.
Qed.

Lemma Conn_NextMsg_wf expired p nc nc' r :
  registry_wf nc -> Conn_NextMsg expired p nc = Ok (nc', r) -> registry_wf nc'.
Proof.
  intros Hwf H. unfold Conn_NextMsg in H.
  destruct (objs nc !! p) as [s|] eqn:Hp; [|discriminate].
  destruct (NextMsg expired s) as [s1 r1] eqn:HN. injection H as <- _.
  destruct (NextMsg_keeps _ _ _ _ HN) as (H1 & H2 & H3 & H4).
  apply (registry_wf_store nc p s); [exact Hwf | exact Hp | exact H1 |].
  intros Hc Hm Hcl. rewrite H2, H3, H4. auto.
Qed.

Lemma WriteString_subs s nc nc' e : WriteString s nc = Ok (nc', e) -> subs nc' = subs nc.
Proof.
  intros H. destruct (WriteString_core _ _ _ _ H) as [Hc _].
  destruct (core_fields _ _ Hc) as (_&_&_&_&_&_&_&_&_&Hs&_). exact Hs.
Qed.

Lemma kickFlusher_subs nc : subs (kickFlusher nc) = subs nc.
Proof. rewrite kickFlusher_fch. reflexivity. Qed.

Lemma registry_wf_kick nc : registry_wf nc -> registry_wf (kickFlusher nc).
Proof. apply registry_wf_objs; [apply kickFlusher_objs | apply kickFlusher_subs]. Qed.

Lemma registry_wf_subscribed nc sid subj cb :
  registry_wf nc ->
  registry_wf (set_subs ({[sid]} ∪ subs nc) (store sid (fresh_sub sid subj cb) (set_ssid sid nc))).
Proof.
  intros [Hobj Hreg]. split.
  - intros p s. simpl. rewrite lookup_insert.
    destruct (decide (sid = p)) as [<-|_]; [|apply Hobj]. intros [= <-]. reflexivity.
  - intros k Hk. simpl in *. rewrite lookup_insert.
    destruct (decide (sid = k)) as [<-|Hne].
    + eexists. split; [reflexivity|]. repeat split.
    + apply Hreg. apply elem_of_union in Hk as [Hk|Hk]; [|exact Hk].
      apply elem_of_singleton in Hk. congruence.
Qed.

Lemma subscribe_wf subj queue cb nc nc' r :
  registry_wf nc -> subscribe subj queue cb nc = Ok (nc', r) -> registry_wf nc'.
Proof.
  intros Hwf H. unfold subscribe in H.
  destruct (isClosed nc); [injection H as <- _; apply registry_wf_kick; exact Hwf|].
  pose proof (registry_wf_subscribed nc (U64.add (ssid nc) 1) subj cb Hwf) as Hwf1.
  unfold fresh_sub in Hwf1.
  set (nc1 := set_subs _ _) in *.
  destruct (isReconnecting nc1); [injection H as <- _; apply registry_wf_kick; exact Hwf1|].
  destruct (WriteString _ nc1) as [[nc2 e]|] eqn:HW; simpl in H; [|discriminate].
  injection H as <- _. apply registry_wf_kick.
  apply (registry_wf_objs nc1 nc2);
    [exact (WriteString_objs _ _ _ _ HW) | exact (WriteString_subs _ _ _ _ HW) | exact Hwf1].
Qed.

Lemma registry_wf_removed nc k s :
  registry_wf nc -> objs nc !! k = Some s ->
  registry_wf (set_subs (subs nc ∖ {[k]})
                 (store k (Subscription.set_conn false (Subscription.close_mch s)) nc)).
Proof.
  intros [Hobj Hreg] Hk. split.
  - intros p t. simpl. rewrite lookup_insert.
    destruct (decide (k = p)) as [<-|_]; [|apply Hobj]. intros [= <-].
    simpl. rewrite <- (Hobj k s Hk).
    unfold Subscription.close_mch. destruct (Subscription.mch s); reflexivity.
  - intros j Hj. simpl in *. apply elem_of_difference in Hj as [Hj Hne].
    rewrite lookup_insert. destruct (decide (k = j)) as [<-|_]; [|apply Hreg; exact Hj].
    exfalso. apply Hne. apply elem_of_singleton. reflexivity.
Qed.

Lemma unsubscribe_wf p max nc nc' r :
  registry_wf nc -> unsubscribe p max nc = Ok (nc', r) -> registry_wf nc'.
Proof.
  intros Hwf H. unfold unsubscribe in H.
  destruct (isClosed nc); [injection H as <- _; apply registry_wf_kick; exact Hwf|].
  destruct (objs nc !! p) as [sub|]; [|discriminate].
  destruct (subs_lookup (Subscription.sid sub) nc) as [s|] eqn:Hl.
  2:{ injection H as <- _. apply registry_wf_kick; exact Hwf. }
  destruct (subs_lookup_wf nc _ s Hwf Hl) as (Hk & Hsid & Hc & Hm & Hcl).
  set (nc1 := if 0 <? max then _ else _) in *.
  assert (Hwf1 : registry_wf nc1).
  { subst nc1. destruct (0 <? max).
    - apply (registry_wf_store nc _ s); [exact Hwf | exact Hk | reflexivity |].
      intros _ _ _. simpl. auto.
    - rewrite Hsid. apply registry_wf_removed; assumption. }
  destruct (isReconnecting nc1); [injection H as <- _; apply registry_wf_kick; exact Hwf1|].
  destruct (WriteString _ nc1) as [[nc2 e]|] eqn:HW; simpl in H; [|discriminate].
  injection H as <- _. apply registry_wf_kick.
  apply (registry_wf_objs nc1 nc2);
    [exact (WriteString_objs _ _ _ _ HW) | exact (WriteString_subs _ _ _ _ HW) | exact Hwf1].
Qed.

Lemma step_delivery_wf op nc nc' :
  registry_wf nc -> step_delivery op nc = Ok nc' -> registry_wf nc'.
Proof.
  intros Hwf H.
  destruct op as [subj queue cb | p max | p | f | o | e p]; simpl in H.
  - destruct (subscribe subj queue cb nc) as [[nc1 r]|] eqn:Hs; [|discriminate].
    injection H as <-. exact (subscribe_wf _ _ _ _ _ _ Hwf Hs).
  - unfold AutoUnsubscribe in H. destruct (objs nc !! p) as [s|]; [|discriminate].
    destruct (Subscription.conn s).
    + destruct (unsubscribe p max nc) as [[nc1 r]|] eqn:Hu; [|discriminate].
      injection H as <-. exact (unsubscribe_wf _ _ _ _ _ Hwf Hu).
    + injection H as <-. exact Hwf.
  - unfold Unsubscribe in H. destruct (objs nc !! p) as [s|]; [|discriminate].
    destruct (Subscription.conn s).
    + destruct (unsubscribe p 0 nc) as [[nc1 r]|] eqn:Hu; [|discriminate].
      injection H as <-. exact (unsubscribe_wf _ _ _ _ _ Hwf Hu).
    + injection H as <-. exact Hwf.
  - exact (processMsg_wf f nc nc' Hwf H).
  - destruct (deliverMsgs_iter o nc) as [[nc1 l]|] eqn:Hd; [|discriminate].
    injection H as <-. exact (deliverMsgs_iter_wf _ _ _ _ Hwf Hd).
  - destruct (Conn_NextMsg e p nc) as [[nc1 r]|] eqn:Hd; [|discriminate].
    injection H as <-. exact (Conn_NextMsg_wf _ _ _ _ _ Hwf Hd).
Qed.

Lemma run_delivery_wf ops :
  forall nc nc', registry_wf nc -> run_delivery ops nc = Ok nc' -> registry_wf nc'.
Proof.
  induction ops as [|op r IH]; intros nc nc' Hwf H; simpl in H.
  - injection H as <-. exact Hwf.
  - destruct (step_delivery op nc) as [nc1|] eqn:Hs; [|discriminate]. simpl in H.
    apply (IH nc1 nc'); [|exact H]. exact (step_delivery_wf op nc nc1 Hwf Hs).
Qed.

Lemma example_conn_wf : registry_wf example_conn.
Proof.
  split.
  - intros p s H. simpl in H. rewrite lookup_empty in H. discriminate.
  - intros k H. simpl in H. apply elem_of_empty in H. contradiction.
Defined.

(** X7.  The registry stays well formed under everything that moves
    subscriptions: every subscription it holds is valid and its mailbox is an
    open channel, and every object is stored under its own identifier.  An
    inbound message therefore never meets a closed mailbox: [processMsg]
    returns for every frame, and leaves the set of registered identifiers as
    it was. *)
Theorem registry_stays_well_formed :
  (forall ops nc nc',
     registry_wf nc -> run_delivery ops nc = Ok nc' -> registry_wf nc') /\
  (forall subj reply sid buf nc,
     registry_wf nc ->
     exists nc', processMsg (Frame subj reply sid buf) nc = Ok nc' /\
                 subs nc' = subs nc).
Proof.
  split.
  - intros ops nc nc'. apply run_delivery_wf.
  - intros subj reply sid buf nc Hwf.
    destruct (processMsg_frame_wf subj reply sid buf nc Hwf) as (nc' & H & _ & Hs). eauto.
Qed.

Lemma registry_stays_well_formed_witness :
  match run_delivery replay_ops example_conn with
  | Ok nc' =>
      registry_wf nc' /\
      exists nc'', processMsg (Frame "foo" "" 1 (list_byte_of_string "d")) nc' = Ok nc'' /\
                   subs nc'' = subs nc'
  | Panic _ => False
  end.
Proof.
  destruct (run_delivery replay_ops example_conn) as [nc'|why] eqn:H.
  - assert (Hwf : registry_wf nc').
    { apply (proj1 registry_stays_well_formed replay_ops example_conn nc');
        [exact example_conn_wf | exact H]. }
    split; [exact Hwf|].
    apply (proj2 registry_stays_well_formed). exact Hwf.
  - vm_compute in H. discriminate.
Defined.

(** ** Subscribing and unsubscribing *)

Lemma writable_frame nc nc' :
  bw nc' = bw nc -> conn nc' = conn nc -> pending nc' = pending nc ->
  (writable nc' <-> writable nc) /\ outbound nc' = outbound nc.
Proof.
  intros Hb Hc Hp. unfold writable, outbound. rewrite Hb.
  destruct (bw nc) as [w|]; [|tauto].
  assert (Hs : sink (Writer.wr w) nc' = sink (Writer.wr w) nc).
  { destruct (Writer.wr w); simpl; rewrite ?Hc, ?Hp; reflexivity. }
  rewrite Hs. tauto.
Qed.



(** X9.  The queue group of a subscription is sent in its first SUB line
    only.  [subscribe] does not keep it in the object, so what the replay of
    a reconnect writes for the subscription is the SUB line with an empty
    queue name. *)
Theorem replay_drops_queue_group :
  forall subj queue cb nc nc' sid,
    subscribe subj queue cb nc = Ok (nc', inr sid) ->
    exists s, subs_lookup sid nc' = Some s /\
              Subscription.Queue s = _EMPTY_ /\
              resend_writes s = [subProto subj _EMPTY_ sid].
Proof.
  intros subj queue cb nc nc' sid H. unfold subscribe in H.
  destruct (isClosed nc); [discriminate|].
  set (k := U64.add (ssid nc) 1) in *.
  set (nc1 := set_subs _ _) in *.
  assert (Hl : subs_lookup k nc1 = Some (fresh_sub k subj cb)).
  { unfold subs_lookup. subst nc1; simpl.
    destruct (decide (k ∈ {[k]} ∪ subs nc)) as [_|Hn].
    - apply lookup_insert_eq.
    - exfalso. apply Hn. apply elem_of_union. left. apply elem_of_singleton. reflexivity. }
  assert (Hfin : forall n, objs n = objs nc1 -> subs n = subs nc1 ->
                   exists s, subs_lookup k n = Some s /\ Subscription.Queue s = _EMPTY_ /\
                             resend_writes s = [subProto subj _EMPTY_ k]).
  { intros n Ho Hs. exists (fresh_sub k subj cb).
    split; [unfold subs_lookup in *; rewrite Ho, Hs; exact Hl|]. split; reflexivity. }
  destruct (isReconnecting nc1).
  - injection H as <- <-. apply Hfin; [apply kickFlusher_objs | apply kickFlusher_subs].
  - destruct (WriteString _ nc1) as [[nc2 e]|] eqn:HW; simpl in H; [|discriminate].
    injection H as <- <-. apply Hfin.
    + rewrite kickFlusher_objs. exact (WriteString_objs _ _ _ _ HW).
    + rewrite kickFlusher_subs. exact (WriteString_subs _ _ _ _ HW).
Qed.

Lemma replay_drops_queue_group_witness :
  match subscribe "jobs" "workers" false example_conn with
  | Ok (nc', inr sid) =>
      exists s, subs_lookup sid nc' = Some s /\
                Subscription.Queue s = _EMPTY_ /\
                resend_writes s = [subProto "jobs" _EMPTY_ sid]
  | _ => False
  end.
Proof.
  destruct (subscribe "jobs" "workers" false example_conn) as [[nc' [e|sid]]|why] eqn:H.
  - vm_compute in H. discriminate.
  - apply (replay_drops_queue_group "jobs" "workers" false example_conn nc' sid H).
  - vm_compute in H. discriminate.
Defined.

Lemma unsubscribe_spec p max nc s :
  registry_wf nc -> isClosed nc = false -> writable nc -> subs_lookup p nc = Some s ->
  exists nc',
    unsubscribe p max nc = Ok (nc', None) /\
    subs nc' = (if 0 <? max then subs nc else subs nc ∖ {[p]}) /\
    objs nc' = <[p := if 0 <? max then Subscription.set_max (U64.wrap max) s
                      else Subscription.set_conn false (Subscription.close_mch s)]> (objs nc) /\
    status nc' = status nc /\
    outbound nc' = outbound nc ++
      (if isReconnecting nc then []
       else list_byte_of_string (unsubProto p (if 0 <? max then Itoa max else _EMPTY_))).
Proof.
  intros Hwf Hcl Hw Hl.
  destruct (subs_lookup_wf nc p s Hwf Hl) as (Hp & Hsid & _).
  unfold unsubscribe. rewrite Hcl, Hp, Hsid, Hl.
  set (nc1 := if 0 <? max then _ else _). rewrite ?Hsid.
  assert (H1 : subs nc1 = (if 0 <? max then subs nc else subs nc ∖ {[p]}) /\
               objs nc1 = <[p := if 0 <? max then Subscription.set_max (U64.wrap max) s
                                 else Subscription.set_conn false (Subscription.close_mch s)]>
                            (objs nc) /\
               status nc1 = status nc /\ bw nc1 = bw nc /\ conn nc1 = conn nc /\
               pending nc1 = pending nc).
  { subst nc1. destruct (0 <? max); simpl; rewrite ?Hsid; repeat split. }
  destruct H1 as (Hs1 & Ho1 & Hst1 & Hb1 & Hc1 & Hp1).
  destruct (writable_frame nc nc1 Hb1 Hc1 Hp1) as [Hw1 Hob1].
  replace (isReconnecting nc1) with (isReconnecting nc)
    by (unfold isReconnecting; rewrite Hst1; reflexivity).
  destruct (isReconnecting nc).
  - eexists. split; [reflexivity|]. rewrite kickFlusher_fch. simpl.
    repeat split; try assumption. rewrite app_nil_r. exact Hob1.
  - destruct (WriteString_ok (unsubProto p (if 0 <? max then Itoa max else _EMPTY_)) nc1
                (proj2 Hw1 Hw)) as (nc2 & -> & _ & Ho2 & Hc2 & _).
    simpl. eexists. split; [reflexivity|]. rewrite kickFlusher_fch.
    destruct (core_fields _ _ Hc2) as (_&_&_&_&_&_&_&_&_&Hsu&Hob&_&Hst&_).
    simpl. split; [congruence|]. split; [congruence|]. split; [congruence|].
    change (outbound nc2 = outbound nc ++
              list_byte_of_string (unsubProto p (if 0 <? max then Itoa max else _EMPTY_))).
    rewrite Ho2, Hob1. reflexivity.
Qed.







(** ** Messages through a mailbox *)

Lemma arrive_one p nc b f :
  sync_open p nc b -> Z.of_nat (length b) < maxChanLen ->
  exists nc', processMsg (Frame (fst (fst f)) (snd (fst f)) p (snd f)) nc = Ok nc' /\
              sync_open p nc' (b ++ [frame_msg p f]).
Proof.
  intros (s & Hl & Hc & Hcb & Hm & Hsc & Hmax & Hbox) Hlen. unfold processMsg.
  change (subs_lookup p (set_InStats _ _ nc)) with (subs_lookup p nc). rewrite Hl, Hmax.
  simpl. rewrite Hm, Hbox. simpl.
  replace (maxChanLen <=? Z.of_nat (length b)) with false
    by (symmetry; apply Z.leb_gt; exact Hlen).
  eexists. split; [reflexivity|].
  eexists. split.
  - unfold subs_lookup in *. simpl. destruct (decide (p ∈ subs nc)); [|discriminate].
    apply lookup_insert_eq.
  - simpl. repeat split; try assumption; reflexivity.
Qed.

Arguments processMsg : simpl never.
Arguments Conn_NextMsg : simpl never.

Lemma arrive_all_spec l :
  forall p nc b,
    sync_open p nc b -> Z.of_nat (length b) + Z.of_nat (length l) <= maxChanLen ->
    exists nc', arrive_all p l nc = Ok nc' /\ sync_open p nc' (b ++ map (frame_msg p) l).
Proof.
  induction l as [|f l IH]; intros p nc b Ho Hlen; simpl.
  - exists nc. rewrite app_nil_r. auto.
  - simpl length in Hlen.
    destruct (arrive_one p nc b f Ho) as (nc1 & -> & Ho1); [lia|]. simpl.
    destruct (IH p nc1 (b ++ [frame_msg p f]) Ho1) as (nc' & H & Ho').
    { rewrite length_app. simpl. lia. }
    exists nc'. split; [exact H|]. rewrite <- app_assoc in Ho'. exact Ho'.
Qed.

Lemma pull_one p nc m b :
  sync_open p nc (m :: b) ->
  exists nc', Conn_NextMsg false p nc = Ok (nc', inr m) /\ sync_open p nc' b.
Proof.
  intros (s & Hl & Hc & Hcb & Hm & Hsc & Hmax & Hbox).
  pose proof (subs_lookup_objs _ _ _ Hl) as Hp.
  unfold Conn_NextMsg. rewrite Hp. unfold NextMsg.
  rewrite Hm, Hcb, Hc, Hsc, Hbox. simpl. rewrite Hmax. simpl.
  eexists. split; [reflexivity|].
  eexists. split.
  - unfold subs_lookup in *. simpl. destruct (decide (p ∈ subs nc)); [|discriminate].
    apply lookup_insert_eq.
  - simpl. repeat split; try assumption; reflexivity.
Qed.

Lemma pull_all_spec b :
  forall p nc,
    sync_open p nc b ->
    exists nc', pull_all (length b) p nc = Ok (nc', map inr b) /\ sync_open p nc' [].
Proof.
  induction b as [|m b IH]; intros p nc Ho; simpl.
  - exists nc. auto.
  - destruct (pull_one p nc m b Ho) as (nc1 & -> & Ho1). simpl.
    destruct (IH p nc1 Ho1) as (nc' & -> & Ho'). simpl.
    exists nc'. auto.
Qed.

(** X12.  A mailbox is a queue.  On a registered synchronous subscription
    without budget whose mailbox is empty, the frames the reader processes,
    up to the capacity of the mailbox, are what the same number of [NextMsg]
    calls return: the same subjects, reply subjects and payloads, in the
    order of arrival, none lost, none twice; and the mailbox is empty
    again. *)
Theorem mailbox_round_trip :
  forall l p nc,
    sync_open p nc [] -> Z.of_nat (length l) <= maxChanLen ->
    exists nc1 nc2,
      arrive_all p l nc = Ok nc1 /\
      pull_all (length l) p nc1 = Ok (nc2, map (fun f => inr (frame_msg p f)) l) /\
      sync_open p nc2 [].
Proof.
  intros l p nc Ho Hlen.
  destruct (arrive_all_spec l p nc [] Ho) as (nc1 & H1 & Ho1); [simpl; lia|].
  simpl in Ho1.
  destruct (pull_all_spec (map (frame_msg p) l) p nc1 Ho1) as (nc2 & H2 & Ho2).
  rewrite length_map in H2. rewrite map_map in H2.
  exists nc1, nc2. auto.
Qed.

Lemma subscribed_conn_open : sync_open 1 subscribed_conn [].
Proof.
  exists (fresh_sub 1 "foo" false). split; [vm_compute; reflexivity|]. repeat split.
Defined.

Lemma mailbox_round_trip_witness :
  exists nc1 nc2,
    arrive_all 1 [("foo", "", list_byte_of_string "x"); ("foo", "re", list_byte_of_string "y")]
      subscribed_conn = Ok nc1 /\
    pull_all 2 1 nc1
      = Ok (nc2, map (fun f => inr (frame_msg 1 f))
                   [("foo", "", list_byte_of_string "x");
                    ("foo", "re", list_byte_of_string "y")]) /\
    sync_open 1 nc2 [].
Proof.
  apply (mailbox_round_trip
           [("foo", "", list_byte_of_string "x"); ("foo", "re", list_byte_of_string "y")]
           1 subscribed_conn).
  - exact subscribed_conn_open.
  - discriminate.
Defined.

(** ** A reconnect that succeeds *)

(** A writer bound to the socket leaves the pending buffer alone. *)
Lemma Flush_w_conn_pending w nc :
  Writer.wr w = ToConn -> pending (fst (Flush_w w nc)) = pending nc.
Proof.
  intros Hwr. unfold Flush_w. destruct (Writer.err w); [reflexivity|].
  destruct (Writer.Buffered w =? 0); [reflexivity|]. rewrite Hwr. simpl.
  destruct (conn nc) as [c|]; [destruct (NetConn.up c)|]; reflexivity.
Qed.

Lemma WriteString_w_conn_pending s :
  forall w nc, Writer.wr w = ToConn -> pending (fst (WriteString_w s w nc)) = pending nc.
Proof.
  induction s as [|c s IH]; intros w nc Hwr; simpl; [reflexivity|].
  destruct (Writer.err w); [reflexivity|].
  destruct (0 <? Writer.Available w); [apply IH; exact Hwr|].
  pose proof (Flush_w_conn_pending w nc Hwr) as Hf.
  destruct (Flush_w w nc) as [nc1 [e|]]; simpl in *; [exact Hf|].
  rewrite IH; [exact Hf|exact Hwr].
Qed.

Lemma WriteString_conn_pending s nc nc' e sz :
  writer_kind nc = Some (ToConn, sz) -> WriteString s nc = Ok (nc', e) ->
  pending nc' = pending nc.
Proof.
  unfold writer_kind, WriteString. destruct (bw nc) as [w|]; [|discriminate].
  simpl. intros [= Hwr _] [= H].
  pose proof (WriteString_w_conn_pending (list_byte_of_string s) w nc Hwr) as Hp.
  destruct (WriteString_w (list_byte_of_string s) w nc) as [n e']; simpl in *.
  injection H as <- _. exact Hp.
Qed.

Lemma WriteStrings_conn_pending l sz :
  forall nc nc', writable nc -> writer_kind nc = Some (ToConn, sz) ->
    WriteStrings l nc = Ok nc' -> pending nc' = pending nc.
Proof.
  induction l as [|s l IH]; intros nc nc' Hw Hk H; simpl in H.
  - injection H as <-. reflexivity.
  - destruct (WriteString_ok s nc Hw) as (nc1 & H1 & Hw1 & _ & _ & Hk1).
    rewrite H1 in H. simpl in H.
    rewrite (IH nc1 nc' Hw1) by (congruence || exact H).
    exact (WriteString_conn_pending s nc nc1 None sz Hk H1).
Qed.

Lemma createConn_pending c nc w b :
  writer_at nc w b -> Writer.wr w = ToPending ->
  exists nc1,
    createConn (DialOk c) nc = Ok (nc1, None) /\
    conn nc1 = Some c /\ pending nc1 = Some (b ++ Writer.buf w) /\
    bw nc1 = Some (Writer.NewWriterSize ToConn defaultBufSize) /\
    core nc1 = core (set_err None nc).
Proof.
  intros (Hbw & He & Hsz & Hl & Hs) Hwr. unfold createConn.
  set (nca := set_err None (set_conn (Some c) nc)).
  rewrite Hwr in Hs. simpl in Hs.
  change (pending nca) with (pending nc). change (bw nca) with (bw nc).
  rewrite Hs, Hbw. unfold Flush. change (bw nca) with (bw nc). rewrite Hbw.
  destruct (Flush_w_ok w nca b He) as (ncb & Hf & Hbwb & Hsb & Hcb).
  { rewrite Hwr. exact Hs. }
  rewrite Hf. simpl. eexists. split; [reflexivity|].
  rewrite Hwr in Hsb. simpl in Hsb.
  assert (Hconn : conn ncb = Some c).
  { unfold Flush_w in Hf. rewrite He in Hf.
    destruct (Writer.Buffered w =? 0); [injection Hf as <-; reflexivity|].
    rewrite Hwr in Hf. simpl in Hf. change (pending nca) with (pending nc) in Hf.
    rewrite Hs in Hf. injection Hf as <-. reflexivity. }
  simpl. repeat split; assumption.
Qed.

Lemma checkForSecure_agree nc :
  Options.Secure (Opts nc) = serverInfo.SslRequired (info nc) ->
  bw nc = Some (Writer.NewWriterSize ToConn defaultBufSize) ->
  checkForSecure nc = (nc, None).
Proof.
  intros Hag Hbw. unfold checkForSecure. rewrite Hag.
  destruct (serverInfo.SslRequired (info nc)); simpl; [|reflexivity].
  f_equal. destruct nc; simpl in *. rewrite Hbw. reflexivity.
Qed.

Lemma flushReconnectPendingItems_ok nc p :
  writable nc -> pending nc = Some p -> writer_kind nc = Some (ToConn, defaultBufSize) ->
  exists nc',
    flushReconnectPendingItems nc = Ok nc' /\ pending nc' = None /\
    outbound nc' = outbound nc ++ p /\ core nc' = core nc.
Proof.
  intros Hw Hp Hk. unfold flushReconnectPendingItems. rewrite Hp.
  assert (Hdrop : forall n, writer_kind n = Some (ToConn, defaultBufSize) ->
                    outbound (set_pending None n) = outbound n).
  { intros n Hn. unfold writer_kind in Hn. unfold outbound. simpl.
    destruct (bw n) as [w|]; [|reflexivity]. simpl in Hn. injection Hn as Hwr _.
    rewrite Hwr. reflexivity. }
  destruct (0 <? len p) eqn:Hlen.
  - destruct (Write_ok p nc Hw) as (nc1 & -> & _ & Ho1 & Hc1 & Hk1). simpl.
    eexists. split; [reflexivity|]. split; [reflexivity|].
    split; [rewrite Hdrop; [exact Ho1 | congruence]|].
    rewrite <- Hc1. reflexivity.
  - apply Z.ltb_ge in Hlen. pose proof (len_nonneg p).
    assert (Hnil : p = []) by (apply len_nil_iff; lia). subst p.
    eexists. split; [reflexivity|]. split; [reflexivity|].
    split; [rewrite Hdrop by exact Hk; rewrite app_nil_r; reflexivity|reflexivity].
Qed.

(** One attempt of the loop whose dial succeeds. *)
Lemma doReconnect_attempt_ok cProto env i n nc w b c :
  status nc = RECONNECTING -> writer_at nc w b -> Writer.wr w = ToPending ->
  dial (env i) = DialOk c -> NetConn.up c = true ->
  is_info (line (env i)) = true ->
  Options.Secure (Opts nc) = serverInfo.SslRequired (info_after (line (env i)) nc) ->
  exists nc',
    doReconnect_loop cProto env i (S n) nc = Ok (nc', true) /\
    status nc' = CONNECTED /\ Reconnects nc' = U64.add (Reconnects nc) 1 /\
    pending nc' = None /\ err nc' = None /\
    subs nc' = subs nc /\ objs nc' = objs nc /\
    outbound nc' = NetConn.wire c ++ list_byte_of_string cProto
                     ++ lines_bytes (resendSubscriptions_writes nc) ++ (b ++ Writer.buf w).
Proof.
  intros Hst Hat Hwr Hd Hup Hinfo Hag.
  assert (Hcl : isClosed nc = false) by (unfold isClosed; rewrite Hst; reflexivity).
  simpl doReconnect_loop. rewrite Hcl, Hd.
  destruct (createConn_pending c nc w b Hat Hwr) as (nc1 & -> & Hc1 & Hp1 & Hb1 & Hco1).
  simpl rbind.
  set (nc3 := set_Reconnects _ (set_err None nc1)).
  assert (H3 : conn nc3 = Some c /\ pending nc3 = Some (b ++ Writer.buf w) /\
               bw nc3 = Some (Writer.NewWriterSize ToConn defaultBufSize) /\
               status nc3 = RECONNECTING /\ err nc3 = None /\
               Reconnects nc3 = U64.add (Reconnects nc) 1 /\
               subs nc3 = subs nc /\ objs nc3 = objs nc /\ Opts nc3 = Opts nc /\
               info nc3 = info nc).
  { destruct (core_fields _ _ Hco1) as (_&_&_&_&Hr&Ho&_&Hi&_&Hsu&Hob&_&Hs&_).
    subst nc3. simpl in *. rewrite Hr. repeat split; try assumption. congruence. }
  destruct H3 as (Hc3 & Hp3 & Hb3 & Hs3 & He3 & Hr3 & Hsu3 & Hob3 & Ho3 & Hi3).
  assert (Hpe : exists nc4,
             processExpectedInfo (line (env i)) nc3 = Ok (nc4, None) /\
             conn nc4 = Some c /\ pending nc4 = Some (b ++ Writer.buf w) /\
             bw nc4 = Some (Writer.NewWriterSize ToConn defaultBufSize) /\
             status nc4 = RECONNECTING /\
             Reconnects nc4 = U64.add (Reconnects nc) 1 /\
             subs nc4 = subs nc /\ objs nc4 = objs nc).
  { unfold info_after in Hag. unfold processExpectedInfo.
    destruct (line (env i)) as [e | | | inf e]; try discriminate.
    - rewrite checkForSecure_agree; [|rewrite Ho3, Hi3; exact Hag|exact Hb3].
      eexists. split; [reflexivity|]. repeat split; assumption.
    - rewrite checkForSecure_agree;
        [|change (Options.Secure (Opts nc3) = serverInfo.SslRequired inf);
          rewrite Ho3; exact Hag|exact Hb3].
      eexists. split; [reflexivity|]. simpl. repeat split; assumption. }
  destruct Hpe as (nc4 & -> & Hc4 & Hp4 & Hb4 & Hs4 & Hr4 & Hsu4 & Hob4).
  simpl rbind.
  set (nc5 := set_status CONNECTED (set_err None nc4)).
  assert (Hw5 : writable nc5).
  { unfold writable. subst nc5; simpl. rewrite Hb4. simpl. rewrite Hc4, Hup.
    split; [reflexivity|]. split; [reflexivity|]. split; [discriminate|]. eauto. }
  assert (Ho5 : outbound nc5 = NetConn.wire c).
  { unfold outbound. subst nc5; simpl. rewrite Hb4. simpl. rewrite Hc4, Hup.
    simpl. apply app_nil_r. }
  assert (Hk5 : writer_kind nc5 = Some (ToConn, defaultBufSize)).
  { unfold writer_kind. subst nc5; simpl. rewrite Hb4. reflexivity. }
  destruct (WriteString_ok cProto nc5 Hw5) as (n1 & HW1 & Hw6 & Ho6 & Hc6 & Hk6).
  rewrite HW1. simpl rbind.
  destruct (core_fields _ _ Hc6) as (_&_&_&_&Hr6&_&_&_&_&Hsu6&Hob6&_&Hs6&He6&_).
  assert (Hwr6 : resendSubscriptions_writes n1 = resendSubscriptions_writes nc).
  { unfold resendSubscriptions_writes, subs_values. subst nc5; simpl in *.
    rewrite Hsu6, Hob6, Hsu4, Hob4. reflexivity. }
  unfold resendSubscriptions.
  destruct (WriteStrings_ok (resendSubscriptions_writes n1) n1 Hw6)
    as (n2 & HW2 & Hw7 & Ho7 & Hc7 & Hk7).
  rewrite HW2. simpl rbind.
  destruct (core_fields _ _ Hc7) as (_&_&_&_&Hr7&_&_&_&_&Hsu7&Hob7&_&Hs7&He7&_).
  assert (Hp7 : pending n2 = Some (b ++ Writer.buf w)).
  { rewrite (WriteStrings_conn_pending (resendSubscriptions_writes n1) defaultBufSize
               n1 n2 Hw6 (eq_trans Hk6 Hk5) HW2).
    rewrite (WriteString_conn_pending cProto nc5 n1 None defaultBufSize Hk5 HW1).
    exact Hp4. }
  destruct (flushReconnectPendingItems_ok n2 _ Hw7 Hp7) as (n3 & -> & Hp8 & Ho8 & Hc8).
  { congruence. }
  simpl rbind.
  destruct (core_fields _ _ Hc8) as (_&_&_&_&Hr8&_&_&_&_&Hsu8&Hob8&_&Hs8&He8&_).
  exists n3. split; [reflexivity|].
  subst nc5; simpl in *.
  split; [congruence|]. split; [congruence|]. split; [exact Hp8|].
  split; [congruence|]. split; [congruence|]. split; [congruence|].
  rewrite Ho8, Ho7, Ho6, Ho5, Hwr6. rewrite <- !app_assoc. reflexivity.
Qed.

Lemma doReconnect_loop_failures cProto env k :
  forall i n nc,
    isClosed nc = false ->
    (forall j, (j < k)%nat -> exists e, dial (env (i + j)%nat) = DialErr e) ->
    exists nc0,
      doReconnect_loop cProto env i (k + n) nc = doReconnect_loop cProto env (i + k) n nc0 /\
      status nc0 = status nc /\ bw nc0 = bw nc /\ pending nc0 = pending nc /\
      Reconnects nc0 = Reconnects nc /\ subs nc0 = subs nc /\ objs nc0 = objs nc /\
      Opts nc0 = Opts nc /\ info nc0 = info nc.
Proof.
  induction k as [|k IH]; intros i n nc Hcl Hfail.
  - exists nc. rewrite Nat.add_0_r. repeat split.
  - destruct (Hfail 0%nat) as [e He]; [lia|]. rewrite Nat.add_0_r in He.
    simpl doReconnect_loop. rewrite Hcl. unfold createConn. rewrite He. simpl rbind.
    destruct (IH (S i) n (set_err None (set_err (Some e) (set_conn None nc))) Hcl)
      as (nc0 & H & H1 & H2 & H3 & H4 & H5 & H6 & H7 & H8).
    { intros j Hj. destruct (Hfail (S j)) as [e' He']; [lia|].
      exists e'. replace (S i + j)%nat with (i + S j)%nat by lia. exact He'. }
    exists nc0. split; [|repeat split; assumption].
    rewrite H. replace (S i + k)%nat with (i + S k)%nat by lia. reflexivity.
Qed.

(** X13.  A reconnect that succeeds loses nothing.  From the RECONNECTING
    state with the writer bound to the pending buffer, if the dials fail
    [k] times, with [k] less than [MaxReconnect], and the next one reaches a
    server that greets with INFO and agrees on TLS, then [doReconnect] makes
    the connection CONNECTED again, counts one reconnect, and what goes out on
    the new socket is, in this order: the CONNECT line, the SUB and UNSUB
    lines of the registry, and everything that was written while the
    connection was down; the pending buffer is gone. *)
Theorem reconnect_delivers_pending :
  forall cProto env nc k c sz,
    status nc = RECONNECTING -> writable nc -> writer_kind nc = Some (ToPending, sz) ->
    Z.of_nat k < U64.to_int (Options.MaxReconnect (Opts nc)) ->
    (forall j, (j < k)%nat -> exists e, dial (env j) = DialErr e) ->
    dial (env k) = DialOk c -> NetConn.up c = true ->
    is_info (line (env k)) = true ->
    Options.Secure (Opts nc) = serverInfo.SslRequired (info_after (line (env k)) nc) ->
    exists nc',
      doReconnect cProto env nc = Ok (nc', true) /\
      status nc' = CONNECTED /\ Reconnects nc' = U64.add (Reconnects nc) 1 /\
      pending nc' = None /\ subs nc' = subs nc /\ objs nc' = objs nc /\
      outbound nc' = NetConn.wire c ++ list_byte_of_string cProto
                       ++ lines_bytes (resendSubscriptions_writes nc) ++ outbound nc.
Proof.
  intros cProto env nc k c sz Hst Hw Hk Hmax Hfail Hd Hup Hinfo Hag.
  assert (Hcl : isClosed nc = false) by (unfold isClosed; rewrite Hst; reflexivity).
  apply writable_at in Hw as (w & b & Hat).
  pose proof (outbound_at _ _ _ Hat) as Hout.
  destruct Hat as (Hbw & He & Hsz & Hl & Hs).
  assert (Hwr : Writer.wr w = ToPending).
  { unfold writer_kind in Hk. rewrite Hbw in Hk. simpl in Hk. congruence. }
  unfold doReconnect.
  set (N := Z.to_nat (U64.to_int (Options.MaxReconnect (Opts nc)))).
  assert (HN : N = (k + S (N - k - 1))%nat) by lia.
  rewrite HN.
  destruct (doReconnect_loop_failures cProto env k 0%nat (S (N - k - 1)) nc Hcl)
    as (nc0 & H & H1 & H2 & H3 & H4 & H5 & H6 & H7 & H8).
  { intros j Hj. simpl. apply Hfail. exact Hj. }
  rewrite H. simpl Nat.add.
  destruct (doReconnect_attempt_ok cProto env k (N - k - 1) nc0 w b c)
    as (nc' & Hr & R1 & R2 & R3 & _ & R5 & R6 & R7); try assumption.
  - congruence.
  - unfold writer_at. rewrite H2. repeat split; try assumption.
    rewrite Hwr in *. simpl in *. congruence.
  - unfold info_after in *. rewrite H7. destruct (line (env k)); congruence.
  - exists nc'. split; [exact Hr|]. split; [exact R1|]. split; [congruence|].
    split; [exact R3|]. split; [congruence|]. split; [congruence|].
    rewrite R7, Hout. unfold resendSubscriptions_writes, subs_values.
    rewrite H5, H6. reflexivity.
Qed.

Lemma reconnect_delivers_pending_witness :
  exists nc',
    doReconnect example_cProto network_back replay_conn = Ok (nc', true) /\
    status nc' = CONNECTED /\ Reconnects nc' = U64.add (Reconnects replay_conn) 1 /\
    pending nc' = None /\ subs nc' = subs replay_conn /\ objs nc' = objs replay_conn /\
    outbound nc' = NetConn.wire (NetConn.mk [] true) ++ list_byte_of_string example_cProto
                     ++ lines_bytes (resendSubscriptions_writes replay_conn)
                     ++ outbound replay_conn.
Proof.
  apply (reconnect_delivers_pending example_cProto network_back replay_conn 2%nat
           (NetConn.mk [] true) defaultPendingSize).
  - reflexivity.
  - exact replay_conn_writable.
  - reflexivity.
  - reflexivity.
  - intros j Hj. exists ErrIO. destruct j as [|[|j]]; [reflexivity | reflexivity | lia].
  - reflexivity.
  - reflexivity.
  - reflexivity.
  - reflexivity.
Defined.

(** ** The flusher and the protocol handlers of the reader *)

Lemma flusher_iter_flushes nc :
  isClosed nc = false -> isReconnecting nc = false -> 0 < fch nc ->
  writable nc -> (exists sz, writer_kind nc = Some (ToConn, sz)) ->
  exists nc',
    flusher_iter nc = Ok (nc', Continue) /\ on_wire nc' = outbound nc /\
    outbound nc' = outbound nc /\ fch nc' = fch nc - 1 /\
    (exists w, bw nc' = Some w /\ Writer.buf w = []) /\
    writable nc' /\ status nc' = status nc.
Proof.
  intros Hcl Hre Hf Hw [sz Hk]. unfold flusher_iter. rewrite Hcl, Hre. simpl.
  replace (fch nc <=? 0) with false by (symmetry; apply Z.leb_gt; exact Hf).
  change (isClosed (set_fch _ nc)) with (isClosed nc).
  change (isReconnecting (set_fch _ nc)) with (isReconnecting nc).
  rewrite Hcl, Hre. simpl.
  apply writable_at in Hw as (w & b & Hat).
  pose proof (outbound_at _ _ _ Hat) as Hout.
  destruct Hat as (Hbw & He & Hsz & Hl & Hs).
  assert (Hwr : Writer.wr w = ToConn).
  { unfold writer_kind in Hk. rewrite Hbw in Hk. simpl in Hk. congruence. }
  rewrite Hwr in Hs. simpl in Hs.
  destruct (conn nc) as [c|] eqn:Hc; [|discriminate].
  destruct (NetConn.up c) eqn:Hup; [|discriminate]. injection Hs as <-.
  change (bw (set_fch (fch nc - 1) nc)) with (bw nc). rewrite ?Hbw.
  change (conn (set_fch (fch nc - 1) nc)) with (conn nc). rewrite ?Hc.
  rewrite andb_true_r.
  destruct (0 <? Writer.Buffered w) eqn:Hb.
  - unfold Flush. change (bw (set_fch (fch nc - 1) nc)) with (bw nc). rewrite Hbw.
    unfold Flush_w. rewrite He.
    replace (Writer.Buffered w =? 0) with false
      by (symmetry; apply Z.eqb_neq; apply Z.ltb_lt in Hb; lia).
    rewrite Hwr. simpl. rewrite Hc, Hup. simpl.
    eexists. split; [reflexivity|]. rewrite Hout. unfold on_wire, outbound, writable. simpl.
    rewrite Hwr. simpl.
    split; [reflexivity|]. split; [apply app_nil_r|]. split; [reflexivity|].
    split; [eexists; split; reflexivity|]. split; [|reflexivity].
    repeat split; try assumption; [unfold len; simpl; lia | eauto].
  - apply Z.ltb_ge in Hb. unfold Writer.Buffered in Hb. pose proof (len_nonneg (Writer.buf w)).
    assert (Hnil : Writer.buf w = []) by (apply len_nil_iff; lia).
    eexists. split; [reflexivity|]. rewrite Hout. unfold on_wire, outbound, writable. simpl.
    rewrite ?Hbw, ?Hc, ?Hwr. simpl. rewrite ?Hc, ?Hup, ?Hnil. simpl.
    split; [symmetry; apply app_nil_r|]. split; [reflexivity|]. split; [reflexivity|].
    split; [eexists; split; [reflexivity|exact Hnil]|]. split; [|reflexivity].
    repeat split; try assumption; [rewrite <- Hnil; exact Hl | eauto].
Qed.

Lemma kickFlusher_signals nc :
  0 <= fch nc -> is_Some (bw nc) -> 0 < fch (kickFlusher nc).
Proof.
  intros Hf [w Hw]. unfold kickFlusher. rewrite Hw.
  destruct (fch nc =? 0) eqn:E; simpl.
  - apply Z.eqb_eq in E. lia.
  - apply Z.eqb_neq in E. lia.
Qed.

Lemma kickFlusher_capacity nc :
  0 <= fch nc <= 1 -> 0 <= fch (kickFlusher nc) <= 1.
Proof.
  intros Hf. unfold kickFlusher.
  destruct (fch nc =? 0) eqn:E; destruct (bw nc); simpl; try lia;
    apply Z.eqb_eq in E; lia.
Qed.

Lemma writable_bw nc : writable nc -> is_Some (bw nc).
Proof. unfold writable. destruct (bw nc); [eauto|tauto]. Qed.

Lemma kickFlusher_frame nc :
  (writable (kickFlusher nc) <-> writable nc) /\ outbound (kickFlusher nc) = outbound nc.
Proof. rewrite kickFlusher_fch. apply writable_frame; reflexivity. Qed.

Lemma publish_signals subj reply data nc :
  isClosed nc = false -> writable nc -> 0 <= fch nc ->
  exists nc',
    publish subj reply data nc = Ok (nc', None) /\
    outbound nc' = outbound nc ++ pub_bytes subj reply data /\
    writable nc' /\ writer_kind nc' = writer_kind nc /\ status nc' = status nc /\
    0 < fch nc'.
Proof.
  intros Hcl Hw Hf. unfold publish. rewrite Hcl.
  destruct (Write_ok (list_byte_of_string (pubProto subj reply (len data))) nc Hw)
    as (nc1 & -> & Hw1 & Ho1 & Hc1 & Hk1). simpl.
  destruct (Write_ok data nc1 Hw1) as (nc2 & -> & Hw2 & Ho2 & Hc2 & Hk2). simpl.
  destruct (WriteString_ok _CRLF_ nc2 Hw2) as (nc3 & -> & Hw3 & Ho3 & Hc3 & Hk3). simpl.
  destruct (core_fields _ _ Hc1) as (_&_&_&_&_&_&Hf1&_&_&_&_&_&Hs1&_).
  destruct (core_fields _ _ Hc2) as (_&_&_&_&_&_&Hf2&_&_&_&_&_&Hs2&_).
  destruct (core_fields _ _ Hc3) as (_&_&_&_&_&_&Hf3&_&_&_&_&_&Hs3&_).
  match goal with |- context [kickFlusher ?x] => set (nc5 := x) end.
  assert (Hfr : (writable nc5 <-> writable nc3) /\ outbound nc5 = outbound nc3)
    by (apply writable_frame; reflexivity).
  destruct Hfr as [Hwr Hor].
  destruct (kickFlusher_frame nc5) as [Hwk Hok].
  exists (kickFlusher nc5). split; [reflexivity|].
  split; [rewrite Hok, Hor, Ho3, Ho2, Ho1; unfold pub_bytes; rewrite <- !app_assoc; reflexivity|].
  split; [apply Hwk, Hwr, Hw3|].
  split; [rewrite kickFlusher_fch; change (writer_kind nc3 = writer_kind nc); congruence|].
  split; [rewrite kickFlusher_fch; change (status nc3 = status nc); congruence|].
  apply kickFlusher_signals.
  - change (0 <= fch nc3). lia.
  - apply writable_bw, Hwr, Hw3.
Qed.

Lemma sendProto_ok proto nc :
  writable nc -> 0 <= fch nc ->
  exists nc',
    sendProto proto nc = Ok nc' /\
    outbound nc' = outbound nc ++ list_byte_of_string proto /\
    writable nc' /\ writer_kind nc' = writer_kind nc /\ 0 < fch nc' /\
    core nc' = set_fch (fch nc') (core nc).
Proof.
  intros Hw Hf. unfold sendProto.
  destruct (WriteString_ok proto nc Hw) as (nc1 & -> & Hw1 & Ho1 & Hc1 & Hk1). simpl.
  destruct (core_fields _ _ Hc1) as (_&_&_&_&_&_&Hf1&_).
  destruct (kickFlusher_frame nc1) as [Hwk Hok].
  exists (kickFlusher nc1). split; [reflexivity|].
  split; [rewrite Hok; exact Ho1|]. split; [apply Hwk, Hw1|].
  split; [rewrite kickFlusher_fch; exact Hk1|].
  split; [apply kickFlusher_signals; [lia | apply writable_bw, Hw1]|].
  rewrite kickFlusher_core, Hc1. reflexivity.
Qed.

Lemma signalled_conn_writable : writable signalled_conn.
Proof. unfold writable; simpl. repeat split; try reflexivity; try (vm_compute; congruence). eauto. Qed.

(** X14.  What is published reaches the socket at the next turn of the
    flusher.  On a connected connection whose writer works, [publish]
    signals the flusher, and the turn of the flusher that takes the signal
    leaves on the socket everything that was outbound before, followed by
    the message; the buffer of the writer is empty and the last error is
    nil.  Without a signal the flusher waits, and on a closed or reconnecting
    connection it stops, in both cases without touching the connection. *)
Theorem published_reaches_socket :
  (forall subj reply data nc sz,
     status nc = CONNECTED -> writable nc -> writer_kind nc = Some (ToConn, sz) ->
     0 <= fch nc ->
     exists nc1 nc2,
       publish subj reply data nc = Ok (nc1, None) /\
       flusher_iter nc1 = Ok (nc2, Continue) /\
       on_wire nc2 = outbound nc ++ pub_bytes subj reply data /\
       (exists w, bw nc2 = Some w /\ Writer.buf w = []) /\
       status nc2 = CONNECTED) /\
  (forall nc, isClosed nc = false -> isReconnecting nc = false -> fch nc <= 0 ->
              flusher_iter nc = Ok (nc, Blocked)) /\
  (forall nc, isClosed nc = true \/ isReconnecting nc = true ->
              flusher_iter nc = Ok (nc, Break)).
Proof.
  split; [|split].
  - intros subj reply data nc sz Hst Hw Hk Hf.
    assert (Hcl : isClosed nc = false) by (unfold isClosed; rewrite Hst; reflexivity).
    destruct (publish_signals subj reply data nc Hcl Hw Hf)
      as (nc1 & H1 & Ho1 & Hw1 & Hk1 & Hs1 & Hf1).
    destruct (flusher_iter_flushes nc1) as (nc2 & H2 & Hwire & _ & _ & Hbuf & _ & Hs2).
    + unfold isClosed. rewrite Hs1, Hst. reflexivity.
    + unfold isReconnecting. rewrite Hs1, Hst. reflexivity.
    + exact Hf1.
    + exact Hw1.
    + exists sz. congruence.
    + exists nc1, nc2. split; [exact H1|]. split; [exact H2|].
      split; [congruence|]. split; [exact Hbuf|]. congruence.
  - intros nc Hcl Hre Hf. unfold flusher_iter. rewrite Hcl, Hre. simpl.
    replace (fch nc <=? 0) with true by (symmetry; apply Z.leb_le; exact Hf).
    reflexivity.
  - intros nc [H|H]; unfold flusher_iter; rewrite H; [|rewrite orb_true_r]; reflexivity.
Qed.

Lemma published_reaches_socket_witness :
  exists nc1 nc2,
    publish "foo" "" [] example_conn = Ok (nc1, None) /\
    flusher_iter nc1 = Ok (nc2, Continue) /\
    on_wire nc2 = outbound example_conn ++ pub_bytes "foo" "" [] /\
    (exists w, bw nc2 = Some w /\ Writer.buf w = []) /\
    status nc2 = CONNECTED.
Proof.
  apply (proj1 published_reaches_socket "foo"%string ""%string [] example_conn defaultBufSize).
  - reflexivity.
  - exact example_conn_writable.
  - reflexivity.
  - simpl. lia.
Defined.

(** X15.  A PING of the server is answered.  The turn of the reader that
    reads PING on a connected connection whose writer works appends the PONG
    line to what is outbound and signals the flusher, whose next turn leaves
    it on the socket; subscriptions, flush waiters, counters and status are
    as before.  A turn that reads +OK or an unknown verb changes nothing. *)
Theorem ping_is_answered :
  (forall nc sz,
     status nc = CONNECTED -> writable nc -> writer_kind nc = Some (ToConn, sz) ->
     0 <= fch nc ->
     exists nc1 nc2,
       readLoop_iter CPing nc = Ok (nc1, Continue) /\
       outbound nc1 = outbound nc ++ list_byte_of_string pongProto /\
       core nc1 = set_fch (fch nc1) (core nc) /\
       flusher_iter nc1 = Ok (nc2, Continue) /\
       on_wire nc2 = outbound nc ++ list_byte_of_string pongProto) /\
  (forall nc, isClosed nc = false -> isReconnecting nc = false ->
              readLoop_iter COk nc = Ok (nc, Continue) /\
              readLoop_iter COther nc = Ok (nc, Continue)).
Proof.
  split.
  - intros nc sz Hst Hw Hk Hf.
    assert (Hcl : isClosed nc = false) by (unfold isClosed; rewrite Hst; reflexivity).
    assert (Hre : isReconnecting nc = false) by (unfold isReconnecting; rewrite Hst; reflexivity).
    destruct (sendProto_ok pongProto nc Hw Hf) as (nc1 & H1 & Ho1 & Hw1 & Hk1 & Hf1 & Hc1).
    assert (Hs1 : status nc1 = status nc).
    { destruct (core_fields (set_fch (fch nc1) nc) nc1) as (_&_&_&_&_&_&_&_&_&_&_&_&Hs&_);
        [exact Hc1 | exact Hs]. }
    destruct (flusher_iter_flushes nc1) as (nc2 & H2 & Hwire & _).
    + unfold isClosed. rewrite Hs1, Hst. reflexivity.
    + unfold isReconnecting. rewrite Hs1, Hst. reflexivity.
    + exact Hf1.
    + exact Hw1.
    + exists sz. congruence.
    + exists nc1, nc2. unfold readLoop_iter, processPing. rewrite Hcl, Hre, H1. simpl.
      split; [reflexivity|]. split; [exact Ho1|]. split; [exact Hc1|].
      split; [exact H2|]. congruence.
  - intros nc Hcl Hre. unfold readLoop_iter. rewrite Hcl, Hre. simpl. split; reflexivity.
Qed.

Lemma ping_is_answered_witness :
  exists nc1 nc2,
    readLoop_iter CPing signalled_conn = Ok (nc1, Continue) /\
    outbound nc1 = outbound signalled_conn ++ list_byte_of_string pongProto /\
    core nc1 = set_fch (fch nc1) (core signalled_conn) /\
    flusher_iter nc1 = Ok (nc2, Continue) /\
    on_wire nc2 = outbound signalled_conn ++ list_byte_of_string pongProto.
Proof.
  apply (proj1 ping_is_answered signalled_conn defaultBufSize).
  - reflexivity.
  - exact signalled_conn_writable.
  - reflexivity.
  - simpl. lia.
Defined.

(** ** Asynchronous delivery under a budget *)

Lemma U64_add_small a b : 0 <= a + b < U64.modulus -> U64.add a b = a + b.
Proof. intros H. unfold U64.add, U64.wrap. apply Z.mod_small. exact H. Qed.

Lemma within_nil {A : Type} (M n : Z) : within M n (@nil A) = [].
Proof. unfold within. destruct (0 <? M); [apply take_nil|reflexivity]. Qed.

Lemma within_none {A : Type} (M n : Z) (l : list A) :
  0 < M -> n <= 0 -> within M n l = [].
Proof.
  intros HM Hn. unfold within.
  replace (0 <? M) with true by (symmetry; apply Z.ltb_lt; exact HM).
  replace (Z.to_nat n) with O by lia. reflexivity.
Qed.

Lemma within_cons {A : Type} (M n : Z) (x : A) (l : list A) :
  M <= 0 \/ 0 < n -> within M n (x :: l) = x :: within M (n - 1) l.
Proof.
  intros H. unfold within. destruct (0 <? M) eqn:E; [|reflexivity].
  apply Z.ltb_lt in E. destruct H as [H|H]; [lia|].
  replace (Z.to_nat n) with (S (Z.to_nat (n - 1))) by lia. reflexivity.
Qed.

Lemma arrive_async p nc M a d b f :
  async_at p nc M a d b -> Z.of_nat (length b) < maxChanLen ->
  0 <= a -> a + 1 < U64.modulus ->
  exists nc',
    processMsg (Frame (fst (fst f)) (snd (fst f)) p (snd f)) nc = Ok nc' /\
    (if (0 <? M) && (M <? a) then async_at p nc' M a d b
     else async_at p nc' M (a + 1) d (b ++ [frame_msg p f])) /\
    trace nc' = trace nc /\ status nc' = status nc.
Proof.
  intros (s & Hl & Hc & Hcb & Hm & Hmax & Ha & Hd & Hbox) Hlen Ha0 Ha1. unfold processMsg.
  change (subs_lookup p (set_InStats _ _ nc)) with (subs_lookup p nc). rewrite Hl.
  cbv beta iota. rewrite Hmax, Ha.
  destruct ((0 <? M) && (M <? a)).
  - eexists. split; [reflexivity|]. split; [|split; reflexivity].
    exists s. repeat split; assumption.
  - simpl. rewrite Hm, Hbox. simpl.
    replace (maxChanLen <=? Z.of_nat (length b)) with false
      by (symmetry; apply Z.leb_gt; exact Hlen).
    eexists. split; [reflexivity|]. split; [|split; reflexivity].
    eexists. split.
    + unfold subs_lookup in *. simpl. destruct (decide (p ∈ subs nc)); [|discriminate].
      apply lookup_insert_eq.
    + simpl. repeat split; try assumption; try reflexivity.
      apply U64_add_small. lia.
Qed.

Lemma arrive_all_async l :
  forall p nc M a d b,
    async_at p nc M a d b ->
    Z.of_nat (length b) + Z.of_nat (length l) <= maxChanLen ->
    0 <= a -> a + Z.of_nat (length l) < U64.modulus -> 0 <= M ->
    exists nc',
      arrive_all p l nc = Ok nc' /\
      async_at p nc' M (a + Z.of_nat (length (within M (M + 1 - a) l))) d
               (b ++ map (frame_msg p) (within M (M + 1 - a) l)) /\
      trace nc' = trace nc /\ status nc' = status nc.
Proof.
  induction l as [|f l IH]; intros p nc M a d b Hat Hlen Ha0 Ha1 HM; simpl.
  - exists nc. rewrite within_nil. simpl. rewrite app_nil_r, Z.add_0_r. auto.
  - simpl length in Hlen, Ha1.
    destruct (arrive_async p nc M a d b f Hat) as (nc1 & -> & Hat1 & Ht1 & Hs1); [lia..|].
    simpl. destruct ((0 <? M) && (M <? a)) eqn:G.
    + apply andb_true_iff in G as [G1 G2]. apply Z.ltb_lt in G1, G2.
      destruct (IH p nc1 M a d b Hat1) as (nc' & H & Hat' & Ht' & Hs'); [lia..|].
      exists nc'. split; [exact H|].
      rewrite (within_none M (M + 1 - a) (f :: l)) by lia.
      rewrite (within_none M (M + 1 - a) l) in Hat' by lia.
      split; [exact Hat'|]. split; congruence.
    + assert (Hg : M <= 0 \/ 0 < M + 1 - a).
      { apply andb_false_iff in G as [G|G]; [apply Z.ltb_ge in G|apply Z.ltb_ge in G]; lia. }
      destruct (IH p nc1 M (a + 1) d (b ++ [frame_msg p f]) Hat1)
        as (nc' & H & Hat' & Ht' & Hs').
      { rewrite length_app. simpl. lia. }
      { lia. }
      { lia. }
      { exact HM. }
      exists nc'. split; [exact H|].
      rewrite (within_cons M (M + 1 - a) f l Hg). simpl map. simpl length.
      replace (M + 1 - a - 1) with (M + 1 - (a + 1)) by lia.
      rewrite <- app_assoc in Hat'. simpl in Hat'.
      replace (a + Z.of_nat (S (length (within M (M + 1 - (a + 1)) l))))
        with (a + 1 + Z.of_nat (length (within M (M + 1 - (a + 1)) l))) by lia.
      split; [exact Hat'|]. split; congruence.
Qed.

Lemma deliver_async p nc M a d m b :
  async_at p nc M a d (m :: b) -> Msg.Sub m = p -> isClosed nc = false ->
  0 <= d -> d + 1 < U64.modulus ->
  exists nc',
    deliverMsgs_iter p nc = Ok (nc', Continue) /\
    async_at p nc' M a (d + 1) b /\
    trace nc' = trace nc ++ (if (M <=? 0) || (d + 1 <=? M) then [EvMsgCB p m] else []) /\
    status nc' = status nc.
Proof.
  intros (s & Hl & Hc & Hcb & Hm & Hmax & Ha & Hd & Hbox) Hsub Hcl Hd0 Hd1.
  pose proof (subs_lookup_objs _ _ _ Hl) as Hp.
  unfold deliverMsgs_iter. rewrite Hcl, Hp, Hbox. simpl. rewrite Hsub.
  rewrite lookup_insert_eq. simpl. rewrite Hc, Hcb, Hmax, Hd. simpl.
  rewrite (U64_add_small d 1) by lia.
  assert (Hin : p ∈ subs nc).
  { unfold subs_lookup in Hl. destruct (decide (p ∈ subs nc)); [assumption|discriminate]. }
  destruct ((M <=? 0) || (d + 1 <=? M)).
  - eexists. split; [reflexivity|]. split; [|split; reflexivity].
    eexists. split.
    + unfold subs_lookup. simpl. destruct (decide (p ∈ subs nc)); [|contradiction].
      apply lookup_insert_eq.
    + simpl. repeat split; assumption.
  - eexists. split; [reflexivity|]. split; [|split; [symmetry; apply app_nil_r|reflexivity]].
    eexists. split.
    + unfold subs_lookup. simpl. destruct (decide (p ∈ subs nc)); [|contradiction].
      apply lookup_insert_eq.
    + simpl. repeat split; assumption.
Qed.

Lemma deliver_all_async b :
  forall p nc M a d,
    async_at p nc M a d b -> Forall (fun m => Msg.Sub m = p) b -> isClosed nc = false ->
    0 <= d -> d + Z.of_nat (length b) < U64.modulus -> 0 <= M ->
    exists nc',
      deliver_all (length b) p nc = Ok nc' /\
      async_at p nc' M a (d + Z.of_nat (length b)) [] /\
      trace nc' = trace nc ++ map (EvMsgCB p) (within M (M - d) b) /\
      status nc' = status nc.
Proof.
  induction b as [|m b IH]; intros p nc M a d Hat Hall Hcl Hd0 Hd1 HM; simpl.
  - exists nc. rewrite within_nil, Z.add_0_r, app_nil_r. auto.
  - simpl length in Hd1. apply Forall_cons in Hall as [Hsub Hall].
    destruct (deliver_async p nc M a d m b Hat Hsub Hcl) as (nc1 & -> & Hat1 & Ht1 & Hs1);
      [lia..|].
    simpl.
    destruct (IH p nc1 M a (d + 1) Hat1 Hall) as (nc' & H & Hat' & Ht' & Hs').
    { unfold isClosed in *. rewrite Hs1. exact Hcl. }
    { lia. }
    { lia. }
    { exact HM. }
    exists nc'. split; [exact H|].
    replace (d + Z.of_nat (S (length b))) with (d + 1 + Z.of_nat (length b)) by lia.
    split; [exact Hat'|]. split; [|congruence].
    rewrite Ht', Ht1, <- app_assoc. f_equal.
    destruct ((M <=? 0) || (d + 1 <=? M)) eqn:G.
    + rewrite (within_cons M (M - d) m b).
      * simpl. replace (M - d - 1) with (M - (d + 1)) by lia. reflexivity.
      * apply orb_true_iff in G as [G|G]; [apply Z.leb_le in G|apply Z.leb_le in G]; lia.
    + apply orb_false_iff in G as [G1 G2]. apply Z.leb_gt in G1, G2.
      rewrite (within_none M (M - d) (m :: b)) by lia.
      rewrite (within_none M (M - (d + 1)) b) by lia. reflexivity.
Qed.

Lemma within_within {A B : Type} (g : A -> B) (M n : Z) (l : list A) :
  within M n (map g (within M (n + 1) l)) = map g (within M n l).
Proof.
  unfold within. destruct (0 <? M); [|reflexivity].
  rewrite <- !firstn_map, firstn_firstn. rewrite Nat.min_l by lia. reflexivity.
Qed.

Lemma Forall_frame_msg p l : Forall (fun m => Msg.Sub m = p) (map (frame_msg p) l).
Proof. induction l as [|f l IH]; simpl; constructor; [reflexivity|exact IH]. Qed.

(** X16.  An asynchronous subscription hands to its callback exactly what
    its budget allows.  The subscription is registered and valid, its mailbox
    is empty, its budget is [M] (nil when [M = 0]) and [g] messages have
    arrived and been handed over so far.  When the reader then processes the
    frames [l] and [deliverMsgs] takes what reached the mailbox, the callback
    is called with the first [M - g] of them when there is a budget, and with
    all of them when there is none, in the order of arrival.  The mailbox
    itself receives one message more than the budget allows, which
    [deliverMsgs] counts and discards. *)
Theorem async_budget_callbacks :
  forall l p nc M g,
    async_at p nc M g g [] -> isClosed nc = false ->
    0 <= g -> 0 <= M -> Z.of_nat (length l) <= maxChanLen ->
    g + Z.of_nat (length l) < U64.modulus ->
    exists nc1 nc2,
      arrive_all p l nc = Ok nc1 /\
      (exists a, async_at p nc1 M a g (map (frame_msg p) (within M (M + 1 - g) l))) /\
      deliver_all (length (within M (M + 1 - g) l)) p nc1 = Ok nc2 /\
      trace nc2 = trace nc ++ map (fun f => EvMsgCB p (frame_msg p f)) (within M (M - g) l) /\
      (exists a d, async_at p nc2 M a d []).
Proof.
  intros l p nc M g Hat Hcl Hg HM Hlen Hwrap.
  destruct (arrive_all_async l p nc M g g [] Hat) as (nc1 & H1 & Hat1 & Ht1 & Hs1);
    [simpl; lia | lia | lia | lia |].
  simpl in Hat1.
  assert (Hk : Z.of_nat (length (within M (M + 1 - g) l)) <= Z.of_nat (length l)).
  { unfold within. destruct (0 <? M); [|lia]. rewrite length_take. lia. }
  destruct (deliver_all_async (map (frame_msg p) (within M (M + 1 - g) l)) p nc1 M _ g Hat1)
    as (nc2 & H2 & Hat2 & Ht2 & Hs2).
  { apply Forall_frame_msg. }
  { unfold isClosed in *. rewrite Hs1. exact Hcl. }
  { lia. }
  { rewrite length_map. lia. }
  { exact HM. }
  rewrite length_map in H2.
  exists nc1, nc2. split; [exact H1|]. split; [eauto|]. split; [exact H2|].
  split; [|eauto].
  rewrite Ht2, Ht1. f_equal.
  replace (M + 1 - g) with (M - g + 1) by lia.
  rewrite within_within, map_map. reflexivity.
Qed.

Lemma async_budget_callbacks_witness :
  exists nc1 nc2,
    arrive_all 1 three_frames async_conn = Ok nc1 /\
    (exists a, async_at 1 nc1 2 a 0
                 (map (frame_msg 1) (within 2 (2 + 1 - 0) three_frames))) /\
    deliver_all (length (within 2 (2 + 1 - 0) three_frames)) 1 nc1 = Ok nc2 /\
    trace nc2 = trace async_conn ++
                map (fun f => EvMsgCB 1 (frame_msg 1 f)) (within 2 (2 - 0) three_frames) /\
    (exists a d, async_at 1 nc2 2 a d []).
Proof.
  apply (async_budget_callbacks three_frames 1 async_conn 2 0).
  - eexists. split; [vm_compute; reflexivity|]. repeat split.
  - reflexivity.
  - lia.
  - lia.
  - vm_compute. discriminate.
  - vm_compute. reflexivity.
Defined.

(** ** Request *)

Lemma subscribe_spec subj queue cb nc sid :
  sid = U64.add (ssid nc) 1 ->
  registry_wf nc -> isClosed nc = false -> isReconnecting nc = false -> writable nc ->
  exists nc',
    subscribe subj queue cb nc = Ok (nc', inr sid) /\
    subs nc' = {[sid]} ∪ subs nc /\
    subs_lookup sid nc' = Some (fresh_sub sid subj cb) /\
    status nc' = status nc /\
    outbound nc' = outbound nc ++ list_byte_of_string (subProto subj queue sid) /\
    writable nc' /\ registry_wf nc'.
Proof.
  intros -> Hwf Hcl Hre Hw.
  destruct (subscribe subj queue cb nc) as [[nc' r]|] eqn:HS.
  2:{ exfalso. unfold subscribe in HS. rewrite Hcl in HS.
      change (isReconnecting (set_subs _ _)) with (isReconnecting nc) in HS.
      rewrite Hre in HS.
      match type of HS with context [WriteString ?s ?x] =>
        destruct (WriteString_ok s x) as (n & Hn & _); [exact Hw|]; rewrite Hn in HS end.
      discriminate. }
  pose proof (subscribe_wf _ _ _ _ _ _ Hwf HS) as Hwf'.
  unfold subscribe in HS. rewrite Hcl in HS.
  set (sid := U64.add (ssid nc) 1) in *.
  set (nc1 := set_subs _ _) in *.
  assert (Hl : subs_lookup sid nc1 = Some (fresh_sub sid subj cb)).
  { unfold subs_lookup. subst nc1; simpl.
    destruct (decide (sid ∈ {[sid]} ∪ subs nc)) as [_|Hn].
    - apply lookup_insert_eq.
    - exfalso. apply Hn. apply elem_of_union. left. apply elem_of_singleton. reflexivity. }
  destruct (writable_frame nc nc1 eq_refl eq_refl eq_refl) as [Hw1 Ho1].
  change (isReconnecting nc1) with (isReconnecting nc) in HS. rewrite Hre in HS.
  destruct (WriteString_ok (subProto subj queue sid) nc1 (proj2 Hw1 Hw))
    as (nc2 & HW & Hw2 & Ho2 & Hc2 & _).
  rewrite HW in HS. simpl in HS. injection HS as <- <-.
  destruct (core_fields _ _ Hc2) as (_&_&_&_&_&_&_&_&Hss&Hsu&Hob&_&Hst&_).
  destruct (kickFlusher_frame nc2) as [Hwk Hok].
  exists (kickFlusher nc2). split; [reflexivity|].
  split; [rewrite kickFlusher_subs; exact Hsu|].
  split; [unfold subs_lookup in *; rewrite kickFlusher_subs, kickFlusher_objs, Hsu, Hob; exact Hl|].
  split; [rewrite kickFlusher_fch; exact Hst|].
  split; [rewrite Hok, Ho2, Ho1; reflexivity|].
  split; [apply Hwk; exact Hw2|exact Hwf'].
Qed.

Lemma unsubscribe_full p max nc s :
  registry_wf nc -> isClosed nc = false -> isReconnecting nc = false -> writable nc ->
  subs_lookup p nc = Some s ->
  exists nc',
    unsubscribe p max nc = Ok (nc', None) /\
    subs nc' = (if 0 <? max then subs nc else subs nc ∖ {[p]}) /\
    objs nc' = <[p := if 0 <? max then Subscription.set_max (U64.wrap max) s
                      else Subscription.set_conn false (Subscription.close_mch s)]> (objs nc) /\
    status nc' = status nc /\
    outbound nc' = outbound nc ++
      list_byte_of_string (unsubProto p (if 0 <? max then Itoa max else _EMPTY_)) /\
    writable nc' /\ registry_wf nc'.
Proof.
  intros Hwf Hcl Hre Hw Hl.
  destruct (unsubscribe_spec p max nc s Hwf Hcl Hw Hl) as (nc' & H & Hs & Ho & Hst & Hob).
  rewrite Hre in Hob.
  exists nc'. split; [exact H|]. split; [exact Hs|]. split; [exact Ho|].
  split; [exact Hst|]. split; [exact Hob|].
  split; [|exact (unsubscribe_wf _ _ _ _ _ Hwf H)].
  destruct (subs_lookup_wf nc p s Hwf Hl) as (Hp & Hsid & _).
  unfold unsubscribe in H. rewrite Hcl, Hp, Hsid, Hl in H.
  set (nc1 := if 0 <? max then _ else _) in H.
  assert (H1 : status nc1 = status nc /\ bw nc1 = bw nc /\ conn nc1 = conn nc /\
               pending nc1 = pending nc).
  { subst nc1. destruct (0 <? max); simpl; repeat split. }
  destruct H1 as (Hst1 & Hb1 & Hc1 & Hp1).
  destruct (writable_frame nc nc1 Hb1 Hc1 Hp1) as [Hw1 _].
  replace (isReconnecting nc1) with (isReconnecting nc) in H
    by (unfold isReconnecting; rewrite Hst1; reflexivity).
  rewrite Hre in H.
  match type of H with context [WriteString ?x ?y] =>
    destruct (WriteString_ok x y (proj2 Hw1 Hw)) as (nc2 & HW & Hw2 & _) end.
  rewrite HW in H. simpl in H. injection H as <-.
  apply (proj1 (kickFlusher_frame nc2)). exact Hw2.
Qed.

Lemma publish_full subj reply data nc :
  isClosed nc = false -> writable nc ->
  exists nc',
    publish subj reply data nc = Ok (nc', None) /\
    outbound nc' = outbound nc ++ pub_bytes subj reply data /\
    writable nc' /\ status nc' = status nc /\
    objs nc' = objs nc /\ subs nc' = subs nc.
Proof.
  intros Hcl Hw. unfold publish. rewrite Hcl.
  destruct (Write_ok (list_byte_of_string (pubProto subj reply (len data))) nc Hw)
    as (nc1 & -> & Hw1 & Ho1 & Hc1 & Hk1). simpl.
  destruct (Write_ok data nc1 Hw1) as (nc2 & -> & Hw2 & Ho2 & Hc2 & Hk2). simpl.
  destruct (WriteString_ok _CRLF_ nc2 Hw2) as (nc3 & -> & Hw3 & Ho3 & Hc3 & Hk3). simpl.
  destruct (core_fields _ _ Hc1) as (_&_&_&_&_&_&_&_&_&Hsu1&Hob1&_&Hs1&_).
  destruct (core_fields _ _ Hc2) as (_&_&_&_&_&_&_&_&_&Hsu2&Hob2&_&Hs2&_).
  destruct (core_fields _ _ Hc3) as (_&_&_&_&_&_&_&_&_&Hsu3&Hob3&_&Hs3&_).
  match goal with |- context [kickFlusher ?x] => set (nc5 := x) end.
  assert (Hfr : (writable nc5 <-> writable nc3) /\ outbound nc5 = outbound nc3)
    by (apply writable_frame; reflexivity).
  destruct Hfr as [Hwr Hor].
  destruct (kickFlusher_frame nc5) as [Hwk Hok].
  exists (kickFlusher nc5). split; [reflexivity|].
  split; [rewrite Hok, Hor, Ho3, Ho2, Ho1; unfold pub_bytes; rewrite <- !app_assoc; reflexivity|].
  split; [apply Hwk, Hwr, Hw3|].
  split; [rewrite kickFlusher_fch; change (status nc3 = status nc); congruence|].
  split; [rewrite kickFlusher_objs; change (objs nc3 = objs nc); congruence|].
  rewrite kickFlusher_subs. change (subs nc3 = subs nc). congruence.
Qed.

Lemma request_sub_eq sid inbox :
  request_sub sid inbox = Subscription.mk sid inbox _EMPTY_ 0 0 0 1 true false true Chan.make false.
Proof. reflexivity. Qed.

Lemma Request_begin_ok inbox subj data nc sid :
  sid = U64.add (ssid nc) 1 ->
  registry_wf nc -> status nc = CONNECTED -> writable nc ->
  exists nc1,
    Request_begin inbox subj data nc = Ok (nc1, inr sid) /\
    outbound nc1 = outbound nc ++ list_byte_of_string (subProto inbox _EMPTY_ sid)
                    ++ list_byte_of_string (unsubProto sid (Itoa 1))
                    ++ pub_bytes subj inbox data /\
    writable nc1 /\ registry_wf nc1 /\ status nc1 = CONNECTED /\
    subs nc1 = {[sid]} ∪ subs nc /\
    subs_lookup sid nc1 = Some (request_sub sid inbox).
Proof.
  intros Hsid Hwf Hst Hw.
  assert (Hcl : isClosed nc = false) by (unfold isClosed; rewrite Hst; reflexivity).
  assert (Hre : isReconnecting nc = false) by (unfold isReconnecting; rewrite Hst; reflexivity).
  destruct (subscribe_spec inbox _EMPTY_ false nc sid Hsid Hwf Hcl Hre Hw)
    as (nc1 & H1 & Hs1 & Hl1 & Hst1 & Ho1 & Hw1 & Hwf1).
  assert (Hcl1 : isClosed nc1 = false) by (unfold isClosed; rewrite Hst1, Hst; reflexivity).
  assert (Hre1 : isReconnecting nc1 = false)
    by (unfold isReconnecting; rewrite Hst1, Hst; reflexivity).
  destruct (unsubscribe_full sid 1 nc1 _ Hwf1 Hcl1 Hre1 Hw1 Hl1)
    as (nc2 & H2 & Hs2 & Hob2 & Hst2 & Ho2 & Hw2 & Hwf2).
  change (0 <? 1) with true in *.
  assert (Hcl2 : isClosed nc2 = false)
    by (unfold isClosed; rewrite Hst2, Hst1, Hst; reflexivity).
  destruct (publish_full subj inbox data nc2 Hcl2 Hw2)
    as (nc3 & H3 & Ho3 & Hw3 & Hst3 & Hob3 & Hs3).
  exists nc3. split.
  - unfold Request_begin. rewrite H1. simpl.
    unfold AutoUnsubscribe. rewrite (subs_lookup_objs _ _ _ Hl1). simpl.
    rewrite H2. simpl. rewrite H3. reflexivity.
  - split; [rewrite Ho3, Ho2, Ho1, <- !app_assoc; reflexivity|].
    split; [exact Hw3|].
    split; [apply (registry_wf_objs nc2 nc3 Hob3 Hs3 Hwf2)|].
    split; [congruence|]. split; [congruence|].
    unfold subs_lookup. rewrite Hs3, Hob3, Hs2, Hob2.
    destruct (decide (sid ∈ subs nc1)) as [_|Hn].
    + apply lookup_insert_eq.
    + exfalso. apply Hn. rewrite Hs1. apply elem_of_union. left.
      apply elem_of_singleton. reflexivity.
Qed.

Lemma Unsubscribe_after sid nc s :
  registry_wf nc -> status nc = CONNECTED -> writable nc ->
  subs_lookup sid nc = Some s ->
  exists nc',
    Unsubscribe sid nc = Ok (nc', None) /\
    subs nc' = subs nc ∖ {[sid]} /\
    outbound nc' = outbound nc ++ list_byte_of_string (unsubProto sid _EMPTY_) /\
    (exists s', objs nc' !! sid = Some s' /\ Subscription.conn s' = false).
Proof.
  intros Hwf Hst Hw Hl.
  assert (Hcl : isClosed nc = false) by (unfold isClosed; rewrite Hst; reflexivity).
  assert (Hre : isReconnecting nc = false) by (unfold isReconnecting; rewrite Hst; reflexivity).
  destruct (subs_lookup_wf nc sid s Hwf Hl) as (Hp & _ & Hc & _).
  destruct (unsubscribe_full sid 0 nc s Hwf Hcl Hre Hw Hl)
    as (nc' & H & Hs & Hob & _ & Ho & _).
  change (0 <? 0) with false in *.
  exists nc'. split; [unfold Unsubscribe; rewrite Hp, Hc; exact H|].
  split; [exact Hs|]. split; [exact Ho|].
  eexists. split; [rewrite Hob; apply lookup_insert_eq|reflexivity].
Qed.

(** X17.  [Request] leaves no subscription behind.  On a connected
    connection whose writer works, [Request] subscribes to the inbox under
    the next identifier, limits the subscription to one message and publishes
    the request with the inbox as reply subject: one SUB line, one UNSUB line
    with the count 1 and the message are written, in this order.  When a
    message for the inbox arrives, [Request] returns it; when the timer fires
    first, it returns the timeout error.  In both cases the deferred
    [Unsubscribe] has taken the subscription out of the registry, marked it
    invalid and written one UNSUB line without a count.  On a closed
    connection [Request] fails with the connection-closed error and the
    registry is as before. *)
Theorem Request_round_trip :
  (forall inbox subj data nc sid,
     sid = U64.add (ssid nc) 1 ->
     registry_wf nc -> status nc = CONNECTED -> writable nc ->
     exists nc1,
       Request_begin inbox subj data nc = Ok (nc1, inr sid) /\
       outbound nc1 = outbound nc ++ list_byte_of_string (subProto inbox _EMPTY_ sid)
                       ++ list_byte_of_string (unsubProto sid (Itoa 1))
                       ++ pub_bytes subj inbox data /\
       (forall f, exists nc2 nc3,
           processMsg (Frame (fst (fst f)) (snd (fst f)) sid (snd f)) nc1 = Ok nc2 /\
           Request_end false sid nc2 = Ok (nc3, inr (frame_msg sid f)) /\
           subs nc3 = subs nc ∖ {[sid]} /\
           (exists s', objs nc3 !! sid = Some s' /\ Subscription.conn s' = false) /\
           outbound nc3 = outbound nc1 ++ list_byte_of_string (unsubProto sid _EMPTY_)) /\
       (exists nc3,
           Request_end true sid nc1 = Ok (nc3, inl ErrTimeout) /\
           subs nc3 = subs nc ∖ {[sid]} /\
           (exists s', objs nc3 !! sid = Some s' /\ Subscription.conn s' = false) /\
           outbound nc3 = outbound nc1 ++ list_byte_of_string (unsubProto sid _EMPTY_))) /\
  (forall inbox subj data nc,
     isClosed nc = true ->
     exists nc1, Request_begin inbox subj data nc = Ok (nc1, inl ErrConnectionClosed) /\
                 subs nc1 = subs nc /\ objs nc1 = objs nc).
Proof.
  split.
  - intros inbox subj data nc sid Hsid Hwf Hst Hw.
    destruct (Request_begin_ok inbox subj data nc sid Hsid Hwf Hst Hw)
      as (nc1 & H1 & Ho1 & Hw1 & Hwf1 & Hst1 & Hs1 & Hl1).
    assert (Hin : sid ∈ subs nc1).
    { rewrite Hs1. apply elem_of_union. left. apply elem_of_singleton. reflexivity. }
    assert (Hset : subs nc1 ∖ {[sid]} = subs nc ∖ {[sid]}).
    { rewrite Hs1. apply set_eq. intros x.
      rewrite !elem_of_difference, elem_of_union, elem_of_singleton. tauto. }
    exists nc1. split; [exact H1|]. split; [exact Ho1|]. split.
    + intros f.
      destruct (processMsg (Frame (fst (fst f)) (snd (fst f)) sid (snd f)) nc1)
        as [nc2|] eqn:HM.
      2:{ exfalso. unfold processMsg in HM.
          change (subs_lookup sid (set_InStats _ _ nc1)) with (subs_lookup sid nc1) in HM.
          rewrite Hl1, request_sub_eq in HM. simpl in HM. discriminate. }
      pose proof (processMsg_wf _ _ _ Hwf1 HM) as Hwf2.
      unfold processMsg in HM.
      change (subs_lookup sid (set_InStats _ _ nc1)) with (subs_lookup sid nc1) in HM.
      rewrite Hl1, request_sub_eq in HM. simpl in HM.
      rewrite (U64_add_small 0 1) in HM by (vm_compute; split; congruence).
      injection HM as <-.
      match type of Hwf2 with registry_wf (store sid ?s ?n) =>
        set (s2 := s) in *; set (n1 := n) in * end.
      destruct (Conn_NextMsg false sid (store sid s2 n1)) as [[nc3 r]|] eqn:HN.
      2:{ exfalso. unfold Conn_NextMsg in HN. simpl in HN. rewrite lookup_insert_eq in HN.
          destruct (NextMsg false s2); discriminate. }
      pose proof (Conn_NextMsg_wf _ _ _ _ _ Hwf2 HN) as Hwf3.
      unfold Conn_NextMsg in HN. simpl in HN. rewrite lookup_insert_eq in HN.
      subst s2. unfold NextMsg in HN. simpl in HN.
      rewrite (U64_add_small 0 1) in HN by (vm_compute; split; congruence).
      simpl in HN. injection HN as <- <-.
      match type of Hwf3 with registry_wf (store sid ?s ?n) =>
        set (s3 := s) in *; set (n3 := store sid s3 n) in * end.
      destruct (writable_frame nc1 n3 eq_refl eq_refl eq_refl) as [Hw3 Ho3].
      destruct (Unsubscribe_after sid n3 s3 Hwf3 Hst1 (proj2 Hw3 Hw1))
        as (nc4 & H4 & Hs4 & Ho4 & Hinv).
      { unfold subs_lookup. subst n3. simpl.
        destruct (decide (sid ∈ subs nc1)); [|contradiction]. apply lookup_insert_eq. }
      eexists. exists nc4. split; [reflexivity|]. split.
      * unfold Request_end, Conn_NextMsg. simpl. rewrite lookup_insert_eq.
        unfold NextMsg. simpl.
        rewrite (U64_add_small 0 1) by (vm_compute; split; congruence). simpl.
        match goal with |- context [Unsubscribe sid ?x] => change x with n3 end.
        rewrite H4. reflexivity.
      * split; [rewrite Hs4; exact Hset|]. split; [exact Hinv|].
        rewrite Ho4, Ho3. reflexivity.
    + destruct (subs_lookup_wf nc1 sid _ Hwf1 Hl1) as (Hp & _).
      destruct (Unsubscribe_after sid nc1 _ Hwf1 Hst1 Hw1 Hl1) as (nc4 & H4 & Hs4 & Ho4 & Hinv).
      assert (Hstore : store sid (request_sub sid inbox) nc1 = nc1).
      { unfold store. rewrite insert_id by exact Hp. destruct nc1; reflexivity. }
      exists nc4. split.
      * unfold Request_end, Conn_NextMsg. rewrite Hp, request_sub_eq. simpl.
        rewrite <- (request_sub_eq sid inbox), Hstore, H4. reflexivity.
      * split; [rewrite Hs4; exact Hset|]. split; [exact Hinv|exact Ho4].
  - intros inbox subj data nc Hcl. unfold Request_begin, subscribe. rewrite Hcl. simpl.
    eexists. split; [reflexivity|]. rewrite kickFlusher_subs, kickFlusher_objs. auto.
Qed.

Lemma Request_round_trip_witness :
  exists nc1,
    Request_begin "_INBOX.0a" "help" ["?"%byte] example_conn = Ok (nc1, inr 1) /\
    outbound nc1 = outbound example_conn
                    ++ list_byte_of_string (subProto "_INBOX.0a" _EMPTY_ 1)
                    ++ list_byte_of_string (unsubProto 1 (Itoa 1))
                    ++ pub_bytes "help" "_INBOX.0a" ["?"%byte] /\
    (forall f, exists nc2 nc3,
        processMsg (Frame (fst (fst f)) (snd (fst f)) 1 (snd f)) nc1 = Ok nc2 /\
        Request_end false 1 nc2 = Ok (nc3, inr (frame_msg 1 f)) /\
        subs nc3 = subs example_conn ∖ {[1]} /\
        (exists s', objs nc3 !! 1 = Some s' /\ Subscription.conn s' = false) /\
        outbound nc3 = outbound nc1 ++ list_byte_of_string (unsubProto 1 _EMPTY_)) /\
    (exists nc3,
        Request_end true 1 nc1 = Ok (nc3, inl ErrTimeout) /\
        subs nc3 = subs example_conn ∖ {[1]} /\
        (exists s', objs nc3 !! 1 = Some s' /\ Subscription.conn s' = false) /\
        outbound nc3 = outbound nc1 ++ list_byte_of_string (unsubProto 1 _EMPTY_)).
Proof.
  apply (proj1 Request_round_trip "_INBOX.0a"%string "help"%string ["?"%byte] example_conn 1).
  - reflexivity.
  - exact example_conn_wf.
  - reflexivity.
  - exact example_conn_writable.
Defined.

(** ** After [Close] *)

(** X18.  [Close] releases what waits and refuses what comes after.  On a
    connection that is not closed, [Close] signals every flush waiter that
    was not voided, in queue order, empties the queue and the registry, and
    calls the disconnected callback (when there is a socket) and the closed
    callback.  Afterwards [publish], [subscribe], [FlushTimeout] and
    [Unsubscribe] fail with the connection-closed error, and so does
    [NextMsg] on every subscription that was registered, whatever its mailbox
    still held. *)
Theorem Close_refuses_everything :
  forall nc,
    registry_wf nc -> isClosed nc = false -> conn nc = None \/ is_Some (bw nc) ->
    exists nc',
      Close nc = Ok nc' /\
      trace nc' = trace nc ++ signals (pongs nc) ++
        (if (if conn nc is Some _ then true else false) && Options.DisconnectedCB (Opts nc)
         then [EvDisconnectedCB] else []) ++
        (if Options.ClosedCB (Opts nc) then [EvClosedCB] else []) /\
      pongs nc' = [] /\ subs nc' = ∅ /\
      (forall subj reply data,
         exists nc2, publish subj reply data nc' = Ok (nc2, Some ErrConnectionClosed) /\
                     bw nc2 = bw nc' /\ conn nc2 = conn nc' /\ OutMsgs nc2 = OutMsgs nc') /\
      (forall subj queue cb,
         exists nc2, subscribe subj queue cb nc' = Ok (nc2, inl ErrConnectionClosed) /\
                     subs nc2 = ∅ /\ objs nc2 = objs nc') /\
      (forall t, 0 < t -> FlushTimeout_begin t nc' = Ok (nc', inl ErrConnectionClosed)) /\
      (forall p expired, p ∈ subs nc ->
         exists nc2, Conn_NextMsg expired p nc' = Ok (nc2, inl ErrConnectionClosed)) /\
      (forall p, p ∈ subs nc ->
         exists nc2, Unsubscribe p nc' = Ok (nc2, Some ErrConnectionClosed)).
Proof.
  intros nc Hwf Hcl Hbw.
  destruct (Close_spec nc Hcl Hbw) as (nc' & H & Hst & Hp & Hs & Ho & Ht).
  assert (Hcl' : isClosed nc' = true) by (unfold isClosed; rewrite Hst; reflexivity).
  assert (Hreg : forall p, p ∈ subs nc ->
            exists s, objs nc' !! p = Some s /\ Subscription.mch s = false /\
                      Subscription.conn s = true).
  { intros p Hin. destruct Hwf as [_ Hreg]. destruct (Hreg p Hin) as (s & Hps & Hc & Hm & _).
    exists (Subscription.close_mch s). rewrite Ho, close_subs_lookup.
    destruct (decide (p ∈ subs nc)); [|contradiction]. rewrite Hps. simpl.
    unfold Subscription.close_mch. rewrite Hm. simpl. auto. }
  exists nc'. split; [exact H|]. split; [exact Ht|]. split; [exact Hp|]. split; [exact Hs|].
  split; [|split; [|split; [|split]]].
  - intros subj reply data. rewrite (publish_closed subj reply data nc' Hcl').
    eexists. split; [reflexivity|]. repeat split.
  - intros subj queue cb. unfold subscribe. rewrite Hcl'.
    eexists. split; [reflexivity|]. rewrite kickFlusher_subs, kickFlusher_objs. auto.
  - intros t Ht0. unfold FlushTimeout_begin.
    replace (t <=? 0) with false by (symmetry; apply Z.leb_gt; exact Ht0).
    rewrite Hcl'. reflexivity.
  - intros p expired Hin. destruct (Hreg p Hin) as (s & Hps & Hm & _).
    unfold Conn_NextMsg. rewrite Hps. unfold NextMsg. rewrite Hm. simpl.
    eexists. reflexivity.
  - intros p Hin. destruct (Hreg p Hin) as (s & Hps & _ & Hc).
    unfold Unsubscribe. rewrite Hps, Hc. unfold unsubscribe. rewrite Hcl'.
    eexists. reflexivity.
Qed.

Lemma Close_refuses_everything_witness :
  exists nc',
    Close subscribed_conn = Ok nc' /\
    trace nc' = trace subscribed_conn ++ signals (pongs subscribed_conn) ++
      (if (if conn subscribed_conn is Some _ then true else false)
          && Options.DisconnectedCB (Opts subscribed_conn)
       then [EvDisconnectedCB] else []) ++
      (if Options.ClosedCB (Opts subscribed_conn) then [EvClosedCB] else []) /\
    pongs nc' = [] /\ subs nc' = ∅ /\
    (forall subj reply data,
       exists nc2, publish subj reply data nc' = Ok (nc2, Some ErrConnectionClosed) /\
                   bw nc2 = bw nc' /\ conn nc2 = conn nc' /\ OutMsgs nc2 = OutMsgs nc') /\
    (forall subj queue cb,
       exists nc2, subscribe subj queue cb nc' = Ok (nc2, inl ErrConnectionClosed) /\
                   subs nc2 = ∅ /\ objs nc2 = objs nc') /\
    (forall t, 0 < t -> FlushTimeout_begin t nc' = Ok (nc', inl ErrConnectionClosed)) /\
    (forall p expired, p ∈ subs subscribed_conn ->
       exists nc2, Conn_NextMsg expired p nc' = Ok (nc2, inl ErrConnectionClosed)) /\
    (forall p, p ∈ subs subscribed_conn ->
       exists nc2, Unsubscribe p nc' = Ok (nc2, Some ErrConnectionClosed)).
Proof.
  apply (Close_refuses_everything subscribed_conn).
  - split.
    + intros p s. simpl. intros Hps. apply lookup_singleton_Some in Hps as [<- <-]. reflexivity.
    + intros k Hk. simpl in Hk. apply elem_of_singleton in Hk as ->.
      eexists. split; [apply lookup_singleton_eq|]. repeat split.
  - reflexivity.
  - right. simpl. eauto.
Defined.

(** ** A reconnect whose greeting is refused *)

Lemma checkForSecure_disagree nc :
  Options.Secure (Opts nc) <> serverInfo.SslRequired (info nc) ->
  exists e, checkForSecure nc = (nc, Some e).
Proof.
  intros H. unfold checkForSecure.
  destruct (Options.Secure (Opts nc)), (serverInfo.SslRequired (info nc)); simpl;
    try (exfalso; apply H; reflexivity); eauto.
Qed.

(** One attempt of the loop whose dial succeeds and whose greeting is
    refused. *)
Lemma doReconnect_attempt_refused cProto env i n nc w b c :
  status nc = RECONNECTING -> writer_at nc w b -> Writer.wr w = ToPending ->
  dial (env i) = DialOk c -> greeting_refused (line (env i)) nc ->
  exists nc',
    doReconnect_loop cProto env i (S n) nc = Ok (nc', true) /\
    status nc' = RECONNECTING /\ Reconnects nc' = U64.add (Reconnects nc) 1 /\
    pending nc' = Some (b ++ Writer.buf w) /\ is_Some (err nc') /\
    conn nc' = Some c /\ subs nc' = subs nc /\ objs nc' = objs nc.
Proof.
  intros Hst Hat Hwr Hd Href.
  assert (Hcl : isClosed nc = false) by (unfold isClosed; rewrite Hst; reflexivity).
  simpl doReconnect_loop. rewrite Hcl, Hd.
  destruct (createConn_pending c nc w b Hat Hwr) as (nc1 & -> & Hc1 & Hp1 & Hb1 & Hco1).
  simpl rbind.
  set (nc3 := set_Reconnects _ (set_err None nc1)).
  assert (H3 : conn nc3 = Some c /\ pending nc3 = Some (b ++ Writer.buf w) /\
               status nc3 = RECONNECTING /\
               Reconnects nc3 = U64.add (Reconnects nc) 1 /\
               subs nc3 = subs nc /\ objs nc3 = objs nc /\ Opts nc3 = Opts nc /\
               info nc3 = info nc).
  { destruct (core_fields _ _ Hco1) as (_&_&_&_&Hr&Ho&_&Hi&_&Hsu&Hob&_&Hs&_).
    subst nc3. simpl in *. rewrite Hr. repeat split; try assumption. congruence. }
  destruct H3 as (Hc3 & Hp3 & Hs3 & Hr3 & Hsu3 & Hob3 & Ho3 & Hi3).
  assert (Hre3 : isReconnecting nc3 = true)
    by (unfold isReconnecting; rewrite Hs3; reflexivity).
  assert (Hpe : exists e,
             processExpectedInfo (line (env i)) nc3 = Ok (nc3, Some e) \/
             exists inf e0, line (env i) = InfoArgs inf e0 /\
               processExpectedInfo (line (env i)) nc3
               = Ok (set_err e0 (set_info inf nc3), Some e)).
  { unfold greeting_refused, info_after in Href. unfold processExpectedInfo, processReadOpErr.
    destruct (line (env i)) as [e | | | inf e0].
    - rewrite Hre3, orb_true_r. simpl. eauto.
    - rewrite Hre3, orb_true_r. simpl. eauto.
    - destruct Href as [Href|Href]; [discriminate|].
      destruct (checkForSecure_disagree nc3) as [e He]; [rewrite Ho3, Hi3; exact Href|].
      rewrite He. eauto.
    - destruct Href as [Href|Href]; [discriminate|].
      destruct (checkForSecure_disagree (set_err e0 (set_info inf nc3))) as [e He].
      { change (Options.Secure (Opts nc3) <> serverInfo.SslRequired inf).
        rewrite Ho3. exact Href. }
      rewrite He. exists e. right. eauto. }
  destruct Hpe as [e [-> | (inf & e0 & _ & ->)]]; simpl rbind;
    (eexists; split; [reflexivity|]); simpl;
    repeat split; try assumption; eauto.
Qed.

(** X19.  A dial that succeeds ends the reconnect loop, whatever the
    greeting.  From the RECONNECTING state with the writer bound to the
    pending buffer, if the dials fail [k] times, with [k] less than
    [MaxReconnect], and the next one succeeds but the greeting is refused
    (the first line cannot be read or is not INFO, or client and server
    disagree on TLS), then [doReconnect] counts one reconnect and goes on to
    its final flush and reconnected callback without a further attempt: the
    connection is still RECONNECTING, the last error is set, and what was
    written while the connection was down is still in the pending buffer,
    none of it on the new socket. *)
Theorem refused_greeting_ends_reconnect :
  forall cProto env nc k c sz,
    status nc = RECONNECTING -> writable nc -> writer_kind nc = Some (ToPending, sz) ->
    Z.of_nat k < U64.to_int (Options.MaxReconnect (Opts nc)) ->
    (forall j, (j < k)%nat -> exists e, dial (env j) = DialErr e) ->
    dial (env k) = DialOk c -> greeting_refused (line (env k)) nc ->
    exists nc',
      doReconnect cProto env nc = Ok (nc', true) /\
      status nc' = RECONNECTING /\ is_Some (err nc') /\
      Reconnects nc' = U64.add (Reconnects nc) 1 /\
      pending nc' = Some (outbound nc) /\ conn nc' = Some c /\
      subs nc' = subs nc /\ objs nc' = objs nc.
Proof.
  intros cProto env nc k c sz Hst Hw Hk Hmax Hfail Hd Href.
  assert (Hcl : isClosed nc = false) by (unfold isClosed; rewrite Hst; reflexivity).
  apply writable_at in Hw as (w & b & Hat).
  pose proof (outbound_at _ _ _ Hat) as Hout.
  destruct Hat as (Hbw & He & Hsz & Hl & Hs).
  assert (Hwr : Writer.wr w = ToPending).
  { unfold writer_kind in Hk. rewrite Hbw in Hk. simpl in Hk. congruence. }
  unfold doReconnect.
  set (N := Z.to_nat (U64.to_int (Options.MaxReconnect (Opts nc)))).
  assert (HN : N = (k + S (N - k - 1))%nat) by lia.
  rewrite HN.
  destruct (doReconnect_loop_failures cProto env k 0%nat (S (N - k - 1)) nc Hcl)
    as (nc0 & H & H1 & H2 & H3 & H4 & H5 & H6 & H7 & H8).
  { intros j Hj. simpl. apply Hfail. exact Hj. }
  rewrite H. simpl Nat.add.
  destruct (doReconnect_attempt_refused cProto env k (N - k - 1) nc0 w b c)
    as (nc' & Hr & R1 & R2 & R3 & R4 & R5 & R6 & R7); try assumption.
  - congruence.
  - unfold writer_at. rewrite H2. repeat split; try assumption.
    rewrite Hwr in *. simpl in *. congruence.
  - unfold greeting_refused, info_after in *. rewrite H7.
    destruct (line (env k)); try rewrite H8; exact Href.
  - exists nc'. split; [exact Hr|]. split; [exact R1|]. split; [exact R4|].
    split; [congruence|]. split; [rewrite Hout; exact R3|]. split; [exact R5|].
    split; congruence.
Qed.

Lemma refused_greeting_ends_reconnect_witness :
  exists nc',
    doReconnect example_cProto network_garbled reconnecting_conn = Ok (nc', true) /\
    status nc' = RECONNECTING /\ is_Some (err nc') /\
    Reconnects nc' = U64.add (Reconnects reconnecting_conn) 1 /\
    pending nc' = Some (outbound reconnecting_conn) /\
    conn nc' = Some (NetConn.mk [] true) /\
    subs nc' = subs reconnecting_conn /\ objs nc' = objs reconnecting_conn.
Proof.
  apply (refused_greeting_ends_reconnect example_cProto network_garbled reconnecting_conn
           0%nat (NetConn.mk [] true) defaultPendingSize).
  - reflexivity.
  - unfold writable; simpl. repeat split; try reflexivity; try (vm_compute; congruence). eauto.
  - reflexivity.
  - vm_compute. reflexivity.
  - intros j Hj. lia.
  - reflexivity.
  - left. reflexivity.
Defined.

(** ** Flush waiters across a reconnect *)

Lemma doReconnect_loop_failures_queue cProto env k :
  forall i n nc,
    isClosed nc = false ->
    (forall j, (j < k)%nat -> exists e, dial (env (i + j)%nat) = DialErr e) ->
    exists nc0,
      doReconnect_loop cProto env i (k + n) nc = doReconnect_loop cProto env (i + k) n nc0 /\
      status nc0 = status nc /\ bw nc0 = bw nc /\ pending nc0 = pending nc /\
      Opts nc0 = Opts nc /\ info nc0 = info nc /\
      pongs nc0 = pongs nc /\ chseq nc0 = chseq nc /\ trace nc0 = trace nc.
Proof.
  induction k as [|k IH]; intros i n nc Hcl Hfail.
  - exists nc. rewrite Nat.add_0_r. repeat split.
  - destruct (Hfail 0%nat) as [e He]; [lia|]. rewrite Nat.add_0_r in He.
    simpl doReconnect_loop. rewrite Hcl. unfold createConn. rewrite He. simpl rbind.
    destruct (IH (S i) n (set_err None (set_err (Some e) (set_conn None nc))) Hcl)
      as (nc0 & H & H1 & H2 & H3 & H4 & H5 & H6 & H7 & H8).
    { intros j Hj. destruct (Hfail (S j)) as [e' He']; [lia|].
      exists e'. replace (S i + j)%nat with (i + S j)%nat by lia. exact He'. }
    exists nc0. split; [|repeat split; assumption].
    rewrite H. replace (S i + k)%nat with (i + S k)%nat by lia. reflexivity.
Qed.

(** One attempt of the loop whose dial and greeting succeed: the writer and
    the queue of flush waiters afterwards. *)
Lemma doReconnect_attempt_queue cProto env i n nc w b c :
  status nc = RECONNECTING -> writer_at nc w b -> Writer.wr w = ToPending ->
  dial (env i) = DialOk c -> NetConn.up c = true ->
  is_info (line (env i)) = true ->
  Options.Secure (Opts nc) = serverInfo.SslRequired (info_after (line (env i)) nc) ->
  exists nc',
    doReconnect_loop cProto env i (S n) nc = Ok (nc', true) /\
    status nc' = CONNECTED /\ writable nc' /\
    pongs nc' = pongs nc /\ chseq nc' = chseq nc /\ trace nc' = trace nc.
Proof.
  intros Hst Hat Hwr Hd Hup Hinfo Hag.
  assert (Hcl : isClosed nc = false) by (unfold isClosed; rewrite Hst; reflexivity).
  simpl doReconnect_loop. rewrite Hcl, Hd.
  destruct (createConn_pending c nc w b Hat Hwr) as (nc1 & -> & Hc1 & Hp1 & Hb1 & Hco1).
  simpl rbind.
  set (nc3 := set_Reconnects _ (set_err None nc1)).
  assert (H3 : conn nc3 = Some c /\ pending nc3 = Some (b ++ Writer.buf w) /\
               bw nc3 = Some (Writer.NewWriterSize ToConn defaultBufSize) /\
               Opts nc3 = Opts nc /\ info nc3 = info nc /\
               pongs nc3 = pongs nc /\ chseq nc3 = chseq nc /\ trace nc3 = trace nc).
  { destruct (core_fields _ _ Hco1) as (_&_&_&_&_&Ho&_&Hi&_&_&_&Hpo&_&_&Ht&Hch).
    subst nc3. simpl in *. repeat split; assumption. }
  destruct H3 as (Hc3 & Hp3 & Hb3 & Ho3 & Hi3 & Hpo3 & Hch3 & Ht3).
  assert (Hpe : exists nc4,
             processExpectedInfo (line (env i)) nc3 = Ok (nc4, None) /\
             conn nc4 = Some c /\ pending nc4 = Some (b ++ Writer.buf w) /\
             bw nc4 = Some (Writer.NewWriterSize ToConn defaultBufSize) /\
             pongs nc4 = pongs nc /\ chseq nc4 = chseq nc /\ trace nc4 = trace nc).
  { unfold info_after in Hag. unfold processExpectedInfo.
    destruct (line (env i)) as [e | | | inf e]; try discriminate.
    - rewrite checkForSecure_agree; [|rewrite Ho3, Hi3; exact Hag|exact Hb3].
      eexists. split; [reflexivity|]. repeat split; assumption.
    - rewrite checkForSecure_agree;
        [|change (Options.Secure (Opts nc3) = serverInfo.SslRequired inf);
          rewrite Ho3; exact Hag|exact Hb3].
      eexists. split; [reflexivity|]. simpl. repeat split; assumption. }
  destruct Hpe as (nc4 & -> & Hc4 & Hp4 & Hb4 & Hpo4 & Hch4 & Ht4).
  simpl rbind.
  set (nc5 := set_status CONNECTED (set_err None nc4)).
  assert (Hw5 : writable nc5).
  { unfold writable. subst nc5; simpl. rewrite Hb4. simpl. rewrite Hc4, Hup.
    split; [reflexivity|]. split; [reflexivity|]. split; [discriminate|]. eauto. }
  assert (Hk5 : writer_kind nc5 = Some (ToConn, defaultBufSize)).
  { unfold writer_kind. subst nc5; simpl. rewrite Hb4. reflexivity. }
  destruct (WriteString_ok cProto nc5 Hw5) as (n1 & HW1 & Hw6 & Ho6 & Hc6 & Hk6).
  rewrite HW1. simpl rbind.
  destruct (core_fields _ _ Hc6) as (_&_&_&_&_&_&_&_&_&_&_&Hpo6&Hs6&_&Ht6&Hch6).
  unfold resendSubscriptions.
  destruct (WriteStrings_ok (resendSubscriptions_writes n1) n1 Hw6)
    as (n2 & HW2 & Hw7 & Ho7 & Hc7 & Hk7).
  rewrite HW2. simpl rbind.
  destruct (core_fields _ _ Hc7) as (_&_&_&_&_&_&_&_&_&_&_&Hpo7&Hs7&_&Ht7&Hch7).
  assert (Hp7 : pending n2 = Some (b ++ Writer.buf w)).
  { rewrite (WriteStrings_conn_pending (resendSubscriptions_writes n1) defaultBufSize
               n1 n2 Hw6 (eq_trans Hk6 Hk5) HW2).
    rewrite (WriteString_conn_pending cProto nc5 n1 None defaultBufSize Hk5 HW1).
    exact Hp4. }
  assert (Hk7' : writer_kind n2 = Some (ToConn, defaultBufSize)) by congruence.
  destruct (flushReconnectPendingItems_ok n2 _ Hw7 Hp7 Hk7') as (n3 & HF & Hp8 & Ho8 & Hc8).
  destruct (core_fields _ _ Hc8) as (_&_&_&_&_&_&_&_&_&_&_&Hpo8&Hs8&_&Ht8&Hch8).
  assert (Hw8 : writable n3).
  { unfold flushReconnectPendingItems in HF. rewrite Hp7 in HF.
    assert (Hdrop : forall x, writable x -> writer_kind x = Some (ToConn, defaultBufSize) ->
                      writable (set_pending None x)).
    { intros x Hx Hkx. unfold writable, writer_kind in *. simpl.
      destruct (bw x) as [wx|]; [|exact Hx]. simpl in Hkx. injection Hkx as Hwx _.
      rewrite Hwx in *. exact Hx. }
    destruct (0 <? len (b ++ Writer.buf w)).
    - destruct (Write_ok (b ++ Writer.buf w) n2 Hw7) as (x & Hx & Hwx & _ & _ & Hkx).
      rewrite Hx in HF. simpl in HF. injection HF as <-.
      apply Hdrop; [exact Hwx | congruence].
    - injection HF as <-. apply Hdrop; assumption. }
  rewrite HF. simpl rbind.
  exists n3. split; [reflexivity|].
  subst nc5; simpl in *.
  split; [congruence|]. split; [exact Hw8|].
  split; [congruence|]. split; congruence.
Qed.

(** X20.  Flush waiters outlive the connection they were queued on.  A
    waiter that is queued when [doReconnect] starts is still at the head of
    the queue after a reconnect that succeeds.  The flush that [doReconnect]
    itself issues on the new socket queues its own waiter behind it, so the
    PONG the reader processes next signals the old waiter and leaves the new
    one queued. *)
Theorem stale_waiter_gets_first_pong :
  forall cProto env nc k c sz ch rest,
    status nc = RECONNECTING -> writable nc -> writer_kind nc = Some (ToPending, sz) ->
    Z.of_nat k < U64.to_int (Options.MaxReconnect (Opts nc)) ->
    (forall j, (j < k)%nat -> exists e, dial (env j) = DialErr e) ->
    dial (env k) = DialOk c -> NetConn.up c = true ->
    is_info (line (env k)) = true ->
    Options.Secure (Opts nc) = serverInfo.SslRequired (info_after (line (env k)) nc) ->
    pongs nc = Some ch :: rest -> pongs_fresh nc ->
    exists nc1 nc2 nc3,
      doReconnect cProto env nc = Ok (nc1, true) /\
      pongs nc1 = Some ch :: rest /\
      Flush_begin nc1 = Ok (nc2, inr (chseq nc)) /\
      processPong nc2 = Ok nc3 /\
      trace nc3 = trace nc ++ [EvPongSignal ch] /\
      pongs nc3 = rest ++ [Some (chseq nc)] /\
      ch <> chseq nc.
Proof.
  intros cProto env nc k c sz ch rest Hst Hw Hk Hmax Hfail Hd Hup Hinfo Hag Hq Hfresh.
  assert (Hcl : isClosed nc = false) by (unfold isClosed; rewrite Hst; reflexivity).
  apply writable_at in Hw as (w & b & Hat).
  destruct Hat as (Hbw & He & Hsz & Hl & Hs).
  assert (Hwr : Writer.wr w = ToPending).
  { unfold writer_kind in Hk. rewrite Hbw in Hk. simpl in Hk. congruence. }
  unfold doReconnect.
  set (N := Z.to_nat (U64.to_int (Options.MaxReconnect (Opts nc)))).
  assert (HN : N = (k + S (N - k - 1))%nat) by lia.
  rewrite HN.
  destruct (doReconnect_loop_failures_queue cProto env k 0%nat (S (N - k - 1)) nc Hcl)
    as (nc0 & H & H1 & H2 & H3 & H4 & H5 & H6 & H7 & H8).
  { intros j Hj. simpl. apply Hfail. exact Hj. }
  rewrite H. simpl Nat.add.
  destruct (doReconnect_attempt_queue cProto env k (N - k - 1) nc0 w b c)
    as (nc1 & Hr & R1 & R2 & R3 & R4 & R5); try assumption.
  - congruence.
  - unfold writer_at. rewrite H2. repeat split; try assumption.
    rewrite Hwr in *. simpl in *. congruence.
  - unfold info_after in *. rewrite H4. destruct (line (env k)); congruence.
  - assert (Hcl1 : isClosed nc1 = false) by (unfold isClosed; rewrite R1; reflexivity).
    destruct (FlushTimeout_begin_ok (60 * 1000000000) nc1) as (nc2 & HF & Hq2 & _ & _);
      [lia | exact Hcl1 | exact R2 |].
    destruct (FlushTimeout_begin_frame _ _ _ _ HF) as (_ & _ & _ & Ht2).
    assert (Hq2' : pongs nc2 = Some ch :: (rest ++ [Some (chseq nc)])).
    { rewrite Hq2, R3, H6, Hq, R4, H7. reflexivity. }
    destruct (processPong_cons nc2 _ _ Hq2') as (nc3 & HP & Hq3 & Ht3 & _).
    exists nc1, nc2, nc3. split; [exact Hr|].
    split; [congruence|].
    split; [unfold Flush_begin; rewrite HF, R4, H7; reflexivity|].
    split; [exact HP|]. split; [rewrite Ht3, Ht2, R5, H8; reflexivity|].
    split; [exact Hq3|].
    assert (Hlt : (ch < chseq nc)%nat).
    { apply Hfresh. rewrite Hq. apply elem_of_cons. left. reflexivity. }
    lia.
Qed.

Lemma stale_waiter_gets_first_pong_witness :
  exists nc1 nc2 nc3,
    doReconnect example_cProto network_back stuck_conn = Ok (nc1, true) /\
    pongs nc1 = Some 0%nat :: [] /\
    Flush_begin nc1 = Ok (nc2, inr (chseq stuck_conn)) /\
    processPong nc2 = Ok nc3 /\
    trace nc3 = trace stuck_conn ++ [EvPongSignal 0%nat] /\
    pongs nc3 = [] ++ [Some (chseq stuck_conn)] /\
    0%nat <> chseq stuck_conn.
Proof.
  apply (stale_waiter_gets_first_pong example_cProto network_back stuck_conn 2%nat
           (NetConn.mk [] true) defaultPendingSize 0%nat []).
  - reflexivity.
  - unfold writable; simpl. repeat split; try reflexivity; try (vm_compute; congruence). eauto.
  - reflexivity.
  - vm_compute. reflexivity.
  - intros j Hj. destruct j as [|[|j]]; [exists ErrIO; reflexivity..|lia].
  - reflexivity.
  - reflexivity.
  - reflexivity.
  - reflexivity.
  - reflexivity.
  - intros x Hx. simpl in Hx. apply elem_of_cons in Hx as [Hx|Hx].
    + injection Hx as ->. simpl. lia.
    + apply elem_of_nil in Hx. contradiction.
Defined.

(** ** Connecting *)

Lemma FlushTimeout_begin_rest t nc nc' r :
  FlushTimeout_begin t nc = Ok (nc', r) -> err nc' = err nc /\ Opts nc' = Opts nc.
Proof.
  unfold FlushTimeout_begin.
  destruct (t <=? 0); [intros [= <- _]; repeat split|].
  destruct (isClosed nc); [intros [= <- _]; repeat split|].
  destruct (WriteString pingProto _) as [[n2 e2]|] eqn:HW; [|discriminate]. simpl.
  destruct (Flush n2) as [[n3 e3]|] eqn:HF; [|discriminate]. simpl.
  intros [= <- _].
  destruct (WriteString_core _ _ _ _ HW) as [Hc2 _].
  destruct (Flush_core _ _ _ HF) as [Hc3 _].
  destruct (core_fields _ _ Hc2) as (_&_&_&_&_&Ho2&_&_&_&_&_&_&_&He2&_).
  destruct (core_fields _ _ Hc3) as (_&_&_&_&_&Ho3&_&_&_&_&_&_&_&He3&_).
  simpl in *. split; congruence.
Qed.

Lemma connect_begin_ok o c l cProto :
  NetConn.up c = true -> is_info l = true ->
  Options.Secure o = serverInfo.SslRequired (info_after l (new_conn o)) ->
  exists nc1,
    connect_begin (DialOk c) l (Some cProto) (new_conn o) = Ok (nc1, inr 0%nat) /\
    outbound nc1 = NetConn.wire c ++ list_byte_of_string cProto
                     ++ list_byte_of_string pingProto /\
    pongs nc1 = [Some 0%nat] /\ status nc1 = DISCONNECTED /\ err nc1 = None /\
    subs nc1 = ∅ /\ Opts nc1 = o /\ writable nc1.
Proof.
  intros Hup Hinfo Hag. unfold connect_begin, createConn. simpl.
  set (nc2 := set_fch 0 _).
  assert (Hpe : exists nc3,
            processExpectedInfo l nc2 = Ok (nc3, None) /\
            conn nc3 = Some c /\ bw nc3 = Some (Writer.NewWriterSize ToConn defaultBufSize) /\
            pongs nc3 = [] /\ status nc3 = DISCONNECTED /\ subs nc3 = ∅ /\ Opts nc3 = o /\
            chseq nc3 = 0%nat /\ fch nc3 = 0).
  { unfold info_after in Hag. unfold processExpectedInfo.
    destruct l as [e | | | inf e]; try discriminate.
    - rewrite checkForSecure_agree; [|exact Hag|reflexivity].
      eexists. split; [reflexivity|]. repeat split.
    - rewrite checkForSecure_agree; [|exact Hag|reflexivity].
      eexists. split; [reflexivity|]. repeat split. }
  destruct Hpe as (nc3 & -> & Hc3 & Hb3 & Hq3 & Hs3 & Hsu3 & Ho3 & Hch3 & Hf3).
  simpl rbind. unfold sendConnect_begin.
  set (nc4 := set_err None nc3).
  assert (Hw4 : writable nc4).
  { unfold writable. subst nc4; simpl. rewrite Hb3. simpl. rewrite Hc3, Hup.
    split; [reflexivity|]. split; [reflexivity|]. split; [discriminate|]. eauto. }
  assert (Ho4 : outbound nc4 = NetConn.wire c).
  { unfold outbound. subst nc4; simpl. rewrite Hb3. simpl. rewrite Hc3, Hup.
    simpl. apply app_nil_r. }
  destruct (sendProto_ok cProto nc4 Hw4) as (nc5 & -> & Ho5 & Hw5 & _ & _ & Hc5).
  { change (0 <= fch nc3). lia. }
  simpl rbind.
  destruct (core_fields (set_fch (fch nc5) nc4) nc5 Hc5)
    as (_&_&_&_&_&Hop5&_&_&_&Hsu5&_&Hq5&Hs5&He5&_&Hch5).
  simpl in Hop5, Hsu5, Hq5, Hs5, He5, Hch5.
  assert (Hcl5 : isClosed nc5 = false) by (unfold isClosed; rewrite Hs5, Hs3; reflexivity).
  destruct (FlushTimeout_begin_ok DefaultTimeout nc5) as (nc6 & HF & Hq6 & Ho6 & Hw6);
    [reflexivity | exact Hcl5 | exact Hw5 |].
  destruct (FlushTimeout_begin_frame _ _ _ _ HF) as (Hs6 & _ & Hsu6 & _).
  destruct (FlushTimeout_begin_rest _ _ _ _ HF) as (He6 & Hop6).
  rewrite Hch5, Hch3 in HF, Hq6.
  exists nc6. split; [exact HF|].
  split; [rewrite Ho6, Ho5, Ho4, <- app_assoc; reflexivity|].
  split; [rewrite Hq6, Hq5, Hq3; reflexivity|].
  split; [congruence|]. split; [congruence|]. split; [congruence|].
  split; [congruence|exact Hw6].
Qed.

(** X21.  The handshake of [Connect].  When the dial succeeds and the server
    greets with INFO and agrees on TLS, [connect] writes the CONNECT line and
    a PING, both flushed, and waits with one flush waiter queued.  When the
    PONG comes the connection becomes CONNECTED and [connect] returns nil.
    When the server answers with -ERR instead, the reader closes the
    connection and [connect] returns the text of the server as error.  When
    neither comes in time, [connect] returns the timeout error and the
    connection stays DISCONNECTED with its socket.  A dial that fails is
    returned as the error of [connect] before anything is written. *)
Theorem Connect_handshake :
  (forall o c l cProto,
     NetConn.up c = true -> is_info l = true ->
     Options.Secure o = serverInfo.SslRequired (info_after l (new_conn o)) ->
     exists nc1,
       connect_begin (DialOk c) l (Some cProto) (new_conn o) = Ok (nc1, inr 0%nat) /\
       outbound nc1 = NetConn.wire c ++ list_byte_of_string cProto
                        ++ list_byte_of_string pingProto /\
       pongs nc1 = [Some 0%nat] /\
       (exists nc2 nc3,
           processPong nc1 = Ok nc2 /\ connect_end 0 FlushSignalled nc2 = (nc3, None) /\
           status nc3 = CONNECTED /\ pongs nc3 = [] /\ err nc3 = None) /\
       (forall e, exists nc2 nc3,
           processErr e nc1 = Ok nc2 /\
           connect_end 0 FlushSignalled nc2 = (nc3, Some (ErrNew ("nats: " +:+ e))) /\
           status nc3 = CLOSED) /\
       (exists nc3,
           connect_end 0 FlushTimerFired nc1 = (nc3, Some ErrTimeout) /\
           status nc3 = DISCONNECTED /\ pongs nc3 = [None] /\ conn nc3 = conn nc1)) /\
  (forall o e l cProto,
     exists nc1, connect_begin (DialErr e) l cProto (new_conn o) = Ok (nc1, inl e) /\
                 conn nc1 = None /\ bw nc1 = None /\ status nc1 = DISCONNECTED).
Proof.
  split.
  - intros o c l cProto Hup Hinfo Hag.
    destruct (connect_begin_ok o c l cProto Hup Hinfo Hag)
      as (nc1 & H1 & Ho1 & Hq1 & Hs1 & He1 & Hsu1 & Hop1 & Hw1).
    exists nc1. split; [exact H1|]. split; [exact Ho1|]. split; [exact Hq1|].
    split; [|split].
    + unfold processPong. rewrite Hq1. eexists. eexists. split; [reflexivity|].
      unfold connect_end, FlushTimeout_end. simpl. rewrite He1.
      unfold sendConnect_end, isClosed. simpl. rewrite Hs1. simpl.
      split; [reflexivity|]. repeat split. exact He1.
    + intros e.
      set (n := set_err (Some (ErrNew ("nats: " +:+ e))) nc1).
      assert (Hcl : isClosed n = false) by (unfold isClosed; subst n; simpl; rewrite Hs1; reflexivity).
      assert (Hbw : conn n = None \/ is_Some (bw n)).
      { right. apply writable_bw. exact Hw1. }
      destruct (Close_spec n Hcl Hbw) as (nc2 & HC & Hst2 & Hq2 & _).
      destruct (Close_fields n Hcl Hbw) as (nc2' & HC' & _ & He2 & _).
      rewrite HC in HC'. injection HC' as <-.
      exists nc2. eexists. split; [exact HC|].
      unfold connect_end, FlushTimeout_end. rewrite He2. subst n. simpl.
      unfold removeFlushEntry. rewrite Hq2. simpl.
      split; [reflexivity|exact Hst2].
    + unfold connect_end, FlushTimeout_end, removeFlushEntry. rewrite Hq1. simpl.
      eexists. split; [reflexivity|]. simpl. repeat split. exact Hs1.
  - intros o e l cProto. unfold connect_begin, createConn. simpl.
    eexists. split; [reflexivity|]. repeat split.
Qed.

Lemma Connect_handshake_witness :
  exists nc1,
    connect_begin (DialOk (NetConn.mk [] true)) (InfoArgs example_info None)
      (Some example_cProto) (new_conn Options.Default) = Ok (nc1, inr 0%nat) /\
    outbound nc1 = NetConn.wire (NetConn.mk [] true) ++ list_byte_of_string example_cProto
                     ++ list_byte_of_string pingProto /\
    pongs nc1 = [Some 0%nat] /\
    (exists nc2 nc3,
        processPong nc1 = Ok nc2 /\ connect_end 0 FlushSignalled nc2 = (nc3, None) /\
        status nc3 = CONNECTED /\ pongs nc3 = [] /\ err nc3 = None) /\
    (forall e, exists nc2 nc3,
        processErr e nc1 = Ok nc2 /\
        connect_end 0 FlushSignalled nc2 = (nc3, Some (ErrNew ("nats: " +:+ e))) /\
        status nc3 = CLOSED) /\
    (exists nc3,
        connect_end 0 FlushTimerFired nc1 = (nc3, Some ErrTimeout) /\
        status nc3 = DISCONNECTED /\ pongs nc3 = [None] /\ conn nc3 = conn nc1).
Proof.
  apply (proj1 Connect_handshake Options.Default (NetConn.mk [] true)
           (InfoArgs example_info None) example_cProto).
  - reflexivity.
  - reflexivity.
  - reflexivity.
Defined.

(** ** Coalescing of flushes *)

Lemma kickFlusher_one nc :
  0 <= fch nc <= 1 -> is_Some (bw nc) -> fch (kickFlusher nc) = 1.
Proof.
  intros Hf [w Hw]. unfold kickFlusher. rewrite Hw.
  destruct (fch nc =? 0) eqn:E; simpl.
  - apply Z.eqb_eq in E. lia.
  - apply Z.eqb_neq in E. lia.
Qed.

Lemma publish_kicked subj reply data nc :
  isClosed nc = false -> writable nc -> 0 <= fch nc <= 1 ->
  exists nc',
    publish subj reply data nc = Ok (nc', None) /\
    outbound nc' = outbound nc ++ pub_bytes subj reply data /\
    writable nc' /\ writer_kind nc' = writer_kind nc /\ status nc' = status nc /\
    fch nc' = 1.
Proof.
  intros Hcl Hw Hf. unfold publish. rewrite Hcl.
  destruct (Write_ok (list_byte_of_string (pubProto subj reply (len data))) nc Hw)
    as (nc1 & -> & Hw1 & Ho1 & Hc1 & Hk1). simpl.
  destruct (Write_ok data nc1 Hw1) as (nc2 & -> & Hw2 & Ho2 & Hc2 & Hk2). simpl.
  destruct (WriteString_ok _CRLF_ nc2 Hw2) as (nc3 & -> & Hw3 & Ho3 & Hc3 & Hk3). simpl.
  destruct (core_fields _ _ Hc1) as (_&_&_&_&_&_&Hf1&_&_&_&_&_&Hs1&_).
  destruct (core_fields _ _ Hc2) as (_&_&_&_&_&_&Hf2&_&_&_&_&_&Hs2&_).
  destruct (core_fields _ _ Hc3) as (_&_&_&_&_&_&Hf3&_&_&_&_&_&Hs3&_).
  match goal with |- context [kickFlusher ?x] => set (nc5 := x) end.
  assert (Hfr : (writable nc5 <-> writable nc3) /\ outbound nc5 = outbound nc3)
    by (apply writable_frame; reflexivity).
  destruct Hfr as [Hwr Hor].
  destruct (kickFlusher_frame nc5) as [Hwk Hok].
  exists (kickFlusher nc5). split; [reflexivity|].
  split; [rewrite Hok, Hor, Ho3, Ho2, Ho1; unfold pub_bytes; rewrite <- !app_assoc; reflexivity|].
  split; [apply Hwk, Hwr, Hw3|].
  split; [rewrite kickFlusher_fch; change (writer_kind nc3 = writer_kind nc); congruence|].
  split; [rewrite kickFlusher_fch; change (status nc3 = status nc); congruence|].
  apply kickFlusher_one.
  - change (0 <= fch nc3 <= 1). lia.
  - apply writable_bw, Hwr, Hw3.
Qed.

Lemma publish_all_kicked l :
  forall nc, isClosed nc = false -> writable nc -> 0 <= fch nc <= 1 ->
    exists nc',
      publish_all l nc = Ok nc' /\
      outbound nc' = outbound nc ++ pub_all_bytes l /\
      writable nc' /\ writer_kind nc' = writer_kind nc /\ status nc' = status nc /\
      fch nc' = (if l is [] then fch nc else 1).
Proof.
  induction l as [|[[subj reply] data] l IH]; intros nc Hcl Hw Hf.
  - exists nc. simpl. rewrite app_nil_r. repeat split; assumption.
  - simpl publish_all.
    destruct (publish_kicked subj reply data nc Hcl Hw Hf)
      as (nc1 & H1 & Ho1 & Hw1 & Hk1 & Hs1 & Hf1).
    rewrite H1. simpl rbind.
    assert (Hcl1 : isClosed nc1 = false) by (unfold isClosed in *; rewrite Hs1; exact Hcl).
    destruct (IH nc1 Hcl1 Hw1) as (nc' & H & Ho & Hw' & Hk' & Hs' & Hf'); [lia|].
    exists nc'. split; [exact H|].
    split; [rewrite Ho, Ho1; unfold pub_all_bytes; simpl; rewrite <- app_assoc; reflexivity|].
    split; [exact Hw'|]. split; [congruence|]. split; [congruence|].
    rewrite Hf'. destruct l; [exact Hf1|reflexivity].
Qed.

(** X22.  The flusher coalesces writes.  On a connected connection whose
    writer works and whose flusher has no signal pending, any number of
    [publish] calls in a row, one at least, leave exactly one signal for the
    flusher.  The one turn of the flusher that takes it leaves all the
    messages on the socket, in call order, after which the flusher waits
    again. *)
Theorem flusher_coalesces :
  forall l nc sz,
    l <> [] -> status nc = CONNECTED -> writable nc ->
    writer_kind nc = Some (ToConn, sz) -> fch nc = 0 ->
    exists nc1 nc2,
      publish_all l nc = Ok nc1 /\ fch nc1 = 1 /\
      flusher_iter nc1 = Ok (nc2, Continue) /\
      on_wire nc2 = outbound nc ++ pub_all_bytes l /\
      flusher_iter nc2 = Ok (nc2, Blocked).
Proof.
  intros l nc sz Hl Hst Hw Hk Hf.
  assert (Hcl : isClosed nc = false) by (unfold isClosed; rewrite Hst; reflexivity).
  destruct (publish_all_kicked l nc Hcl Hw) as (nc1 & H1 & Ho1 & Hw1 & Hk1 & Hs1 & Hf1); [lia|].
  assert (Hf1' : fch nc1 = 1) by (destruct l; [contradiction|exact Hf1]).
  destruct (flusher_iter_flushes nc1) as (nc2 & H2 & Hwire & _ & Hf2 & _ & _ & Hs2).
  - unfold isClosed. rewrite Hs1, Hst. reflexivity.
  - unfold isReconnecting. rewrite Hs1, Hst. reflexivity.
  - lia.
  - exact Hw1.
  - exists sz. congruence.
  - exists nc1, nc2. split; [exact H1|]. split; [exact Hf1'|]. split; [exact H2|].
    split; [congruence|].
    unfold flusher_iter, isClosed, isReconnecting. rewrite Hs2, Hs1, Hst. simpl.
    replace (fch nc2 <=? 0) with true by (symmetry; apply Z.leb_le; lia).
    reflexivity.
Qed.

Lemma flusher_coalesces_witness :
  exists nc1 nc2,
    publish_all [("a", "", list_byte_of_string "one"); ("b", "r", list_byte_of_string "two")]
      example_conn = Ok nc1 /\ fch nc1 = 1 /\
    flusher_iter nc1 = Ok (nc2, Continue) /\
    on_wire nc2 = outbound example_conn
      ++ pub_all_bytes [("a", "", list_byte_of_string "one");
                        ("b", "r", list_byte_of_string "two")] /\
    flusher_iter nc2 = Ok (nc2, Blocked).
Proof.
  apply (flusher_coalesces
           [("a", "", list_byte_of_string "one"); ("b", "r", list_byte_of_string "two")]%string
           example_conn defaultBufSize).
  - discriminate.
  - reflexivity.
  - exact example_conn_writable.
  - reflexivity.
  - reflexivity.
Defined.

(** ** Synchronous delivery under a budget *)

Lemma arrive_sync p nc M a d b f :
  sync_at p nc M a d b -> Z.of_nat (length b) < maxChanLen ->
  0 <= a -> a + 1 < U64.modulus ->
  exists nc',
    processMsg (Frame (fst (fst f)) (snd (fst f)) p (snd f)) nc = Ok nc' /\
    (if (0 <? M) && (M <? a) then sync_at p nc' M a d b
     else sync_at p nc' M (a + 1) d (b ++ [frame_msg p f])).
Proof.
  intros (s & Hl & Hc & Hcb & Hm & Hsc & Hmax & Ha & Hd & Hbox) Hlen Ha0 Ha1. unfold processMsg.
  change (subs_lookup p (set_InStats _ _ nc)) with (subs_lookup p nc). rewrite Hl.
  cbv beta iota. rewrite Hmax, Ha.
  destruct ((0 <? M) && (M <? a)).
  - eexists. split; [reflexivity|]. exists s. repeat split; assumption.
  - simpl. rewrite Hm, Hbox. simpl.
    replace (maxChanLen <=? Z.of_nat (length b)) with false
      by (symmetry; apply Z.leb_gt; exact Hlen).
    eexists. split; [reflexivity|].
    eexists. split.
    + unfold subs_lookup in *. simpl. destruct (decide (p ∈ subs nc)); [|discriminate].
      apply lookup_insert_eq.
    + simpl. repeat split; try assumption; try reflexivity.
      apply U64_add_small. lia.
Qed.

Lemma arrive_all_sync l :
  forall p nc M a d b,
    sync_at p nc M a d b ->
    Z.of_nat (length b) + Z.of_nat (length l) <= maxChanLen ->
    0 <= a -> a + Z.of_nat (length l) < U64.modulus -> 0 <= M ->
    exists nc',
      arrive_all p l nc = Ok nc' /\
      sync_at p nc' M (a + Z.of_nat (length (within M (M + 1 - a) l))) d
              (b ++ map (frame_msg p) (within M (M + 1 - a) l)).
Proof.
  induction l as [|f l IH]; intros p nc M a d b Hat Hlen Ha0 Ha1 HM; simpl.
  - exists nc. rewrite within_nil. simpl. rewrite app_nil_r, Z.add_0_r. auto.
  - simpl length in Hlen, Ha1.
    destruct (arrive_sync p nc M a d b f Hat) as (nc1 & -> & Hat1); [lia..|].
    simpl. destruct ((0 <? M) && (M <? a)) eqn:G.
    + apply andb_true_iff in G as [G1 G2]. apply Z.ltb_lt in G1, G2.
      destruct (IH p nc1 M a d b Hat1) as (nc' & H & Hat'); [lia..|].
      exists nc'. split; [exact H|].
      rewrite (within_none M (M + 1 - a) (f :: l)) by lia.
      rewrite (within_none M (M + 1 - a) l) in Hat' by lia. exact Hat'.
    + assert (Hg : M <= 0 \/ 0 < M + 1 - a).
      { apply andb_false_iff in G as [G|G]; [apply Z.ltb_ge in G|apply Z.ltb_ge in G]; lia. }
      destruct (IH p nc1 M (a + 1) d (b ++ [frame_msg p f]) Hat1) as (nc' & H & Hat').
      { rewrite length_app. simpl. lia. }
      { lia. }
      { lia. }
      { exact HM. }
      exists nc'. split; [exact H|].
      rewrite (within_cons M (M + 1 - a) f l Hg). simpl map. simpl length.
      replace (M + 1 - a - 1) with (M + 1 - (a + 1)) by lia.
      rewrite <- app_assoc in Hat'. simpl in Hat'.
      replace (a + Z.of_nat (S (length (within M (M + 1 - (a + 1)) l))))
        with (a + 1 + Z.of_nat (length (within M (M + 1 - (a + 1)) l))) by lia.
      exact Hat'.
Qed.

Lemma pull_sync p nc M a d m b :
  sync_at p nc M a d (m :: b) -> 0 <= d -> d + 1 < U64.modulus ->
  exists nc',
    Conn_NextMsg false p nc
    = Ok (nc', if (0 <? M) && (M <? d + 1) then inl ErrMaxMessages else inr m) /\
    sync_at p nc' M a (d + 1) b.
Proof.
  intros (s & Hl & Hc & Hcb & Hm & Hsc & Hmax & Ha & Hd & Hbox) Hd0 Hd1.
  pose proof (subs_lookup_objs _ _ _ Hl) as Hp.
  unfold Conn_NextMsg. rewrite Hp. unfold NextMsg.
  rewrite Hm, Hcb, Hc, Hsc, Hbox. simpl. rewrite Hmax, Hd.
  rewrite (U64_add_small d 1) by lia.
  assert (Hin : p ∈ subs nc).
  { unfold subs_lookup in Hl. destruct (decide (p ∈ subs nc)); [assumption|discriminate]. }
  destruct ((0 <? M) && (M <? d + 1)); (eexists; split; [reflexivity|]);
    (eexists; split;
     [unfold subs_lookup; simpl; destruct (decide (p ∈ subs nc)); [|contradiction];
      apply lookup_insert_eq
     |simpl; repeat split; assumption]).
Qed.

Lemma within_length_le {A : Type} (M n : Z) (l : list A) :
  (length (within M n l) <= length l)%nat.
Proof. unfold within. destruct (0 <? M); [rewrite length_take|]; lia. Qed.

Lemma pull_all_sync b :
  forall p nc M a d,
    sync_at p nc M a d b -> 0 <= d -> d + Z.of_nat (length b) < U64.modulus -> 0 <= M ->
    exists nc',
      pull_all (length b) p nc
      = Ok (nc', map inr (within M (M - d) b)
                 ++ replicate (length b - length (within M (M - d) b)) (inl ErrMaxMessages)) /\
      sync_at p nc' M a (d + Z.of_nat (length b)) [].
Proof.
  induction b as [|m b IH]; intros p nc M a d Hat Hd0 Hd1 HM.
  - exists nc. rewrite within_nil, Z.add_0_r. simpl. auto.
  - simpl length in Hd1. simpl pull_all.
    destruct (pull_sync p nc M a d m b Hat) as (nc1 & -> & Hat1); [lia..|].
    simpl rbind.
    destruct (IH p nc1 M a (d + 1) Hat1) as (nc' & -> & Hat'); [lia..|].
    simpl rbind. exists nc'.
    replace (d + Z.of_nat (length (m :: b))) with (d + 1 + Z.of_nat (length b))
      by (simpl length; lia).
    split; [|exact Hat'].
    f_equal. f_equal.
    destruct ((0 <? M) && (M <? d + 1)) eqn:G.
    + apply andb_true_iff in G as [G1 G2]. apply Z.ltb_lt in G1, G2.
      rewrite (within_none M (M - d) (m :: b)) by lia.
      rewrite (within_none M (M - (d + 1)) b) by lia.
      simpl. rewrite Nat.sub_0_r. reflexivity.
    + assert (Hg : M <= 0 \/ 0 < M - d).
      { apply andb_false_iff in G as [G|G]; [apply Z.ltb_ge in G|apply Z.ltb_ge in G]; lia. }
      rewrite (within_cons M (M - d) m b Hg).
      replace (M - d - 1) with (M - (d + 1)) by lia. reflexivity.
Qed.

Lemma within_map {A B : Type} (g : A -> B) (M n : Z) (l : list A) :
  within M n (map g l) = map g (within M n l).
Proof. unfold within. destruct (0 <? M); [apply firstn_map|reflexivity]. Qed.

(** X23.  A synchronous subscription returns from [NextMsg] exactly what its
    budget allows.  The subscription is registered and valid, its mailbox is
    empty, its budget is [M] (nil when [M = 0]) and [g] messages have arrived
    and been returned so far.  When the reader then processes the frames [l]
    and the application calls [NextMsg] once for each message that reached
    the mailbox, the calls return the first [M - g] messages of [l] when there
    is a budget, all of them when there is none, in the order of arrival; the
    one message more that the mailbox received is taken out by the call that
    fails with the max-messages error, and the mailbox is empty again. *)
Theorem sync_budget_results :
  forall l p nc M g,
    sync_at p nc M g g [] ->
    0 <= g -> 0 <= M -> Z.of_nat (length l) <= maxChanLen ->
    g + Z.of_nat (length l) < U64.modulus ->
    exists nc1 nc2,
      arrive_all p l nc = Ok nc1 /\
      pull_all (length (within M (M + 1 - g) l)) p nc1
      = Ok (nc2, map (fun f => inr (frame_msg p f)) (within M (M - g) l)
                 ++ replicate (length (within M (M + 1 - g) l) - length (within M (M - g) l))
                      (inl ErrMaxMessages)) /\
      (exists a d, sync_at p nc2 M a d []).
Proof.
  intros l p nc M g Hat Hg HM Hlen Hwrap.
  destruct (arrive_all_sync l p nc M g g [] Hat) as (nc1 & H1 & Hat1);
    [simpl; lia | lia | lia | lia |].
  simpl in Hat1.
  pose proof (within_length_le M (M + 1 - g) l) as Hk.
  destruct (pull_all_sync (map (frame_msg p) (within M (M + 1 - g) l)) p nc1 M _ g Hat1)
    as (nc2 & H2 & Hat2).
  { lia. }
  { rewrite length_map. lia. }
  { exact HM. }
  rewrite length_map in H2.
  exists nc1, nc2. split; [exact H1|]. split; [|eauto].
  rewrite H2. f_equal. f_equal.
  replace (M + 1 - g) with (M - g + 1) by lia.
  rewrite within_within, map_map, length_map. reflexivity.
Qed.

Lemma sync_budget_results_witness :
  exists nc1 nc2,
    arrive_all 1 three_frames sync_conn = Ok nc1 /\
    pull_all (length (within 2 (2 + 1 - 0) three_frames)) 1 nc1
    = Ok (nc2, map (fun f => inr (frame_msg 1 f)) (within 2 (2 - 0) three_frames)
               ++ replicate (length (within 2 (2 + 1 - 0) three_frames)
                             - length (within 2 (2 - 0) three_frames))
                    (inl ErrMaxMessages)) /\
    (exists a d, sync_at 1 nc2 2 a d []).
Proof.
  apply (sync_budget_results three_frames 1 sync_conn 2 0).
  - eexists. split; [vm_compute; reflexivity|]. repeat split.
  - lia.
  - lia.
  - vm_compute. discriminate.
  - vm_compute. reflexivity.
Defined.

(** ** A greeting that cannot be read *)

Arguments Close : simpl never.
Arguments processReconnect : simpl never.
Arguments processDisconnect : simpl never.

Lemma processReconnect_trace nc :
  isClosed nc = false -> conn nc = None \/ is_Some (bw nc) ->
  exists nc',
    processReconnect nc = Ok nc' /\ err nc' = err nc /\
    trace nc' = trace nc ++ [EvDoReconnect]
                ++ (if Options.DisconnectedCB (Opts nc) then [EvDisconnectedCB] else []).
Proof.
  intros Hcl Hbw. unfold processReconnect. rewrite Hcl. simpl.
  destruct (conn nc) as [c|] eqn:Hc.
  - destruct Hbw as [Hbw|Hbw]; [discriminate|].
    destruct (Flush_total (set_status RECONNECTING nc) Hbw) as (n & e & -> & Hcn & Hbn).
    simpl. rewrite (kickFlusher_fch (set_conn None _)).
    destruct (core_fields _ _ Hcn) as (_&_&_&_&_&Ho&_&_&_&_&_&_&_&He&Ht&_).
    simpl in *. rewrite Ho.
    eexists. split; [reflexivity|].
    destruct (Options.DisconnectedCB (Opts nc)); simpl; rewrite ?He, ?Ht;
      split; try reflexivity; rewrite <- ?app_assoc; reflexivity.
  - simpl. rewrite (kickFlusher_fch (set_conn None _)). simpl.
    eexists. split; [reflexivity|].
    destruct (Options.DisconnectedCB (Opts nc)); simpl;
      split; try reflexivity; rewrite <- ?app_assoc; reflexivity.
Qed.

Lemma processDisconnect_fields nc :
  status (processDisconnect nc) = DISCONNECTED /\ conn (processDisconnect nc) = conn nc /\
  bw (processDisconnect nc) = bw nc /\ trace (processDisconnect nc) = trace nc /\
  pongs (processDisconnect nc) = pongs nc /\ Opts (processDisconnect nc) = Opts nc.
Proof.
  unfold processDisconnect. simpl. destruct (err nc); [repeat split|].
  destruct (serverInfo.SslRequired (info nc)); repeat split.
Qed.

(** X24.  [connect] when the greeting cannot be read.  The dial succeeds but
    the first line cannot be read or is not INFO.  [connect] returns that
    error, which is also the last error.  What is left behind depends on the
    options: when reconnecting is not allowed the connection is CLOSED, its
    socket closed, and the disconnected and closed callbacks were called;
    when it is allowed, as by default, the connection is RECONNECTING,
    without socket, with an empty pending buffer, and [doReconnect] has been
    started. *)
Theorem connect_unreadable_greeting :
  forall o c l cProto e,
    unreadable l = Some e ->
    exists nc1,
      connect_begin (DialOk c) l cProto (new_conn o) = Ok (nc1, inl e) /\
      err nc1 = Some e /\
      (if Options.AllowReconnect o
       then status nc1 = RECONNECTING /\ conn nc1 = None /\ pending nc1 = Some [] /\
            trace nc1 = [EvDoReconnect]
                        ++ (if Options.DisconnectedCB o then [EvDisconnectedCB] else [])
       else status nc1 = CLOSED /\
            (exists c', conn nc1 = Some c' /\ NetConn.up c' = false) /\
            trace nc1 = (if Options.DisconnectedCB o then [EvDisconnectedCB] else [])
                        ++ (if Options.ClosedCB o then [EvClosedCB] else [])).
Proof.
  intros o c l cProto e Hl.
  assert (Hpe : forall nc, processExpectedInfo l nc
                           = (let* n := processReadOpErr e nc in Ok (n, Some e))).
  { intros nc. destruct l; simpl in Hl; try discriminate; injection Hl as <-; reflexivity. }
  unfold connect_begin, createConn.
  change (pending (set_err None (set_conn (Some c) (new_conn o)))) with (@None bytes).
  cbv beta iota. simpl rbind. cbv beta iota.
  set (nc2 := set_fch 0 _).
  assert (F2 : status nc2 = DISCONNECTED /\ Opts nc2 = o /\ conn nc2 = Some c /\
               bw nc2 = Some (Writer.NewWriterSize ToConn defaultBufSize) /\
               trace nc2 = [] /\ pongs nc2 = []) by (repeat split).
  destruct F2 as (Hs2 & Ho2 & Hc2 & Hb2 & Ht2 & Hq2).
  rewrite Hpe. unfold processReadOpErr.
  replace (isClosed nc2 || isReconnecting nc2) with false
    by (unfold isClosed, isReconnecting; rewrite Hs2; reflexivity).
  rewrite Ho2. destruct (Options.AllowReconnect o).
  - assert (Hcl : isClosed nc2 = false) by (unfold isClosed; rewrite Hs2; reflexivity).
    assert (Hbw : conn nc2 = None \/ is_Some (bw nc2)) by (right; rewrite Hb2; eauto).
    destruct (processReconnect_spec nc2 Hcl Hbw) as (n & Hn & Hst & Hp & Hc & _).
    destruct (processReconnect_trace nc2 Hcl Hbw) as (n' & Hn' & _ & Ht).
    rewrite Hn in Hn'. injection Hn' as <-.
    rewrite Hn. simpl rbind. cbv beta iota.
    eexists. split; [reflexivity|]. split; [reflexivity|].
    split; [exact Hst|]. split; [exact Hc|]. split; [exact Hp|].
    change (trace n = [EvDoReconnect]
                      ++ (if Options.DisconnectedCB o then [EvDisconnectedCB] else [])).
    rewrite Ht, Ht2, Ho2. reflexivity.
  - destruct (processDisconnect_fields nc2) as (Hsd & Hcd & Hbd & Htd & Hqd & Hod).
    set (n0 := set_err (Some e) (processDisconnect nc2)).
    assert (Hcl : isClosed n0 = false).
    { unfold isClosed. change (status n0) with (status (processDisconnect nc2)).
      rewrite Hsd. reflexivity. }
    assert (Hbw : conn n0 = None \/ is_Some (bw n0)).
    { right. change (bw n0) with (bw (processDisconnect nc2)). rewrite Hbd, Hb2. eauto. }
    destruct (Close_fields n0 Hcl Hbw) as (n & Hn & Hst & He & _ & Ht & Hconn).
    rewrite Hn. simpl rbind. cbv beta iota.
    eexists. split; [reflexivity|]. split; [reflexivity|].
    split; [exact Hst|]. split.
    + apply (Hconn c). change (conn n0) with (conn (processDisconnect nc2)).
      rewrite Hcd. exact Hc2.
    + change (trace n = (if Options.DisconnectedCB o then [EvDisconnectedCB] else [])
                        ++ (if Options.ClosedCB o then [EvClosedCB] else [])).
      rewrite Ht.
      change (trace n0) with (trace (processDisconnect nc2)).
      change (pongs n0) with (pongs (processDisconnect nc2)).
      change (conn n0) with (conn (processDisconnect nc2)).
      change (Opts n0) with (Opts (processDisconnect nc2)).
      rewrite Htd, Hqd, Hcd, Hod, Ht2, Hq2, Hc2, Ho2. reflexivity.
Qed.

Lemma connect_unreadable_greeting_witness :
  exists nc1,
    connect_begin (DialOk (NetConn.mk [] true)) InfoNotInfo (Some example_cProto)
      (new_conn Options.Default) = Ok (nc1, inl ErrNoInfo) /\
    err nc1 = Some ErrNoInfo /\
    (if Options.AllowReconnect Options.Default
     then status nc1 = RECONNECTING /\ conn nc1 = None /\ pending nc1 = Some [] /\
          trace nc1 = [EvDoReconnect]
                      ++ (if Options.DisconnectedCB Options.Default
                          then [EvDisconnectedCB] else [])
     else status nc1 = CLOSED /\
          (exists c', conn nc1 = Some c' /\ NetConn.up c' = false) /\
          trace nc1 = (if Options.DisconnectedCB Options.Default then [EvDisconnectedCB] else [])
                      ++ (if Options.ClosedCB Options.Default then [EvClosedCB] else [])).
Proof.
  apply (connect_unreadable_greeting Options.Default (NetConn.mk [] true) InfoNotInfo
           (Some example_cProto) ErrNoInfo).
  reflexivity.
Defined.
